(** * PDFDB-Ask-RAG: the retrieval pipeline of [rag.py] and the query layer
      of [database.py], embedded as executable Rocq definitions.

    Python [str] values are [string]s whose characters are the code points
    below 256; [None] results are [option]s; exceptions are values of
    [exn] carried by [result]; the methods of [OrganizationSystemChat] and
    the functions of [database.py] are computations of the state and
    exception monad [M] over a [World] that holds the assistant object, the
    module-level connection pool and the history of calls made to the
    collaborators (PostgreSQL driver, Chroma, the language model).
    Output written with [print] and [logger] is left out. *)

From Stdlib Require Import String Ascii List Bool Arith ZArith.
From Stdlib Require QArith_base.
From Stdlib Require Import DecimalString.
Import ListNotations.
Local Open Scope list_scope.
Local Open Scope string_scope.

(* ===================================================================== *)
(** ** Python string operations used by the sources *)
(* ===================================================================== *)

Module PyStr.

(** The one-character string made of a line feed. *)
Definition LF : ascii := ascii_of_nat 10.
Definition nl : string := String LF EmptyString.

(** [str.isspace] on the code points below 256: TAB, LF, VT, FF, CR,
    FS, GS, RS, US, SPACE, NEL and NBSP. *)
Definition is_space (c : ascii) : bool :=
  let n := nat_of_ascii c in
  (((9 <=? n) && (n <=? 13)) || ((28 <=? n) && (n <=? 32))
   || (n =? 133) || (n =? 160))%nat.

Definition is_empty (s : string) : bool :=
  match s with EmptyString => true | String _ _ => false end.

(** [s.lstrip()] *)
Fixpoint lstrip (s : string) : string :=
  match s with
  | EmptyString => EmptyString
  | String c r => if is_space c then lstrip r else s
  end.

(** [s.rstrip()] *)
Fixpoint rstrip (s : string) : string :=
  match s with
  | EmptyString => EmptyString
  | String c r =>
      let r' := rstrip r in
      if is_space c && is_empty r' then EmptyString else String c r'
  end.

(** [s.strip()] *)
Definition strip (s : string) : string := rstrip (lstrip s).

(** [s.split("\n")]: never the empty list. *)
Fixpoint split_lines (s : string) : list string :=
  match s with
  | EmptyString => [EmptyString]
  | String c r =>
      if Ascii.eqb c LF then EmptyString :: split_lines r
      else match split_lines r with
           | h :: t => String c h :: t
           | [] => [String c EmptyString]
           end
  end.

(** [lines[0]] of a list produced by [split]. *)
Definition first (lines : list string) : string := hd EmptyString lines.

(** [s.startswith(p)] *)
Fixpoint startswith (p s : string) : bool :=
  match p, s with
  | EmptyString, _ => true
  | String a p', String b s' => Ascii.eqb a b && startswith p' s'
  | String _ _, EmptyString => false
  end.

(** [sub in s] *)
Fixpoint contains (sub s : string) : bool :=
  startswith sub s ||
  match s with
  | EmptyString => false
  | String _ r => contains sub r
  end.

(** [sep.join(parts)] *)
Fixpoint join (sep : string) (parts : list string) : string :=
  match parts with
  | [] => EmptyString
  | [p] => p
  | p :: rest => p ++ sep ++ join sep rest
  end.

(** A string without line feed. *)
Fixpoint no_newline (s : string) : Prop :=
  match s with
  | EmptyString => True
  | String c r => c <> LF /\ no_newline r
  end.

(** A string of whitespace only. *)
Fixpoint all_space (s : string) : Prop :=
  match s with
  | EmptyString => True
  | String c r => is_space c = true /\ all_space r
  end.

(** Whether the first, the last character is whitespace. *)
Definition starts_space (s : string) : bool :=
  match s with
  | EmptyString => false
  | String c _ => is_space c
  end.

Fixpoint ends_space (s : string) : bool :=
  match s with
  | EmptyString => false
  | String c EmptyString => is_space c
  | String _ r => ends_space r
  end.

End PyStr.

(* ===================================================================== *)
(** ** Values, exceptions and results *)
(* ===================================================================== *)

(** The classes of [Exception] that the sources name or that their
    collaborators raise.  [OperationalError] and [ProgrammingError] are
    psycopg2's, [PoolError] is raised by [psycopg2.pool]. *)
Inductive exn_class : Type :=
  | OperationalError
  | ProgrammingError
  | PoolError
  | IndexError
  | AttributeError
  | ValueError
  | RuntimeError.

(** An exception instance; [exn_msg e] is [str(e)]. *)
Record exn : Type := mkExn { exn_cls : exn_class; exn_msg : string }.

Definition is_operational (e : exn) : bool :=
  match exn_cls e with OperationalError => true | _ => false end.

Inductive result (A : Type) : Type :=
  | Ok (a : A)
  | Raise (e : exn).
Arguments Ok {A} a.
Arguments Raise {A} e.

(** What a method hands back to Python code that does not type it: a
    string, [None], or some other object. *)
Inductive pyval : Type :=
  | PStr (s : string)
  | PNone
  | PObj (repr : string).

(* ===================================================================== *)
(** ** [OrganizationSystemChat._format_response] *)
(* ===================================================================== *)

Definition sample_marker : string := "Sample data from".

Definition generic_summary : string :=
  "I have identified some sample data. Please specify if you need more details.".

(** The [isinstance(response, str)] branch. *)
Definition format_str (response : string) : string :=
  let response_lines := PyStr.split_lines (PyStr.strip response) in
  if PyStr.contains sample_marker (PyStr.first response_lines)
  then generic_summary
  else PyStr.first response_lines.

Definition _format_response (response : pyval) : pyval :=
  match response with
  | PStr s => PStr (format_str s)
  | other => other
  end.

(* ===================================================================== *)
(** ** Data model *)
(* ===================================================================== *)

(** [class Document]: a chunk of text with its metadata mapping. *)
Record Document : Type := mkDocument {
  page_content : string;
  metadata : list (string * string)
}.

(** [Document(page_content=text)]: [metadata or {}] gives the empty dict. *)
Definition new_document (text : string) : Document := mkDocument text [].

(** A value of a result row as the driver hands it to Python. *)
Inductive cell : Type :=
  | SqlNull
  | SqlInt (z : Z)
  | SqlText (s : string)
  | SqlBool (b : bool).

(** [str(cell)], which is also what an f-string field renders. *)
Definition py_str (c : cell) : string :=
  match c with
  | SqlNull => "None"
  | SqlInt z => NilZero.string_of_int (Z.to_int z)
  | SqlText s => s
  | SqlBool true => "True"
  | SqlBool false => "False"
  end.

Definition row : Type := list cell.
Definition batch : Type := list row.

(** [row[i]] on a tuple. *)
Definition row_get (r : row) (i : nat) : result cell :=
  match nth_error r i with
  | Some c => Ok c
  | None => Raise (mkExn IndexError "tuple index out of range")
  end.

(** What one [cursor.fetchmany] call does. *)
Inductive fetch_result : Type :=
  | FetchRows (rows : batch)
  | FetchRaise (e : exn).

(** The behaviour of a cursor on one statement: the exception
    [cursor.execute] raises, if any, and the results of the successive
    [cursor.fetchmany] calls; once they are used up [fetchmany] returns
    the empty list. *)
Record script : Type := mkScript {
  on_execute : option exn;
  fetches : list fetch_result
}.

(** A pooled connection, by identity. *)
Definition conn : Type := nat.

(** [psycopg2.pool.SimpleConnectionPool] seen from [database.py]: the
    connections that [getconn] can hand out, those handed out and not yet
    put back, and the exception [getconn] raises when none is left
    ([PoolError] when the pool is exhausted, [OperationalError] when a new
    connection cannot be opened). *)
Record Pool : Type := mkPool {
  idle : list conn;
  lent : list conn;
  on_empty : exn
}.

(** [Chroma] store: the documents it was built from. *)
Record VectorStore : Type := mkStore { indexed : list Document }.

(** [vector_store.as_retriever(search_type=..., search_kwargs=...)] *)
Record Retriever : Type := mkRetriever {
  r_store : VectorStore;
  search_type : string;
  k : nat;
  score_threshold : QArith_base.Q
}.

(** [{"context": retriever, "question": RunnablePassthrough()} | prompt
    | model | StrOutputParser()] *)
Record Chain : Type := mkChain {
  c_retriever : Retriever;
  c_prompt : string;
  c_model : string
}.

(** The attributes of an [OrganizationSystemChat] instance. *)
Record Chat : Type := mkChat {
  model : string;
  chunk_size : nat;
  chunk_overlap : nat;
  prompt : string;
  vector_store : option VectorStore;
  retriever : option Retriever;
  chain : option Chain;
  context : string
}.

(** Calls made to the collaborators, oldest first. *)
Inductive event : Type :=
  | EvGetconn (c : conn)
  | EvCursor (c : conn)
  | EvExecute (c : conn) (query : string)
  | EvFetchmany (c : conn) (batch_size : option nat)
  | EvClose (c : conn)
  | EvPutconn (c : conn)
  | EvFromDocuments (chunks : list Document)
  | EvRetrieve (query : string)
  | EvInvoke (context question : string).

(** The mutable state the code runs in: the assistant ([self]), the
    module global [db_pool], the list [all_chunks] shared by the
    coroutines of one [ingest_database] call, and the history. *)
Record World : Type := mkWorld {
  assistant : Chat;
  db_pool : option Pool;
  all_chunks : list Document;
  trace : list event
}.

(** The collaborators the code calls into. *)
Record Env : Type := mkEnv {
  (** the database: how a cursor behaves on a statement fetched with a
      given [batch_size] *)
  sql : string -> option nat -> script;
  (** [PyPDFLoader(file_path=p).load()] *)
  pdf_load : string -> result (list Document);
  (** [text_splitter.split_documents(docs)] *)
  split_documents : list Document -> result (list Document);
  (** [filter_complex_metadata(chunks)] *)
  filter_complex_metadata : list Document -> result (list Document);
  (** [Chroma.from_documents(documents=chunks, embedding=...)]: the
      exception it raises, if any *)
  from_documents : list Document -> option exn;
  (** [retriever.get_relevant_documents(query)] *)
  get_relevant_documents : Retriever -> string -> result (list Document);
  (** [chain.invoke({"context": c, "question": q})] *)
  chain_invoke : Chain -> string -> string -> result string;
  (** [str] of a list of row batches, as an f-string field renders it *)
  py_repr : list batch -> string
}.

(* ===================================================================== *)
(** ** State and exception monad *)
(* ===================================================================== *)

(** A computation runs in a world and ends with a value or a raised
    exception; the world it leaves is kept in both cases, as Python keeps
    the effects made before a [raise]. *)
Definition M (A : Type) : Type := World -> result A * World.

Definition ret {A} (a : A) : M A := fun w => (Ok a, w).

Definition raise {A} (e : exn) : M A := fun w => (Raise e, w).

Definition bind {A B} (m : M A) (f : A -> M B) : M B :=
  fun w =>
    match m w with
    | (Ok a, w') => f a w'
    | (Raise e, w') => (Raise e, w')
    end.

(** [try: body  except Exception as e: handler(e)] *)
Definition try_except {A} (body : M A) (handler : exn -> M A) : M A :=
  fun w =>
    match body w with
    | (Ok a, w') => (Ok a, w')
    | (Raise e, w') => handler e w'
    end.

(** [try: body  finally: cleanup] *)
Definition try_finally {A} (body : M A) (cleanup : M unit) : M A :=
  fun w =>
    match body w with
    | (r, w') =>
        match cleanup w' with
        | (Ok _, w'') => (r, w'')
        | (Raise e, w'') => (Raise e, w'')
        end
    end.

Definition lift_result {A} (r : result A) : M A := fun w => (r, w).

Declare Scope monad_scope.
Delimit Scope monad_scope with monad.
Notation "x <- m ;; k" := (bind m (fun x => k))
  (at level 61, m at next level, right associativity) : monad_scope.
Notation "m ;; k" := (bind m (fun _ => k))
  (at level 61, right associativity) : monad_scope.
Local Open Scope monad_scope.

Definition get_world : M World := fun w => (Ok w, w).

Definition record (ev : event) : M unit :=
  fun w => (Ok tt, mkWorld (assistant w) (db_pool w) (all_chunks w)
                          (trace w ++ [ev])).

Definition set_pool (p : option Pool) : M unit :=
  fun w => (Ok tt, mkWorld (assistant w) p (all_chunks w) (trace w)).

Definition set_all_chunks (l : list Document) : M unit :=
  fun w => (Ok tt, mkWorld (assistant w) (db_pool w) l (trace w)).

(** [all_chunks.append(doc)] *)
Definition append_chunk (d : Document) : M unit :=
  fun w => (Ok tt, mkWorld (assistant w) (db_pool w) (all_chunks w ++ [d])
                          (trace w)).

Definition set_self (c : Chat) : M unit :=
  fun w => (Ok tt, mkWorld c (db_pool w) (all_chunks w) (trace w)).

(** [for x in xs: body(x)] *)
Fixpoint for_each {A} (xs : list A) (body : A -> M unit) : M unit :=
  match xs with
  | [] => ret tt
  | x :: rest => body x ;; for_each rest body
  end.

(* ===================================================================== *)
(** ** [database.py] *)
(* ===================================================================== *)

(** [db_pool.getconn()] *)
Definition getconn (p : Pool) : result conn * Pool :=
  match idle p with
  | c :: rest => (Ok c, mkPool rest (c :: lent p) (on_empty p))
  | [] => (Raise (on_empty p), p)
  end.

Fixpoint remove_one (c : conn) (l : list conn) : list conn :=
  match l with
  | [] => []
  | x :: rest => if Nat.eqb x c then rest else x :: remove_one c rest
  end.

(** [db_pool.putconn(connection)] *)
Definition putconn (p : Pool) (c : conn) : Pool :=
  mkPool (c :: idle p) (remove_one c (lent p)) (on_empty p).

(** [get_connection()]: the connection, or [None] when there is no pool
    or [getconn] raises [OperationalError]; any other exception of
    [getconn] is not caught.  (A connection object is never falsy, so
    [if connection:] always returns it.) *)
Definition get_connection : M (option conn) :=
  w <- get_world ;;
  match db_pool w with
  | Some p =>
      match getconn p with
      | (Ok c, p') => set_pool (Some p') ;; record (EvGetconn c) ;; ret (Some c)
      | (Raise e, _) => if is_operational e then ret None else raise e
      end
  | None => ret None
  end.

(** [release_connection(connection)] *)
Definition release_connection (c : conn) : M unit :=
  w <- get_world ;;
  match db_pool w with
  | Some p => set_pool (Some (putconn p c)) ;; record (EvPutconn c)
  | None => ret tt
  end.

(** A generator run until it stops: the batches it yielded, in order, and
    the exception that ended it, if one did.  Every consumer in the
    sources ([list(...)] and [for] loops without [break]) runs the
    generator of [execute_query] to its end. *)
Record gen_result : Type := mkGen {
  yielded : list batch;
  raised : option exn
}.

Definition gen_yield (b : batch) (g : gen_result) : gen_result :=
  mkGen (b :: yielded g) (raised g).

(** The [while True] loop of [execute_query] on the remaining
    [fetchmany] results: a batch that is empty ends the loop, a batch
    with rows is yielded, an exception leaves the loop. *)
Fixpoint fetch_loop (c : conn) (batch_size : option nat)
         (fs : list fetch_result) : M gen_result :=
  record (EvFetchmany c batch_size) ;;
  match fs with
  | [] => ret (mkGen [] None)
  | FetchRows [] :: _ => ret (mkGen [] None)
  | FetchRows results :: rest =>
      g <- fetch_loop c batch_size rest ;;
      ret (gen_yield results g)
  | FetchRaise e :: _ => ret (mkGen [] (Some e))
  end.

(** [except OperationalError as e: logger.error(...)] *)
Definition except_operational (g : gen_result) : gen_result :=
  match raised g with
  | Some e => if is_operational e then mkGen (yielded g) None else g
  | None => g
  end.

Section Database.
Variable E : Env.

(** [execute_query(query, params, batch_size)], run to its end.  Without
    a connection the generator returns at once ([return None] in a
    generator only stops it); otherwise the statement is executed and
    fetched inside [try], [except] drops an [OperationalError], and
    [finally] closes the cursor and releases the connection.  No caller
    passes [params].  [connection.cursor()], [cursor.close()] and
    [putconn] are taken not to fail. *)
Definition execute_query (query : string) (params : option (list cell))
           (batch_size : option nat) : M gen_result :=
  fun w =>
    match get_connection w with
    | (Raise e, w1) => (Ok (mkGen [] (Some e)), w1)
    | (Ok None, w1) => (Ok (mkGen [] None), w1)
    | (Ok (Some c), w1) =>
        (record (EvCursor c) ;;
         try_finally
           (g <- (record (EvExecute c query) ;;
                  match on_execute (sql E query batch_size) with
                  | Some e => ret (mkGen [] (Some e))
                  | None => fetch_loop c batch_size
                                       (fetches (sql E query batch_size))
                  end) ;;
            ret (except_operational g))
           (record (EvClose c) ;; release_connection c)) w1
    end.

(** [list(gen)] *)
Definition py_list (g : gen_result) : M (list batch) :=
  match raised g with
  | None => ret (yielded g)
  | Some e => raise e
  end.

(** [for b in gen: body(b)] *)
Definition for_gen (g : gen_result) (body : batch -> M unit) : M unit :=
  for_each (yielded g) body ;;
  match raised g with
  | None => ret tt
  | Some e => raise e
  end.

(** [[f(x) for x in xs]] where [f] may raise. *)
Fixpoint map_result {A B} (f : A -> result B) (xs : list A)
  : result (list B) :=
  match xs with
  | [] => Ok []
  | x :: rest =>
      match f x with
      | Raise e => Raise e
      | Ok y =>
          match map_result f rest with
          | Raise e => Raise e
          | Ok ys => Ok (y :: ys)
          end
      end
  end.

Definition table_names_query : string :=
  "SELECT table_name FROM information_schema.tables WHERE table_schema='public'".

(** [get_table_names()] *)
Definition get_table_names : M (list cell) :=
  g <- execute_query table_names_query None None ;;
  result <- py_list g ;;
  match result with
  | [] => ret []
  | _ => lift_result (map_result (fun r => row_get r 0) (concat result))
  end.

End Database.

(* ===================================================================== *)
(** ** [rag.py] *)
(* ===================================================================== *)

Definition prompt_template : string :=
  PyStr.join PyStr.nl
  [ EmptyString;
    "            <s> [INST] You are an assistant for question-answering tasks. Use the following pieces of retrieved context ";
    "            to answer the question. If you don't know the answer, just say that you don't know. Use three sentences";
    "             maximum and keep the answer concise. [/INST] </s> ";
    "            [INST] Question: {question} ";
    "            Context: {context} ";
    "            Answer: [/INST]";
    "            " ].

(** [OrganizationSystemChat.__init__] *)
Definition init : Chat :=
  mkChat "mistral" 1024 100 prompt_template None None None EmptyString.

(** The metadata statement of [fetch_table_data], [table] interpolated
    as it is. *)
Definition metadata_query (table : string) : string :=
  PyStr.join PyStr.nl
  [ EmptyString;
    "                SELECT column_name, data_type";
    "                FROM information_schema.columns";
    "                WHERE table_name = '" ++ table ++ "';";
    "                " ].

Definition data_query (table : string) : string :=
  "SELECT * FROM " ++ table.

Definition sample_query (table : string) : string :=
  "SELECT * FROM " ++ table ++ " LIMIT 5".

Definition relationship_query : string :=
  PyStr.join PyStr.nl
  [ EmptyString;
    "                SELECT ";
    "                    tc.table_name, kcu.column_name, ";
    "                    ccu.ss AS foreign_table_name,";
    "                    ccu.column_name AS foreign_column_name ";
    "                FROM ";
    "                    information_schema.table_constraints AS tc ";
    "                    JOIN information_schema.key_column_usage AS kcu";
    "                      ON tc.constraint_name = kcu.constraint_name";
    "                    JOIN information_schema.constraint_column_usage AS ccu ";
    "                      ON ccu.constraint_name = tc.constraint_name";
    "                WHERE constraint_type = 'FOREIGN KEY';";
    "                " ].

(** [f"{column[0]} ({column[1]})"] *)
Definition column_line (column : row) : result string :=
  match row_get column 0 with
  | Raise e => Raise e
  | Ok name =>
      match row_get column 1 with
      | Raise e => Raise e
      | Ok type => Ok (py_str name ++ " (" ++ py_str type ++ ")")
      end
  end.

(** [f"{row[0]} ({row[1]}) -> {row[2]} ({row[3]})"] *)
Definition relationship_line (r : row) : result string :=
  match row_get r 0 with
  | Raise e => Raise e
  | Ok a =>
      match row_get r 1 with
      | Raise e => Raise e
      | Ok b =>
          match row_get r 2 with
          | Raise e => Raise e
          | Ok c =>
              match row_get r 3 with
              | Raise e => Raise e
              | Ok d =>
                  Ok (py_str a ++ " (" ++ py_str b ++ ") -> "
                      ++ py_str c ++ " (" ++ py_str d ++ ")")
              end
          end
      end
  end.

(** [f"Table: {table}\n{row_text}"] with
    [row_text = " | ".join(str(cell) for cell in row)] *)
Definition row_chunk (table : string) (r : row) : Document :=
  new_document ("Table: " ++ table ++ PyStr.nl
                ++ PyStr.join " | " (map py_str r)).

(** [f"Table: {table}\nColumns:\n"] followed by the joined column
    lines. *)
Definition schema_chunk (table : string) (lines : list string) : Document :=
  new_document ("Table: " ++ table ++ PyStr.nl ++ "Columns:" ++ PyStr.nl
                ++ PyStr.join PyStr.nl lines).

(** ["Relationships among tables:\n"] followed by the joined edge
    lines. *)
Definition relationship_chunk (lines : list string) : Document :=
  new_document ("Relationships among tables:" ++ PyStr.nl
                ++ PyStr.join PyStr.nl lines).

Definition guidance : string :=
  "Please, add a document or connect to a database first.".

(** The assignments a method makes to [self]. *)

(** [self.context = c] *)
Definition with_context (self : Chat) (c : string) : Chat :=
  mkChat (model self) (chunk_size self) (chunk_overlap self) (prompt self)
         (vector_store self) (retriever self) (chain self) c.

(** [self.vector_store], [self.retriever] and [self.chain] as
    [_initialize_vector_store] assigns them for [chunks]. *)
Definition with_index (self : Chat) (chunks : list Document) : Chat :=
  let store := mkStore chunks in
  let retr :=
    mkRetriever store "similarity_score_threshold" 3 (QArith_base.Qmake 1 2) in
  let ch := mkChain retr (prompt self) (model self) in
  mkChat (model self) (chunk_size self) (chunk_overlap self) (prompt self)
         (Some store) (Some retr) (Some ch) (context self).

(** The four assignments of [clear]. *)
Definition cleared (self : Chat) : Chat :=
  mkChat (model self) (chunk_size self) (chunk_overlap self) (prompt self)
         None None None EmptyString.

(** The [context] that [ask] hands to the chain: the retrieved contents
    joined by spaces, or [self.context] when that is blank. *)
Definition ask_context (self : Chat) (context_docs : list Document) : string :=
  let retrieved := PyStr.join " " (map page_content context_docs) in
  if PyStr.is_empty (PyStr.strip retrieved) then context self else retrieved.

Section Rag.
Variable E : Env.

(** [_initialize_vector_store(chunks)]: the returned value is [None]
    when the body runs through and the message when it raised.  Only
    [Chroma.from_documents] is taken to fail; [as_retriever] and the
    composition of the chain build objects and call no backend. *)
Definition _initialize_vector_store (chunks : list Document)
  : M (option string) :=
  try_except
    (record (EvFromDocuments chunks) ;;
     match from_documents E chunks with
     | Some e => raise e
     | None =>
         w <- get_world ;;
         set_self (with_index (assistant w) chunks) ;;
         ret None
     end)
    (fun e => ret (Some ("Error initializing vector store: " ++ exn_msg e))).

(** [ingest_document(pdf_file_path)]: the value of the awaited
    [_initialize_vector_store] is dropped and the [try] body ends without
    [return], so the method gives [None] unless the loader, the splitter
    or the metadata filter raised. *)
Definition ingest_document (pdf_file_path : string) : M (option string) :=
  try_except
    (docs <- lift_result (pdf_load E pdf_file_path) ;;
     chunks <- lift_result (split_documents E docs) ;;
     chunks <- lift_result (filter_complex_metadata E chunks) ;;
     _ <- _initialize_vector_store chunks ;;
     ret None)
    (fun e => ret (Some ("Error during document ingestion: " ++ exn_msg e))).

(** The coroutine [fetch_table_data(table)] of [ingest_database]. *)
Definition fetch_table_data (table : string) : M unit :=
  g <- execute_query E (metadata_query table) None None ;;
  metadata_result <- py_list g ;;
  match metadata_result with
  | [] => ret tt
  | _ =>
      lines <- lift_result (map_result column_line (concat metadata_result)) ;;
      append_chunk (schema_chunk table lines)
  end ;;
  g <- execute_query E (data_query table) None (Some 1000) ;;
  for_gen g (fun b => for_each b (fun r => append_chunk (row_chunk table r))).

(** The coroutine [fetch_relationships()] of [ingest_database]. *)
Definition fetch_relationships : M unit :=
  g <- execute_query E relationship_query None None ;;
  relationship_result <- py_list g ;;
  match relationship_result with
  | [] => ret tt
  | _ =>
      lines <- lift_result
                 (map_result relationship_line (concat relationship_result)) ;;
      append_chunk (relationship_chunk lines)
  end.

(** [await asyncio.gather] over [tasks], coroutines that never suspend: the
    event loop runs each task to its end in the order given, the effects
    of all of them stay, and the exception of the first task that raised
    is raised in the awaiting coroutine. *)
Fixpoint gather (tasks : list (M unit)) : M unit :=
  match tasks with
  | [] => ret tt
  | t :: rest =>
      fun w =>
        match t w with
        | (r, w1) =>
            match gather rest w1 with
            | (rs, w2) =>
                (match r with Raise e => Raise e | Ok _ => rs end, w2)
            end
        end
  end.

Definition set_context (c : string) : M unit :=
  w <- get_world ;;
  set_self (with_context (assistant w) c).

(** [ingest_database(tables)] *)
Definition ingest_database (tables : list string) : M (option string) :=
  try_except
    (set_all_chunks [] ;;
     gather (map fetch_table_data tables ++ [fetch_relationships]) ;;
     w <- get_world ;;
     set_context (PyStr.join PyStr.nl (map page_content (all_chunks w))) ;;
     _ <- _initialize_vector_store (all_chunks w) ;;
     ret None)
    (fun e => ret (Some ("Error during database ingestion: " ++ exn_msg e))).

(** [ask(query)] *)
Definition ask (query : string) : M pyval :=
  w <- get_world ;;
  let self := assistant w in
  match chain self with
  | None => ret (PStr guidance)
  | Some ch =>
      try_except
        (context_docs <-
           match retriever self with
           | Some r =>
               record (EvRetrieve query) ;;
               lift_result (get_relevant_documents E r query)
           | None =>
               raise (mkExn AttributeError
                 "'NoneType' object has no attribute 'get_relevant_documents'")
           end ;;
         let ctx := ask_context self context_docs in
         record (EvInvoke ctx query) ;;
         response <- lift_result (chain_invoke E ch ctx query) ;;
         ret (_format_response (PStr response)))
        (fun e => ret (PStr ("Error during query processing: " ++ exn_msg e)))
  end.

(** The loop of [generate_insights] over [tables], [insights] being the
    list built so far. *)
Fixpoint insights_loop (tables : list string) (insights : list string)
  : M (list string) :=
  match tables with
  | [] => ret insights
  | table :: rest =>
      g <- execute_query E (sample_query table) None None ;;
      data_sample <- py_list g ;;
      match data_sample with
      | [] => insights_loop rest insights
      | _ =>
          let insight :=
            "Sample data from " ++ table ++ ": " ++ py_repr E data_sample in
          insights_loop rest (insights ++ [insight])%list
      end
  end.

(** [generate_insights(tables, query)] *)
Definition generate_insights (tables : list string) (query : string)
  : M pyval :=
  try_except
    (insights <- insights_loop tables [] ;;
     ret (_format_response (PStr (PyStr.join " " insights))))
    (fun e => ret (PStr ("Error generating insights: " ++ exn_msg e))).

(** [clear()] *)
Definition clear : M unit :=
  w <- get_world ;;
  set_self (cleared (assistant w)).

End Rag.

(* ===================================================================== *)
(** ** What a query gives when a connection is available *)
(* ===================================================================== *)

(** The batches [fetch_loop] yields and the exception that ends it. *)
Fixpoint drain (fs : list fetch_result) : gen_result :=
  match fs with
  | [] => mkGen [] None
  | FetchRows [] :: _ => mkGen [] None
  | FetchRows results :: rest => gen_yield results (drain rest)
  | FetchRaise e :: _ => mkGen [] (Some e)
  end.

(** The [fetchmany] calls [fetch_loop] makes. *)
Fixpoint fetch_trace (c : conn) (batch_size : option nat)
         (fs : list fetch_result) : list event :=
  EvFetchmany c batch_size ::
  match fs with
  | FetchRows (_ :: _) :: rest => fetch_trace c batch_size rest
  | _ => []
  end.

(** The generator of [execute_query] on a cursor that follows [s]. *)
Definition run_script (s : script) : gen_result :=
  except_operational
    match on_execute s with
    | Some e => mkGen [] (Some e)
    | None => drain (fetches s)
    end.

(** The calls one [execute_query] makes on connection [c]. *)
Definition query_trace (E : Env) (c : conn) (query : string)
           (batch_size : option nat) : list event :=
  [EvGetconn c; EvCursor c; EvExecute c query]
  ++ match on_execute (sql E query batch_size) with
     | Some _ => []
     | None => fetch_trace c batch_size (fetches (sql E query batch_size))
     end
  ++ [EvClose c; EvPutconn c].

Definition add_trace (w : World) (evs : list event) : World :=
  mkWorld (assistant w) (db_pool w) (all_chunks w) (trace w ++ evs).

(** The pool hands out a connection: [get_connection] returns it. *)
Definition pool_ready (w : World) (c : conn) : Prop :=
  exists p rest, db_pool w = Some p /\ idle p = c :: rest.

(* ===================================================================== *)
(** ** What the coroutines of [ingest_database] give *)
(* ===================================================================== *)

(** What one coroutine appends to [all_chunks] and the exception it ends
    with, if any. *)
Record task_result : Type := mkTask {
  task_chunks : list Document;
  task_error : option exn
}.

(** [raise e] for [Some e], a normal end for [None]. *)
Definition outcome_of (err : option exn) : result unit :=
  match err with
  | None => Ok tt
  | Some e => Raise e
  end.

Definition task_outcome (t : task_result) : result unit :=
  outcome_of (task_error t).

(** [fetch_table_data(table)] when [get_connection] succeeds. *)
Definition table_task (E : Env) (table : string) : task_result :=
  let g := run_script (sql E (metadata_query table) None) in
  match raised g with
  | Some e => mkTask [] (Some e)
  | None =>
      match
        match yielded g with
        | [] => Ok []
        | _ =>
            match map_result column_line (concat (yielded g)) with
            | Ok lines => Ok [schema_chunk table lines]
            | Raise e => Raise e
            end
        end
      with
      | Raise e => mkTask [] (Some e)
      | Ok schema =>
          let g2 := run_script (sql E (data_query table) (Some 1000)) in
          mkTask (schema ++ map (row_chunk table) (concat (yielded g2)))
                 (raised g2)
      end
  end.

(** [fetch_relationships()] when [get_connection] succeeds. *)
Definition relationship_task (E : Env) : task_result :=
  let g := run_script (sql E relationship_query None) in
  match raised g with
  | Some e => mkTask [] (Some e)
  | None =>
      match yielded g with
      | [] => mkTask [] None
      | _ =>
          match map_result relationship_line (concat (yielded g)) with
          | Ok lines => mkTask [relationship_chunk lines] None
          | Raise e => mkTask [] (Some e)
          end
      end
  end.

(** The tasks [ingest_database(tables)] hands to [gather], in order. *)
Definition ingestion_tasks (E : Env) (tables : list string)
  : list task_result :=
  (map (table_task E) tables ++ [relationship_task E])%list.

(** The exception [gather] raises: that of the first task that failed. *)
Fixpoint first_error (ts : list task_result) : option exn :=
  match ts with
  | [] => None
  | t :: rest =>
      match task_error t with
      | Some e => Some e
      | None => first_error rest
      end
  end.

(** Everything the tasks appended to [all_chunks]. *)
Definition gathered_chunks (ts : list task_result) : list Document :=
  flat_map task_chunks ts.

(** A world that differs from [w] by chunks appended to [all_chunks] and
    calls added to the history. *)
Definition grow (w : World) (ds : list Document) (evs : list event) : World :=
  mkWorld (assistant w) (db_pool w) (all_chunks w ++ ds) (trace w ++ evs).

(** Calls made to the database driver. *)
Definition db_event (ev : event) : Prop :=
  match ev with
  | EvFromDocuments _ | EvRetrieve _ | EvInvoke _ _ => False
  | _ => True
  end.

(** The statements among a list of calls. *)
Fixpoint statements (evs : list event) : list string :=
  match evs with
  | [] => []
  | EvExecute _ q :: rest => q :: statements rest
  | _ :: rest => statements rest
  end.

(** On a pool that hands out [c], the coroutine [m] ends as [t] says,
    appends the chunks of [t] and talks to the database only. *)
Definition runs_as (c : conn) (m : M unit) (t : task_result) : Prop :=
  forall w, pool_ready w c ->
    exists evs,
      Forall db_event evs /\
      m w = (task_outcome t, grow w (task_chunks t) evs).

(** [self] after [_initialize_vector_store(chunks)]: the three
    attributes are assigned only if [Chroma.from_documents] returned. *)
Definition rebuilt (E : Env) (self : Chat) (chunks : list Document) : Chat :=
  match from_documents E chunks with
  | Some _ => self
  | None => with_index self chunks
  end.

(** The chunk lists handed to [Chroma.from_documents] in a history. *)
Fixpoint rebuild_calls (evs : list event) : list (list Document) :=
  match evs with
  | [] => []
  | EvFromDocuments chunks :: rest => chunks :: rebuild_calls rest
  | _ :: rest => rebuild_calls rest
  end.

(** A computation that leaves the assistant as it is. *)
Definition keeps_self {A : Type} (m : M A) : Prop :=
  forall w, assistant (snd (m w)) = assistant w.

(** [self] has an index built from some batch on which
    [Chroma.from_documents] returned. *)
Definition index_built (E : Env) (self : Chat) : Prop :=
  exists chunks,
    from_documents E chunks = None /\
    vector_store self = Some (mkStore chunks).

(** A computation whose calls to the collaborators all satisfy [P]. *)
Definition emits (P : event -> Prop) {A : Type} (m : M A) : Prop :=
  forall w, exists evs,
    trace (snd (m w)) = (trace w ++ evs)%list /\ Forall P evs.

(** A statement that is the fixed relationship statement or one of the
    three templates with a table of [tables] interpolated. *)
Definition statement_for (tables : list string) (q : string) : Prop :=
  q = relationship_query \/
  exists t, In t tables /\
            (q = metadata_query t \/ q = data_query t \/ q = sample_query t).

Definition issued_for (tables : list string) (ev : event) : Prop :=
  match ev with
  | EvExecute _ q => statement_for tables q
  | _ => True
  end.

(* ===================================================================== *)
(** ** A concrete database, documents and backends *)
(* ===================================================================== *)

Module Demo.

Definition undefined_column : exn :=
  mkExn ProgrammingError "column ccu.ss does not exist".

Definition undefined_table : exn :=
  mkExn ProgrammingError "relation does not exist".

Definition connection_lost : exn :=
  mkExn OperationalError "server closed the connection unexpectedly".

Definition backend_down : exn :=
  mkExn RuntimeError "embedding backend unreachable".

Definition rows_of (cells : list (list string)) : batch :=
  map (map SqlText) cells.

(** The columns of PostgreSQL's view
    [information_schema.constraint_column_usage]. *)
Definition constraint_column_usage : list string :=
  ["table_catalog"; "table_schema"; "table_name"; "column_name";
   "constraint_catalog"; "constraint_schema"; "constraint_name"].

Definition is_ident_char (c : ascii) : bool :=
  let n := nat_of_ascii c in
  (((48 <=? n) && (n <=? 57)) || ((65 <=? n) && (n <=? 90))
   || ((97 <=? n) && (n <=? 122)) || (n =? 95))%nat.

Fixpoint ident_prefix (s : string) : string :=
  match s with
  | EmptyString => EmptyString
  | String c r => if is_ident_char c then String c (ident_prefix r)
                  else EmptyString
  end.

Fixpoint drop_prefix (p s : string) : option string :=
  match p, s with
  | EmptyString, _ => Some s
  | String a p', String b s' =>
      if Ascii.eqb a b then drop_prefix p' s' else None
  | String _ _, EmptyString => None
  end.

(** The column names a statement refers to through the qualifier
    [alias_dot], in order of appearance. *)
Fixpoint qualified_refs (alias_dot : string) (statement : string)
  : list string :=
  match statement with
  | EmptyString => []
  | String _ r =>
      match drop_prefix alias_dot statement with
      | Some rest => ident_prefix rest :: qualified_refs alias_dot r
      | None => qualified_refs alias_dot r
      end
  end.

(** Whether every column a statement reads through the alias [ccu] is a
    column of [constraint_column_usage]. *)
Definition ccu_resolves (statement : string) : bool :=
  forallb (fun col => existsb (String.eqb col) constraint_column_usage)
          (qualified_refs "ccu." statement).

(** A PostgreSQL database with [users(id, name)], [orders(id, user_id)]
    and the foreign key [orders.user_id -> users.id].  The server rejects
    a statement that reads, through [ccu], a column the view does not
    have; the columns of a table it does not have are an empty result,
    and a statement that reads such a table is rejected. *)
Definition pg_sql (query : string) (batch_size : option nat) : script :=
  if negb (ccu_resolves query) then mkScript (Some undefined_column) []
  else if String.eqb query table_names_query then
    mkScript None [FetchRows (rows_of [["users"]]);
                   FetchRows (rows_of [["orders"]])]
  else if String.eqb query (metadata_query "users") then
    mkScript None [FetchRows (rows_of [["id"; "integer"]]);
                   FetchRows (rows_of [["name"; "text"]])]
  else if String.eqb query (metadata_query "orders") then
    mkScript None [FetchRows (rows_of [["id"; "integer"]]);
                   FetchRows (rows_of [["user_id"; "integer"]])]
  else if String.eqb query (data_query "users") then
    mkScript None [FetchRows [[SqlInt 1; SqlText "Ada"];
                              [SqlInt 2; SqlText "Bob"]]]
  else if String.eqb query (data_query "orders") then
    mkScript None [FetchRows [[SqlInt 10; SqlInt 1]]]
  else if String.eqb query (sample_query "users") then
    mkScript None [FetchRows [[SqlInt 1; SqlText "Ada"]];
                   FetchRows [[SqlInt 2; SqlText "Bob"]]]
  else if PyStr.contains "FROM information_schema.columns" query then
    mkScript None []
  else mkScript (Some undefined_table) [].

(** The same tables on an engine that answers the relationship statement
    with the foreign-key edges, and on which [orders] cannot be read
    (the connection drops, an operational failure). *)
Definition lenient_sql (query : string) (batch_size : option nat) : script :=
  if String.eqb query relationship_query then
    mkScript None [FetchRows (rows_of [["orders"; "user_id"; "users"; "id"]])]
  else if String.eqb query (metadata_query "orders") then
    mkScript (Some connection_lost) []
  else if String.eqb query (data_query "orders") then
    mkScript (Some connection_lost) []
  else pg_sql query batch_size.

Definition sky : Document :=
  mkDocument "The sky is blue." [("page", "0"); ("source", "sky.pdf")].

(** Backends: one PDF, a splitter and a filter that keep the pages as
    they are, a retriever that finds nothing above the threshold, and a
    model that answers with the context it was given. *)
Definition env (db : string -> option nat -> script) (embedding_up : bool)
  : Env :=
  mkEnv db
        (fun path =>
           if String.eqb path "sky.pdf" then Ok [sky]
           else Raise (mkExn ValueError "File path is not a valid file"))
        (fun docs => Ok docs)
        (fun chunks => Ok chunks)
        (fun _ => if embedding_up then None else Some backend_down)
        (fun _ _ => Ok [])
        (fun _ ctx _ => Ok ctx)
        (fun data => "[...]").

Definition pool1 : Pool :=
  mkPool [7] [] (mkExn PoolError "connection pool exhausted").

(** A freshly constructed assistant, with and without a connection
    pool. *)
Definition fresh : World := mkWorld init None [] [].
Definition connected : World := mkWorld init (Some pool1) [] [].

End Demo.

(* ===================================================================== *)
(** ** Further readings of the methods *)
(* ===================================================================== *)

(** A document whose content is whitespace only. *)
Definition blank_document (d : Document) : Prop :=
  PyStr.all_space (page_content d).

(** The text of one entry of [insights] in [generate_insights]. *)
Definition insight_text (E : Env) (table : string) (data_sample : list batch)
  : string :=
  "Sample data from " ++ table ++ ": " ++ py_repr E data_sample.

(** A string that begins like an entry of [insights]. *)
Definition insight_like (s : string) : Prop :=
  exists table rest, s = "Sample data from " ++ table ++ ": " ++ rest.

(** What the sample statement of [generate_insights] gives for a table
    when a connection is available. *)
Definition sample_data (E : Env) (table : string) : gen_result :=
  run_script (sql E (sample_query table) None).

Definition has_sample (E : Env) (table : string) : bool :=
  match yielded (sample_data E table) with
  | [] => false
  | _ :: _ => true
  end.

(** [get_connection] gives [None]: there is no pool, or the pool has no
    connection to hand out and fails with an [OperationalError]. *)
Definition no_connection (w : World) : Prop :=
  db_pool w = None \/
  exists p, db_pool w = Some p /\ idle p = [] /\
            is_operational (on_empty p) = true.

(** The store, the retriever and the chain are set together, and the
    retriever and the chain are those of the store. *)
Definition coherent (self : Chat) : Prop :=
  match vector_store self, retriever self, chain self with
  | None, None, None => True
  | Some s, Some r, Some ch => r_store r = s /\ c_retriever ch = r
  | _, _, _ => False
  end.

(** A computation that leaves the pool as it is. *)
Definition keeps_pool {A : Type} (m : M A) : Prop :=
  forall w, db_pool (snd (m w)) = db_pool w.

(** A chunk as [ingest_database] makes them: no metadata, and a content
    that opens with the table header or the relationship header. *)
Definition database_chunk (d : Document) : Prop :=
  metadata d = [] /\
  (PyStr.startswith "Table: " (page_content d) = true \/
   PyStr.startswith "Relationships among tables:" (page_content d) = true).

(** More concrete worlds: an environment whose retriever returns given
    documents and whose database is [db], and an assistant that has
    indexed the PDF of [Demo]. *)
Module Sample.

Definition env (db : string -> option nat -> script)
           (found : list Document) : Env :=
  mkEnv db
        (fun path =>
           if String.eqb path "sky.pdf" then Ok [Demo.sky]
           else if String.eqb path "sea.pdf"
                then Ok [mkDocument "The sea is deep." [("page", "0")]]
                else Raise (mkExn ValueError "File path is not a valid file"))
        (fun docs => Ok docs)
        (fun chunks => Ok chunks)
        (fun _ => None)
        (fun _ _ => Ok found)
        (fun _ ctx _ => Ok ctx)
        (fun data => "[...]").

Definition indexed : World :=
  mkWorld (with_index init [Demo.sky]) (Some Demo.pool1) [] [].

End Sample.

(** The entries [generate_insights] collects when every sample statement
    runs through: one for each table that gave rows, in the order of
    [tables]. *)
Definition insights_of (E : Env) (tables : list string) : list string :=
  map (fun t => insight_text E t (yielded (sample_data E t)))
      (filter (has_sample E) tables).

(* ===================================================================== *)
(** ** [database.py]: the stored configurations and the pool *)
(* ===================================================================== *)

(** A Python dict with string keys, in insertion order. *)
Definition dict (V : Type) : Type := list (string * V).

(** [d.get(key)] *)
Fixpoint dict_get {V} (d : dict V) (key : string) : option V :=
  match d with
  | [] => None
  | (k, v) :: rest => if String.eqb k key then Some v else dict_get rest key
  end.

(** [d[key] = value]: an existing key keeps its place. *)
Fixpoint dict_set {V} (d : dict V) (key : string) (value : V) : dict V :=
  match d with
  | [] => [(key, value)]
  | (k, v) :: rest =>
      if String.eqb k key then (k, value) :: rest
      else (k, v) :: dict_set rest key value
  end.

(** [d.update(items)] *)
Definition dict_update {V} (d items : dict V) : dict V :=
  fold_left (fun acc kv => dict_set acc (fst kv) (snd kv)) items d.

(** What the configuration functions can raise: [KeyError] of a dict
    access, or an exception of the driver. *)
Inductive cfg_exn : Type :=
  | KeyError (key : string)
  | DriverError (e : exn).

Inductive cfg_result (A : Type) : Type :=
  | CfgOk (a : A)
  | CfgRaise (e : cfg_exn).
Arguments CfgOk {A} a.
Arguments CfgRaise {A} e.

(** [d[key]] *)
Definition dict_item (d : dict string) (key : string) : cfg_result string :=
  match dict_get d key with
  | Some v => CfgOk v
  | None => CfgRaise (KeyError key)
  end.

(** [psycopg2.pool.SimpleConnectionPool(minconn, maxconn, dbname=...,
    user=..., password=..., host=..., port=...)]: the pool, or the
    exception raised while the first connections are opened. *)
Definition connector : Type :=
  nat -> nat -> string -> string -> string -> string -> string -> result Pool.

Section Configuration.
Variable connect : connector.

(** [create_connection_pool(db_config, minconn, maxconn)] on the global
    [db_pool]: the keyword arguments are read in the order written, the
    pool is assigned when the constructor returns, and set to [None] when
    it raises [OperationalError]. *)
Definition create_connection_pool (db_config : dict string)
           (minconn maxconn : nat) (db_pool : option Pool)
  : cfg_result unit * option Pool :=
  match dict_item db_config "name" with
  | CfgRaise e => (CfgRaise e, db_pool)
  | CfgOk dbname =>
  match dict_item db_config "username" with
  | CfgRaise e => (CfgRaise e, db_pool)
  | CfgOk user =>
  match dict_item db_config "password" with
  | CfgRaise e => (CfgRaise e, db_pool)
  | CfgOk password =>
  match dict_item db_config "host" with
  | CfgRaise e => (CfgRaise e, db_pool)
  | CfgOk host =>
  match dict_item db_config "port" with
  | CfgRaise e => (CfgRaise e, db_pool)
  | CfgOk port =>
      match connect minconn maxconn dbname user password host port with
      | Ok p => (CfgOk tt, Some p)
      | Raise e =>
          if is_operational e then (CfgOk tt, None)
          else (CfgRaise (DriverError e), db_pool)
      end
  end end end end end.

(** [add_database(db_form_data)] *)
Definition add_database (db_form_data : dict string) (db_pool : option Pool)
  : cfg_result (string * dict string) * option Pool :=
  match dict_item db_form_data "name" with
  | CfgRaise e => (CfgRaise e, db_pool)
  | CfgOk db_name =>
  match dict_item db_form_data "host" with
  | CfgRaise e => (CfgRaise e, db_pool)
  | CfgOk host =>
  match dict_item db_form_data "port" with
  | CfgRaise e => (CfgRaise e, db_pool)
  | CfgOk port =>
  match dict_item db_form_data "username" with
  | CfgRaise e => (CfgRaise e, db_pool)
  | CfgOk username =>
  match dict_item db_form_data "password" with
  | CfgRaise e => (CfgRaise e, db_pool)
  | CfgOk password =>
      let db_config :=
        [("name", db_name); ("host", host); ("port", port);
         ("username", username); ("password", password)] in
      match create_connection_pool db_config 1 10 db_pool with
      | (CfgRaise e, pool') => (CfgRaise e, pool')
      | (CfgOk _, pool') => (CfgOk (db_name, db_config), pool')
      end
  end end end end end.

(** [edit_database(db_name, db_form_data, databases)].  [db_config] is
    the dict stored in [databases] when [db_name] is a key of it, so
    [update] changes the stored configuration in place; otherwise it is a
    new empty dict that is stored nowhere. *)
Definition edit_database (db_name : string) (db_form_data : dict string)
           (databases : dict (dict string)) (db_pool : option Pool)
  : cfg_result (string * dict string) * dict (dict string) * option Pool :=
  let db_config :=
    match dict_get databases db_name with
    | Some stored => stored
    | None => []
    end in
  match dict_item db_form_data "host" with
  | CfgRaise e => (CfgRaise e, databases, db_pool)
  | CfgOk host =>
  match dict_item db_form_data "port" with
  | CfgRaise e => (CfgRaise e, databases, db_pool)
  | CfgOk port =>
  match dict_item db_form_data "username" with
  | CfgRaise e => (CfgRaise e, databases, db_pool)
  | CfgOk username =>
  match dict_item db_form_data "password" with
  | CfgRaise e => (CfgRaise e, databases, db_pool)
  | CfgOk password =>
      let db_config' :=
        dict_update db_config
          [("host", host); ("port", port); ("username", username);
           ("password", password)] in
      let databases' :=
        match dict_get databases db_name with
        | Some _ => dict_set databases db_name db_config'
        | None => databases
        end in
      match create_connection_pool db_config' 1 10 db_pool with
      | (CfgRaise e, pool') => (CfgRaise e, databases', pool')
      | (CfgOk _, pool') => (CfgOk (db_name, db_config'), databases', pool')
      end
  end end end end.

End Configuration.

(** The world with another value of the global [db_pool]. *)
Definition with_pool (w : World) (p : option Pool) : World :=
  mkWorld (assistant w) p (all_chunks w) (trace w).

(** A form or a configuration that has a value for each of [keys]. *)
Definition has_keys (d : dict string) (keys : list string) : Prop :=
  Forall (fun k => dict_get d k <> None) keys.

(** A connector for the examples: the server on [db.local] answers,
    any other host cannot be reached. *)
Definition Sample_connect : connector :=
  fun minconn maxconn dbname user password host port =>
    if String.eqb host "db.local" then Ok Demo.pool1
    else Raise (mkExn OperationalError "could not connect to server").

Definition Sample_form (host : string) : dict string :=
  [("name", "shop"); ("host", host); ("port", "5432");
   ("username", "ada"); ("password", "secret")].

(* ===================================================================== *)
(** ** [ui.py]: the callbacks that drive the assistant *)
(* ===================================================================== *)

(** What a callback can raise besides the exceptions of the pipeline. *)
Inductive ui_exn : Type :=
  | UiKeyError (key : string)
  | UiAttributeError (attribute : string)
  | UiTypeError (operation : string)
  | UiException (e : exn).

(** A call of [st.error]: with a text, or with a prefix followed by an
    exception rendered in an f-string. *)
Inductive shown_error : Type :=
  | ErrorText (text : string)
  | ErrorOf (prefix : string) (e : ui_exn).

(** How a callback ends: it returns, an exception leaves it, or
    [st.experimental_rerun()] stops the script run. *)
Inductive ui_outcome : Type :=
  | UiDone
  | UiRaised (e : ui_exn)
  | UiRerun.

(** A chat transcript: [(message, is_user)] pairs, each message as
    [message] displays it ([str] of the stored object). *)
Definition transcript : Type := list (string * bool).

(** The entries of [st.session_state] that the callbacks read or write.
    [has_assistant] is false when [session_state["assistant"]] is [None];
    the two spinner fields tell whether the placeholder was stored by
    [display_messages] / [display_db_messages]; [shown] collects the
    calls of [st.error]. *)
Record Session : Type := mkSession {
  has_assistant : bool;
  messages : transcript;
  db_messages : list (option string * transcript);
  selected_db : option string;
  show_chat : bool;
  show_db_chat : bool;
  user_input : string;
  db_user_input : string;
  db_tables : list cell;
  selected_tables : list cell;
  select_all_tables : bool;
  rag_responses : list string;
  thinking_spinner : bool;
  db_thinking_spinner : bool;
  shown : list shown_error
}.

Definition key_eqb (a b : option string) : bool :=
  match a, b with
  | None, None => true
  | Some x, Some y => String.eqb x y
  | _, _ => false
  end.

(** [db_messages.get(db_name)] *)
Fixpoint transcript_of (d : list (option string * transcript))
         (db_name : option string) : option transcript :=
  match d with
  | [] => None
  | (k, t) :: rest =>
      if key_eqb k db_name then Some t else transcript_of rest db_name
  end.

(** [db_messages[db_name].extend(new)] on an existing key. *)
Fixpoint transcript_extend (d : list (option string * transcript))
         (db_name : option string) (new : transcript)
  : list (option string * transcript) :=
  match d with
  | [] => []
  | (k, t) :: rest =>
      if key_eqb k db_name then (k, (t ++ new)%list) :: rest
      else (k, t) :: transcript_extend rest db_name new
  end.

(** [if db_name not in db_messages: db_messages[db_name] = []], then the
    two [append]s. *)
Definition record_exchange (d : list (option string * transcript))
           (db_name : option string) (question reply : string)
  : list (option string * transcript) :=
  let d' := match transcript_of d db_name with
            | Some _ => d
            | None => (d ++ [(db_name, [])])%list
            end in
  transcript_extend d' db_name [(question, true); (reply, false)].

Definition is_text (c : cell) : bool :=
  match c with SqlText _ => true | _ => false end.

(** [str(v)] of what a method returned. *)
Definition py_format (v : pyval) : string :=
  match v with
  | PStr s => s
  | PNone => "None"
  | PObj repr => repr
  end.

(** Python truth of a returned message. *)
Definition truthy (r : option string) : bool :=
  match r with
  | Some s => negb (PyStr.is_empty s)
  | None => false
  end.

Definition show_error (s : Session) (err : shown_error) : Session :=
  mkSession (has_assistant s) (messages s) (db_messages s) (selected_db s)
            (show_chat s) (show_db_chat s) (user_input s) (db_user_input s)
            (db_tables s) (selected_tables s) (select_all_tables s)
            (rag_responses s) (thinking_spinner s) (db_thinking_spinner s)
            (shown s ++ [err])%list.

Section Ui.
Variable E : Env.

(** The body of the [with] block of [process_db_input]: the reply and
    whether it was shown with [st.error], or the exception raised. *)
Definition db_exchange (tables : list string) (question : string) (w : World)
  : (string * bool + ui_exn) * World :=
  match ingest_database E tables w with
  | (Raise e, w1) => (inr (UiException e), w1)
  | (Ok ingestion_response, w1) =>
      if truthy ingestion_response then
        (inl (match ingestion_response with
              | Some m => m
              | None => EmptyString
              end, true), w1)
      else
        match ask E question w1 with
        | (Raise e, w2) => (inr (UiException e), w2)
        | (Ok agent_response, w2) =>
            match generate_insights E tables question w2 with
            | (Raise e, w3) => (inr (UiException e), w3)
            | (Ok insights, w3) =>
                match agent_response with
                | PStr answer =>
                    (inl (answer ++ PyStr.nl ++ PyStr.nl ++ "Insights: "
                          ++ py_format insights, false), w3)
                | _ => (inr (UiTypeError "+="), w3)
                end
            end
        end
  end.

(** [process_db_input()].  The selected tables are the objects that
    [get_table_names] returned; the methods only interpolate them in
    f-strings, which renders [str] of each.  [", ".join(selected_tables)]
    is outside the [try] and raises [TypeError] on an element that is
    not a string.  [st.spinner] and the placeholder do nothing on entry
    and exit. *)
Definition process_db_input (s : Session) (w : World)
  : ui_outcome * Session * World :=
  let question := PyStr.strip (db_user_input s) in
  if PyStr.is_empty question then (UiDone, s, w)
  else
    if negb (forallb is_text (selected_tables s))
    then (UiRaised (UiTypeError "join"), s, w)
    else
      let failed (e : ui_exn) (w' : World) :=
        (UiDone,
         show_error s (ErrorOf "Error processing database input: " e), w') in
      if negb (db_thinking_spinner s)
      then failed (UiKeyError "db_thinking_spinner") w
      else if negb (has_assistant s)
      then failed (UiAttributeError "ingest_database") w
      else
        match db_exchange (map py_str (selected_tables s)) question w with
        | (inr e, w') => failed e w'
        | (inl (reply, is_error), w') =>
            (UiDone,
             mkSession (has_assistant s) (messages s)
                       (record_exchange (db_messages s) (selected_db s)
                                        question reply)
                       (selected_db s) (show_chat s) (show_db_chat s)
                       (user_input s) EmptyString
                       (db_tables s) (selected_tables s) (select_all_tables s)
                       (rag_responses s ++ [reply])
                       (thinking_spinner s) (db_thinking_spinner s)
                       (if is_error then (shown s ++ [ErrorText reply])%list
                        else shown s),
             w')
        end.

(** [process_input()] *)
Definition process_input (s : Session) (w : World)
  : ui_outcome * Session * World :=
  let question := PyStr.strip (user_input s) in
  if PyStr.is_empty question then (UiDone, s, w)
  else
    let failed (e : ui_exn) (w' : World) :=
      (UiDone, show_error s (ErrorOf "Error processing input: " e), w') in
    if negb (thinking_spinner s)
    then failed (UiKeyError "thinking_spinner") w
    else if negb (has_assistant s)
    then failed (UiAttributeError "ask") w
    else
      match ask E question w with
      | (Raise e, w') => failed (UiException e) w'
      | (Ok agent_response, w') =>
          (UiDone,
           mkSession (has_assistant s)
                     (messages s ++ [(question, true);
                                     (py_format agent_response, false)])%list
                     (db_messages s) (selected_db s) (show_chat s)
                     (show_db_chat s) EmptyString (db_user_input s)
                     (db_tables s) (selected_tables s) (select_all_tables s)
                     (rag_responses s) (thinking_spinner s)
                     (db_thinking_spinner s) (shown s),
           w')
      end.

(** [handle_user_input()] *)
Definition handle_user_input (s : Session) (w : World)
  : ui_outcome * Session * World :=
  if show_chat s then process_input s w
  else if show_db_chat s then process_db_input s w
  else (UiDone, s, w).

(** [reconnect_database(db)]: it ends with [st.experimental_rerun()]. *)
Definition reconnect_database (db : string) (s : Session) (w : World)
  : ui_outcome * Session * World :=
  let s1 tables selected all errs :=
    mkSession (has_assistant s) (messages s) (db_messages s) (Some db)
              false true (user_input s) (db_user_input s)
              tables selected all
              (rag_responses s) (thinking_spinner s) (db_thinking_spinner s)
              errs in
  match get_table_names E w with
  | (Ok [], w') =>
      (UiRerun,
       s1 (db_tables s) (selected_tables s) (select_all_tables s)
          (shown s ++ [ErrorText "Failed to retrieve tables from the database."])%list,
       w')
  | (Ok tables, w') => (UiRerun, s1 tables [] false (shown s), w')
  | (Raise e, w') =>
      (UiRerun,
       s1 (db_tables s) (selected_tables s) (select_all_tables s)
          (shown s ++ [ErrorOf "Error reconnecting to the database: "
                               (UiException e)])%list,
       w')
  end.

End Ui.

(** The statements [fetch_table_data(table)] sends when a connection is
    available: the column statement, and the row statement unless the
    column statement ended with an exception or a column row could not
    be rendered. *)
Definition table_statements (E : Env) (table : string) : list string :=
  let g := run_script (sql E (metadata_query table) None) in
  match raised g with
  | Some _ => [metadata_query table]
  | None =>
      match yielded g with
      | [] => [metadata_query table; data_query table]
      | _ =>
          match map_result column_line (concat (yielded g)) with
          | Ok _ => [metadata_query table; data_query table]
          | Raise _ => [metadata_query table]
          end
      end
  end.

(** On a pool that hands out [c], the computation sends the statements
    [sts], in that order, and changes the world only by appending chunks
    and calls. *)
Definition sends {A : Type} (c : conn) (m : M A) (sts : list string) : Prop :=
  forall w, pool_ready w c ->
    exists r ds evs,
      m w = (r, grow w ds evs) /\ statements evs = sts.

(* ===================================================================== *)
(** * Properties *)
(* ===================================================================== *)

(** ** Strings *)

Module PyStrFacts.
Import PyStr.

Lemma startswith_spec (p s : string) :
  startswith p s = true <-> exists r, s = p ++ r.
Proof.
  revert s; induction p as [|a p IH]; intros s; simpl.
  - split; [intros _; now exists s | reflexivity].
  - destruct s as [|b s].
    + split; [discriminate | intros [r Hr]; discriminate].
    + rewrite andb_true_iff, Ascii.eqb_eq, IH. split.
      * intros [-> [r ->]]. now exists r.
      * intros [r Hr]. injection Hr as -> ->. split; [reflexivity | now exists r].
Qed.

Lemma contains_spec (sub s : string) :
  contains sub s = true <-> exists pre post, s = pre ++ sub ++ post.
Proof.
  induction s as [|c s IH].
  - simpl. rewrite orb_false_r, startswith_spec. split.
    + intros [r Hr]. now exists EmptyString, r.
    + intros [pre [post H]]. destruct pre; simpl in H.
      * now exists post.
      * discriminate.
  - cbn [contains]. rewrite orb_true_iff, startswith_spec, IH. split.
    + intros [[r Hr] | [pre [post H]]].
      * now exists EmptyString, r.
      * exists (String c pre), post. simpl. now rewrite H.
    + intros [pre [post H]]. destruct pre as [|c' pre]; simpl in H.
      * left. now exists post.
      * right. injection H as _ H. now exists pre, post.
Qed.

Lemma split_lines_nonempty (s : string) : split_lines s <> [].
Proof.
  destruct s as [|c r]; simpl; [discriminate|].
  destruct (Ascii.eqb c LF); [discriminate|].
  destruct (split_lines r); discriminate.
Qed.

(** The first element of [s.split("\n")] is the part of [s] before its
    first line feed. *)
Lemma first_line_spec (s : string) :
  exists rest,
    s = first (split_lines s) ++ rest /\
    no_newline (first (split_lines s)) /\
    (rest = EmptyString \/ exists r, rest = String LF r).
Proof.
  induction s as [|c s IH].
  - exists EmptyString. simpl. auto.
  - simpl. destruct (Ascii.eqb c LF) eqn:Hc.
    + apply Ascii.eqb_eq in Hc. subst c. exists (String LF s). simpl.
      repeat split; eauto.
    + destruct IH as [rest [Hs [Hn Hr]]].
      destruct (split_lines s) as [|h t] eqn:Hsp.
      * now apply split_lines_nonempty in Hsp.
      * exists rest. unfold first in *. simpl in *. repeat split.
        -- now rewrite <- Hs.
        -- intros ->. now rewrite Ascii.eqb_refl in Hc.
        -- exact Hn.
        -- exact Hr.
Qed.

Lemma lstrip_spec (s : string) :
  exists a, s = a ++ lstrip s /\ all_space a /\ starts_space (lstrip s) = false.
Proof.
  induction s as [|c s [a [Hs [Ha Hl]]]].
  - exists EmptyString. simpl. auto.
  - simpl. destruct (is_space c) eqn:Hc.
    + exists (String c a). simpl. rewrite <- Hs. auto.
    + exists EmptyString. simpl. auto.
Qed.

Lemma rstrip_empty_all_space (s : string) :
  is_empty (rstrip s) = true -> all_space s.
Proof.
  induction s as [|c s IH]; simpl; [auto|].
  destruct (is_space c) eqn:Hc; simpl.
  - destruct (is_empty (rstrip s)) eqn:He; [auto | discriminate].
  - discriminate.
Qed.

Lemma rstrip_spec (s : string) :
  exists b, s = rstrip s ++ b /\ all_space b /\ ends_space (rstrip s) = false.
Proof.
  induction s as [|c s [b [Hs [Hb He]]]].
  - exists EmptyString. simpl. auto.
  - simpl. destruct (is_space c && is_empty (rstrip s)) eqn:Hc.
    + apply andb_true_iff in Hc as [Hc Hr]. exists (String c s). simpl.
      repeat split; auto. now apply rstrip_empty_all_space.
    + exists b. simpl. rewrite <- Hs. repeat split; auto.
      destruct (rstrip s) as [|d r] eqn:Hr; [|exact He].
      simpl in Hc. now rewrite andb_true_r in Hc.
Qed.

Lemma rstrip_starts_space (s : string) :
  starts_space s = false -> starts_space (rstrip s) = false.
Proof.
  destruct s as [|c s]; simpl; [auto|]. intros Hc. rewrite Hc. simpl. exact Hc.
Qed.

(** [s.strip()] removes a run of whitespace at each end, and what stays
    neither begins nor ends with whitespace. *)
Lemma strip_spec (s : string) :
  exists a b, s = a ++ strip s ++ b /\ all_space a /\ all_space b /\
              starts_space (strip s) = false /\ ends_space (strip s) = false.
Proof.
  destruct (lstrip_spec s) as [a [Hs [Ha Hl]]].
  destruct (rstrip_spec (lstrip s)) as [b [Hr [Hb He]]].
  exists a, b. unfold strip. rewrite <- Hr. repeat split; auto.
  now apply rstrip_starts_space.
Qed.

End PyStrFacts.

(** ** The query layer *)

Lemma world_eta (w : World) :
  mkWorld (assistant w) (db_pool w) (all_chunks w) (trace w) = w.
Proof. now destruct w. Qed.

Lemma fetch_loop_run (c : conn) (bs : option nat) (fs : list fetch_result)
      (w : World) :
  fetch_loop c bs fs w = (Ok (drain fs), add_trace w (fetch_trace c bs fs)).
Proof.
  revert w; induction fs as [|f fs IH]; intros w.
  - reflexivity.
  - destruct f as [[|r rows]|e]; try reflexivity.
    cbn [fetch_loop fetch_trace drain]. unfold bind at 1. cbn [record].
    unfold bind at 1. rewrite IH. cbn [ret]. f_equal.
    unfold add_trace; simpl. now rewrite <- app_assoc.
Qed.

Lemma drain_nonempty (fs : list fetch_result) :
  Forall (fun b => b <> []) (yielded (drain fs)).
Proof.
  induction fs as [|f fs IH]; simpl; [constructor|].
  destruct f as [[|r rows]|e]; simpl; try constructor; [discriminate | exact IH].
Qed.

Lemma except_operational_yielded (g : gen_result) :
  yielded (except_operational g) = yielded g.
Proof.
  unfold except_operational. destruct (raised g) as [e|]; [|reflexivity].
  now destruct (is_operational e).
Qed.

Lemma except_operational_raised (g : gen_result) (e : exn) :
  raised (except_operational g) = Some e ->
  raised g = Some e /\ is_operational e = false.
Proof.
  unfold except_operational. destruct (raised g) as [e'|] eqn:Hr.
  - destruct (is_operational e') eqn:Ho; simpl.
    + discriminate.
    + rewrite Hr. intros [= ->]. auto.
  - rewrite Hr. discriminate.
Qed.

Lemma run_script_nonempty (s : script) :
  Forall (fun b => b <> []) (yielded (run_script s)).
Proof.
  unfold run_script. rewrite except_operational_yielded.
  destruct (on_execute s); [constructor | apply drain_nonempty].
Qed.

(** With a connection at hand the generator is [run_script] of the
    cursor's behaviour, the pool ends as it began, and the history grows
    by [query_trace]. *)
Lemma execute_query_ready (E : Env) (q : string) (ps : option (list cell))
      (bs : option nat) (w : World) (c : conn) :
  pool_ready w c ->
  execute_query E q ps bs w
  = (Ok (run_script (sql E q bs)), add_trace w (query_trace E c q bs)).
Proof.
  intros [p [rest [Hp Hi]]].
  destruct w as [a pool ch tr]. simpl in Hp. subst pool.
  destruct p as [idl lnt emp]. simpl in Hi. subst idl.
  unfold execute_query, get_connection, bind, get_world, getconn. simpl.
  unfold run_script, query_trace, try_finally, bind.
  destruct (on_execute (sql E q bs)) as [e|] eqn:He; simpl.
  - unfold release_connection, bind, get_world, putconn; simpl.
    rewrite Nat.eqb_refl. unfold add_trace; simpl.
    now rewrite <- !app_assoc.
  - rewrite fetch_loop_run. simpl.
    unfold release_connection, bind, get_world, putconn; simpl.
    rewrite Nat.eqb_refl. unfold add_trace; simpl.
    now rewrite <- !app_assoc.
Qed.

Lemma execute_query_no_pool (E : Env) (q : string) (ps : option (list cell))
      (bs : option nat) (w : World) :
  db_pool w = None -> execute_query E q ps bs w = (Ok (mkGen [] None), w).
Proof.
  intros Hp. unfold execute_query, get_connection, bind, get_world.
  now rewrite Hp.
Qed.

Lemma execute_query_no_conn (E : Env) (q : string) (ps : option (list cell))
      (bs : option nat) (w : World) (p : Pool) :
  db_pool w = Some p -> idle p = [] ->
  execute_query E q ps bs w
  = (Ok (mkGen [] (if is_operational (on_empty p) then None
                   else Some (on_empty p))), w).
Proof.
  intros Hp Hi. unfold execute_query, get_connection, bind, get_world, getconn.
  rewrite Hp, Hi. now destruct (is_operational (on_empty p)).
Qed.

Lemma fetch_trace_only_fetchmany (c : conn) (bs : option nat)
      (fs : list fetch_result) :
  Forall (fun ev => ev = EvFetchmany c bs) (fetch_trace c bs fs).
Proof.
  induction fs as [|f fs IH]; simpl.
  - repeat constructor.
  - destruct f as [[|r rows]|e]; repeat constructor. exact IH.
Qed.

(** C10, amended.  Run to its end, the generator of [execute_query]
    yields only batches that have rows (never [None], never an empty
    list), and it leaves the assistant and the state of the pool as they
    were.  Without a pool, or when [getconn] fails with an
    [OperationalError], it yields nothing, raises nothing and touches
    nothing; another exception of [getconn] is raised to the caller.
    With a connection, the generator is [run_script] of the cursor's
    behaviour, and the cursor is closed and the connection put back after
    the last fetch, whatever happened; an [OperationalError] is absorbed
    (if [execute] raised it, no batch at all reaches the caller), and an
    exception that ends the generator is of another class: such an
    exception does reach the caller, after the cleanup. *)
Theorem execute_query_outcome (E : Env) (q : string)
        (ps : option (list cell)) (bs : option nat) (w : World) :
  exists g w',
    execute_query E q ps bs w = (Ok g, w') /\
    Forall (fun b => b <> []) (yielded g) /\
    (forall e, raised g = Some e -> is_operational e = false) /\
    assistant w' = assistant w /\ all_chunks w' = all_chunks w /\
    db_pool w' = db_pool w /\
    ((db_pool w = None \/
      exists p, db_pool w = Some p /\ idle p = [] /\
                is_operational (on_empty p) = true) ->
     g = mkGen [] None /\ w' = w) /\
    (forall p, db_pool w = Some p -> idle p = [] ->
               is_operational (on_empty p) = false ->
               g = mkGen [] (Some (on_empty p)) /\ w' = w) /\
    (forall c, pool_ready w c ->
       g = run_script (sql E q bs) /\
       (exists fetched,
          Forall (fun ev => ev = EvFetchmany c bs) fetched /\
          trace w' = (trace w ++ [EvGetconn c; EvCursor c; EvExecute c q]
                              ++ fetched ++ [EvClose c; EvPutconn c])%list) /\
       (forall e, on_execute (sql E q bs) = Some e ->
          g = mkGen [] (if is_operational e then None else Some e))).
Proof.
  destruct (db_pool w) as [p|] eqn:Hp.
  - destruct (idle p) as [|c rest] eqn:Hi.
    + rewrite (execute_query_no_conn E q ps bs w p Hp Hi).
      do 2 eexists. split; [reflexivity|]. simpl.
      repeat apply conj; auto.
      * destruct (is_operational (on_empty p)) eqn:Ho; [discriminate|].
        now intros e [= <-].
      * intros [H|[p' [Hp' [_ Ho]]]]; [discriminate|].
        injection Hp' as <-. rewrite Ho. auto.
      * intros p' [= <-] _ Ho. rewrite Ho. auto.
      * intros c [p' [r' [Hp' Hi']]]. rewrite Hp in Hp'.
        injection Hp' as <-. congruence.
    + assert (Hr : pool_ready w c) by (exists p, rest; rewrite Hp; auto).
      rewrite (execute_query_ready E q ps bs w c Hr).
      do 2 eexists. split; [reflexivity|].
      split; [apply run_script_nonempty|].
      split; [intros e He; now apply except_operational_raised in He|].
      simpl. repeat apply conj; auto.
      * intros [H|[p' [Hp' [Hi' _]]]]; [discriminate|].
        injection Hp' as <-. congruence.
      * intros p' [= <-] Hi'. congruence.
      * intros c' [p' [r' [Hp' Hi']]]. rewrite Hp in Hp'. injection Hp' as <-.
        rewrite Hi in Hi'. injection Hi' as <- <-. repeat apply conj.
        -- reflexivity.
        -- unfold query_trace. destruct (on_execute (sql E q bs)).
           ++ exists []. split; [constructor | reflexivity].
           ++ eexists. split; [apply fetch_trace_only_fetchmany | reflexivity].
        -- intros e He. unfold run_script, except_operational. rewrite He.
           simpl. now destruct (is_operational e).
  - rewrite (execute_query_no_pool E q ps bs w Hp).
    do 2 eexists. split; [reflexivity|]. simpl.
    repeat apply conj; auto; try discriminate.
    intros c [p' [r' [Hp' _]]]. congruence.
Qed.

(** C10 as stated fails: PostgreSQL rejects the relationship statement
    with a [ProgrammingError], [execute_query] does not catch it, and
    [list(execute_query(...))] raises it to the caller, after the cursor
    was closed and the connection put back. *)
Lemma execute_query_raises_programming_error :
  let E := Demo.env Demo.pg_sql true in
  let run := (g <- execute_query E relationship_query None None ;; py_list g)%monad in
  fst (run Demo.connected) = Raise Demo.undefined_column /\
  exn_cls Demo.undefined_column = ProgrammingError /\
  trace (snd (run Demo.connected))
  = [EvGetconn 7; EvCursor 7; EvExecute 7 relationship_query;
     EvClose 7; EvPutconn 7] /\
  db_pool (snd (run Demo.connected)) = Some Demo.pool1.
Proof. vm_compute. repeat split. Qed.

(** ** Calls made by a computation *)

Section Emits.
Variable P : event -> Prop.

Ltac emits_nil w := exists []; simpl; rewrite app_nil_r; split; [reflexivity | constructor].

Lemma emits_ret {A} (a : A) : emits P (ret a).
Proof. intros w. emits_nil w. Qed.

Lemma emits_raise {A} (e : exn) : emits P (@raise A e).
Proof. intros w. emits_nil w. Qed.

Lemma emits_lift {A} (r : result A) : emits P (lift_result r).
Proof. intros w. emits_nil w. Qed.

Lemma emits_get_world : emits P get_world.
Proof. intros w. emits_nil w. Qed.

Lemma emits_set_pool (p : option Pool) : emits P (set_pool p).
Proof. intros w. emits_nil w. Qed.

Lemma emits_set_all_chunks (l : list Document) : emits P (set_all_chunks l).
Proof. intros w. emits_nil w. Qed.

Lemma emits_append_chunk (d : Document) : emits P (append_chunk d).
Proof. intros w. emits_nil w. Qed.

Lemma emits_set_self (c : Chat) : emits P (set_self c).
Proof. intros w. emits_nil w. Qed.

Lemma emits_record (ev : event) : P ev -> emits P (record ev).
Proof. intros H w. exists [ev]. simpl. auto. Qed.

Lemma emits_bind {A B} (m : M A) (f : A -> M B) :
  emits P m -> (forall a, emits P (f a)) -> emits P (bind m f).
Proof.
  intros Hm Hf w. unfold bind. destruct (Hm w) as [e1 [H1 F1]].
  destruct (m w) as [[a|e] w1]; simpl in H1.
  - destruct (Hf a w1) as [e2 [H2 F2]]. exists (e1 ++ e2)%list.
    rewrite H2, H1, app_assoc. split; [reflexivity | now apply Forall_app].
  - exists e1. simpl. auto.
Qed.

Lemma emits_try_except {A} (body : M A) (handler : exn -> M A) :
  emits P body -> (forall e, emits P (handler e)) ->
  emits P (try_except body handler).
Proof.
  intros Hm Hf w. unfold try_except. destruct (Hm w) as [e1 [H1 F1]].
  destruct (body w) as [[a|e] w1]; simpl in H1.
  - exists e1. simpl. auto.
  - destruct (Hf e w1) as [e2 [H2 F2]]. exists (e1 ++ e2)%list.
    rewrite H2, H1, app_assoc. split; [reflexivity | now apply Forall_app].
Qed.

Lemma emits_for_each {A} (xs : list A) (body : A -> M unit) :
  (forall x, emits P (body x)) -> emits P (for_each xs body).
Proof.
  intros Hb. induction xs as [|x xs IH]; simpl.
  - apply emits_ret.
  - apply emits_bind; [apply Hb | intros _; exact IH].
Qed.

Lemma emits_gather (tasks : list (M unit)) :
  Forall (emits P) tasks -> emits P (gather tasks).
Proof.
  induction 1 as [|t ts Ht _ IH]; simpl.
  - apply emits_ret.
  - intros w. destruct (Ht w) as [e1 [H1 F1]].
    destruct (t w) as [r w1]; simpl in H1.
    destruct (IH w1) as [e2 [H2 F2]].
    destruct (gather ts w1) as [rs w2]; simpl in H2.
    exists (e1 ++ e2)%list. simpl.
    rewrite H2, H1, app_assoc. split; [reflexivity | now apply Forall_app].
Qed.

Lemma emits_py_list (g : gen_result) : emits P (py_list g).
Proof.
  unfold py_list. destruct (raised g); [apply emits_raise | apply emits_ret].
Qed.

Lemma emits_for_gen (g : gen_result) (body : batch -> M unit) :
  (forall b, emits P (body b)) -> emits P (for_gen g body).
Proof.
  intros Hb. unfold for_gen. apply emits_bind.
  - now apply emits_for_each.
  - intros _. destruct (raised g); [apply emits_raise | apply emits_ret].
Qed.

Lemma emits_execute_query (E : Env) (q : string) (ps : option (list cell))
      (bs : option nat) :
  (forall c, Forall P (query_trace E c q bs)) ->
  emits P (execute_query E q ps bs).
Proof.
  intros HP w. destruct (db_pool w) as [p|] eqn:Hp.
  - destruct (idle p) as [|c rest] eqn:Hi.
    + rewrite (execute_query_no_conn E q ps bs w p Hp Hi). emits_nil w.
    + assert (Hr : pool_ready w c) by (exists p, rest; auto).
      rewrite (execute_query_ready E q ps bs w c Hr).
      exists (query_trace E c q bs). simpl. auto.
  - rewrite (execute_query_no_pool E q ps bs w Hp). emits_nil w.
Qed.

End Emits.

(** ** The coroutines of [ingest_database] *)

Lemma grow_grow (w : World) (d1 d2 : list Document) (e1 e2 : list event) :
  grow (grow w d1 e1) d2 e2 = grow w (d1 ++ d2) (e1 ++ e2).
Proof. unfold grow; simpl. now rewrite !app_assoc. Qed.

Lemma grow_nil (w : World) : grow w [] [] = w.
Proof. unfold grow. rewrite !app_nil_r. apply world_eta. Qed.

Lemma add_trace_grow (w : World) (evs : list event) :
  add_trace w evs = grow w [] evs.
Proof. unfold add_trace, grow. now rewrite app_nil_r. Qed.

Lemma pool_ready_grow (w : World) (ds : list Document) (evs : list event)
      (c : conn) :
  pool_ready w c -> pool_ready (grow w ds evs) c.
Proof. intros H. exact H. Qed.

Lemma query_trace_db (E : Env) (c : conn) (q : string) (bs : option nat) :
  Forall db_event (query_trace E c q bs).
Proof.
  unfold query_trace. repeat (apply Forall_cons; [exact I|]).
  apply Forall_app. split.
  - destruct (on_execute (sql E q bs)); [constructor|].
    eapply Forall_impl; [|apply fetch_trace_only_fetchmany].
    intros ev ->. exact I.
  - repeat constructor.
Qed.

Lemma execute_query_grow (E : Env) (q : string) (ps : option (list cell))
      (bs : option nat) (w : World) (c : conn) :
  pool_ready w c ->
  execute_query E q ps bs w
  = (Ok (run_script (sql E q bs)), grow w [] (query_trace E c q bs)).
Proof.
  intros H. rewrite (execute_query_ready E q ps bs w c H).
  now rewrite add_trace_grow.
Qed.

Lemma append_chunk_grow (d : Document) (w : World) :
  append_chunk d w = (Ok tt, grow w [d] []).
Proof. unfold append_chunk, grow. now rewrite app_nil_r. Qed.

Lemma append_rows (table : string) (rows : batch) (w : World) :
  for_each rows (fun r => append_chunk (row_chunk table r)) w
  = (Ok tt, grow w (map (row_chunk table) rows) []).
Proof.
  revert w; induction rows as [|r rows IH]; intros w; simpl.
  - unfold ret. now rewrite grow_nil.
  - unfold bind at 1. cbn [append_chunk]. rewrite IH. f_equal.
    unfold grow; simpl. now rewrite <- app_assoc.
Qed.

Lemma append_batches (table : string) (bs : list batch) (w : World) :
  for_each bs (fun b => for_each b (fun r => append_chunk (row_chunk table r))) w
  = (Ok tt, grow w (map (row_chunk table) (concat bs)) []).
Proof.
  revert w; induction bs as [|b bs IH]; intros w; simpl.
  - unfold ret. now rewrite grow_nil.
  - unfold bind at 1. rewrite append_rows, IH, grow_grow, map_app. reflexivity.
Qed.

(** On a ready pool, [fetch_table_data] does what [table_task] says and
    talks to the database only. *)
Lemma fetch_table_data_ready (E : Env) (table : string) (w : World) (c : conn) :
  pool_ready w c ->
  exists evs,
    Forall db_event evs /\
    fetch_table_data E table w
    = (task_outcome (table_task E table),
       grow w (task_chunks (table_task E table)) evs).
Proof.
  intros Hr. unfold fetch_table_data, table_task.
  pose proof (query_trace_db E c (metadata_query table) None) as D1.
  pose proof (query_trace_db E c (data_query table) (Some 1000)) as D2.
  remember (query_trace E c (metadata_query table) None) as q1.
  remember (query_trace E c (data_query table) (Some 1000)) as q2.
  unfold bind at 1. rewrite (execute_query_grow E _ None None w c Hr).
  rewrite <- Heqq1. unfold bind at 1, py_list.
  destruct (raised (run_script (sql E (metadata_query table) None))) as [e|].
  { exists q1. split; [exact D1 | reflexivity]. }
  cbn [ret]. unfold bind at 1.
  destruct (yielded (run_script (sql E (metadata_query table) None)))
    as [|b0 bs0].
  - cbn [ret]. unfold bind at 1.
    rewrite (execute_query_grow E _ None (Some 1000) _ c
               (pool_ready_grow w [] q1 c Hr)).
    rewrite <- Heqq2. unfold for_gen, bind at 1. rewrite append_batches.
    rewrite !grow_grow. eexists. split; cycle 1.
    + unfold task_outcome. cbn [task_error task_chunks app].
      destruct (raised (run_script (sql E (data_query table) (Some 1000))));
        reflexivity.
    + repeat (apply Forall_app; split); auto.
  - unfold bind at 1, lift_result.
    destruct (map_result column_line (concat (b0 :: bs0))) as [lines|e].
    + rewrite append_chunk_grow. unfold bind at 1. rewrite grow_grow.
      rewrite (execute_query_grow E _ None (Some 1000) _ c
                 (pool_ready_grow w _ _ c Hr)).
      rewrite <- Heqq2. unfold for_gen, bind at 1. rewrite append_batches.
      rewrite !grow_grow. eexists. split; cycle 1.
      * unfold task_outcome. cbn [task_error task_chunks app].
        destruct (raised (run_script (sql E (data_query table) (Some 1000))));
          reflexivity.
      * repeat (apply Forall_app; split); auto.
    + exists q1. split; [exact D1 | reflexivity].
Qed.

Lemma fetch_table_data_runs (E : Env) (c : conn) (table : string) :
  runs_as c (fetch_table_data E table) (table_task E table).
Proof. intros w Hr. exact (fetch_table_data_ready E table w c Hr). Qed.

Lemma fetch_relationships_runs (E : Env) (c : conn) :
  runs_as c (fetch_relationships E) (relationship_task E).
Proof.
  intros w Hr. unfold fetch_relationships, relationship_task.
  pose proof (query_trace_db E c relationship_query None) as D.
  remember (query_trace E c relationship_query None) as q.
  unfold bind at 1. rewrite (execute_query_grow E _ None None w c Hr).
  rewrite <- Heqq. unfold bind at 1, py_list.
  destruct (raised (run_script (sql E relationship_query None))) as [e|].
  { exists q. split; [exact D | reflexivity]. }
  cbn [ret].
  destruct (yielded (run_script (sql E relationship_query None))) as [|b0 bs0].
  { exists q. split; [exact D | reflexivity]. }
  unfold bind at 1, lift_result.
  destruct (map_result relationship_line (concat (b0 :: bs0))) as [lines|e].
  - rewrite append_chunk_grow, grow_grow. eexists. split; cycle 1.
    + reflexivity.
    + rewrite app_nil_r. exact D.
  - exists q. split; [exact D | reflexivity].
Qed.

(** [gather] runs every task, keeps all their chunks, and raises the
    exception of the first task that failed. *)
Lemma gather_runs (c : conn) (ms : list (M unit)) (ts : list task_result) :
  Forall2 (runs_as c) ms ts ->
  forall w, pool_ready w c ->
    exists evs,
      Forall db_event evs /\
      gather ms w = (outcome_of (first_error ts),
                     grow w (gathered_chunks ts) evs).
Proof.
  induction 1 as [|m t ms ts Hm _ IH]; intros w Hr.
  - exists []. split; [constructor|]. simpl. unfold ret. now rewrite grow_nil.
  - destruct (Hm w Hr) as [e1 [D1 H1]].
    destruct (IH (grow w (task_chunks t) e1) (pool_ready_grow _ _ _ _ Hr))
      as [e2 [D2 H2]].
    exists (e1 ++ e2)%list. split; [now apply Forall_app|].
    cbn [gather]. rewrite H1, H2, grow_grow.
    unfold gathered_chunks, task_outcome. cbn [flat_map first_error].
    now destruct (task_error t).
Qed.

Lemma ingestion_tasks_run (E : Env) (c : conn) (tables : list string) :
  Forall2 (runs_as c)
          (map (fetch_table_data E) tables ++ [fetch_relationships E])%list
          (ingestion_tasks E tables).
Proof.
  unfold ingestion_tasks. apply Forall2_app.
  - induction tables as [|t ts IH]; simpl; constructor.
    + apply fetch_table_data_runs.
    + exact IH.
  - constructor; [apply fetch_relationships_runs | constructor].
Qed.

(** ** Ingestion *)

Lemma initialize_vector_store_run (E : Env) (chunks : list Document)
      (w : World) :
  _initialize_vector_store E chunks w
  = (Ok match from_documents E chunks with
        | Some e => Some ("Error initializing vector store: " ++ exn_msg e)
        | None => None
        end,
     mkWorld (rebuilt E (assistant w) chunks) (db_pool w) (all_chunks w)
             (trace w ++ [EvFromDocuments chunks])).
Proof.
  unfold _initialize_vector_store, try_except, bind, rebuilt. simpl.
  now destruct (from_documents E chunks).
Qed.

(** [ingest_database] on a ready pool: either a task failed, and the
    message of the first failure is returned with [self] untouched and
    nothing indexed; or none did, and all chunks become the fallback
    context and are handed to [_initialize_vector_store], whose own
    outcome is not returned. *)
Lemma ingest_database_ready (E : Env) (tables : list string) (w : World)
      (c : conn) :
  pool_ready w c ->
  exists evs,
    Forall db_event evs /\
    ingest_database E tables w
    = let batch := gathered_chunks (ingestion_tasks E tables) in
      match first_error (ingestion_tasks E tables) with
      | Some e =>
          (Ok (Some ("Error during database ingestion: " ++ exn_msg e)),
           mkWorld (assistant w) (db_pool w) batch (trace w ++ evs))
      | None =>
          (Ok None,
           mkWorld (rebuilt E (with_context (assistant w)
                      (PyStr.join PyStr.nl (map page_content batch))) batch)
                   (db_pool w) batch
                   (trace w ++ evs ++ [EvFromDocuments batch]))
      end.
Proof.
  intros Hr.
  destruct (gather_runs c _ _ (ingestion_tasks_run E c tables)
              (mkWorld (assistant w) (db_pool w) [] (trace w)) Hr)
    as [evs [D H]].
  exists evs. split; [exact D|].
  unfold ingest_database, try_except. unfold bind at 1. cbn [set_all_chunks].
  unfold bind at 1. rewrite H.
  destruct (first_error (ingestion_tasks E tables)) as [e|]; cbn [outcome_of].
  - reflexivity.
  - unfold bind at 1, get_world. unfold bind at 1, set_context.
    unfold bind at 1, get_world. cbn [set_self grow assistant db_pool
      all_chunks trace app]. unfold bind at 1.
    rewrite initialize_vector_store_run. cbn [ret assistant db_pool
      all_chunks trace]. now rewrite <- app_assoc.
Qed.

Lemma rebuild_calls_app (e1 e2 : list event) :
  rebuild_calls (e1 ++ e2) = (rebuild_calls e1 ++ rebuild_calls e2)%list.
Proof.
  induction e1 as [|ev e1 IH]; simpl; [reflexivity|].
  destruct ev; simpl; now rewrite IH.
Qed.

Lemma rebuild_calls_db (evs : list event) :
  Forall db_event evs -> rebuild_calls evs = [].
Proof.
  induction 1 as [|ev evs Hev _ IH]; simpl; [reflexivity|].
  destruct ev; simpl in *; auto; contradiction.
Qed.

Lemma table_task_operational (E : Env) (t : string) (e1 e2 : exn) :
  on_execute (sql E (metadata_query t) None) = Some e1 ->
  is_operational e1 = true ->
  on_execute (sql E (data_query t) (Some 1000)) = Some e2 ->
  is_operational e2 = true ->
  table_task E t = mkTask [] None.
Proof.
  intros H1 O1 H2 O2. unfold table_task, run_script, except_operational.
  rewrite H1, H2. simpl. rewrite O1, O2. reflexivity.
Qed.

Lemma gathered_chunks_skip (E : Env) (pre post : list string) (x : string) :
  task_chunks (table_task E x) = [] ->
  gathered_chunks (ingestion_tasks E (pre ++ x :: post))
  = gathered_chunks (ingestion_tasks E (pre ++ post)).
Proof.
  intros Hx. unfold gathered_chunks, ingestion_tasks.
  rewrite !map_app, !flat_map_app. simpl. now rewrite Hx.
Qed.

Lemma first_error_skip (E : Env) (pre post : list string) (x : string) :
  task_error (table_task E x) = None ->
  first_error (ingestion_tasks E (pre ++ x :: post))
  = first_error (ingestion_tasks E (pre ++ post)).
Proof.
  intros Hx. unfold ingestion_tasks. rewrite !map_app. simpl.
  induction pre as [|p pre IH]; simpl.
  - now rewrite Hx.
  - now rewrite IH.
Qed.

(** C1, amended.  On a pool that hands out a connection:
    a table whose two statements fail with an [OperationalError] (which
    [execute_query] absorbs) makes its task end normally with no chunk,
    and the ingestion goes on as if the table had not been asked for;
    when no task raises, every chunk of every task, the relationship
    chunk included, becomes the fallback context and is the batch handed
    to the vector-store rebuild; when a task raises (any exception that
    [execute_query] lets through), [ingest_database] returns
    ["Error during database ingestion: ..."] with the message of the
    first failed task, leaves [self] as it was and hands nothing to the
    rebuild, whatever the other tasks produced. *)
Theorem ingest_database_partial_failure (E : Env) (tables : list string)
        (w : World) (c : conn) :
  pool_ready w c ->
  let tasks := ingestion_tasks E tables in
  let batch := gathered_chunks tasks in
  (forall pre x post e1 e2,
     tables = (pre ++ x :: post)%list ->
     on_execute (sql E (metadata_query x) None) = Some e1 ->
     is_operational e1 = true ->
     on_execute (sql E (data_query x) (Some 1000)) = Some e2 ->
     is_operational e2 = true ->
     first_error tasks = first_error (ingestion_tasks E (pre ++ post)) /\
     batch = gathered_chunks (ingestion_tasks E (pre ++ post))) /\
  (first_error tasks = None ->
     exists w' evs,
       ingest_database E tables w = (Ok None, w') /\
       context (assistant w') = PyStr.join PyStr.nl (map page_content batch) /\
       Forall db_event evs /\
       trace w' = (trace w ++ evs ++ [EvFromDocuments batch])%list /\
       (from_documents E batch = None ->
        vector_store (assistant w') = Some (mkStore batch))) /\
  (forall e, first_error tasks = Some e ->
     exists w' evs,
       ingest_database E tables w
       = (Ok (Some ("Error during database ingestion: " ++ exn_msg e)), w') /\
       assistant w' = assistant w /\
       Forall db_event evs /\
       trace w' = (trace w ++ evs)%list /\
       rebuild_calls evs = []).
Proof.
  intros Hr tasks batch.
  destruct (ingest_database_ready E tables w c Hr) as [evs [D H]].
  fold tasks in H. fold batch in H. cbv zeta in H.
  repeat apply conj.
  - intros pre x post e1 e2 -> H1 O1 H2 O2.
    pose proof (table_task_operational E x e1 e2 H1 O1 H2 O2) as Hx.
    subst tasks batch. split.
    + apply first_error_skip. now rewrite Hx.
    + apply gathered_chunks_skip. now rewrite Hx.
  - intros Hn. rewrite Hn in H. eexists. exists evs. split; [exact H|].
    cbn [assistant trace]. unfold rebuilt.
    repeat apply conj; auto.
    + now destruct (from_documents E batch).
    + intros ->. reflexivity.
  - intros e He. rewrite He in H. eexists. exists evs. split; [exact H|].
    cbn [assistant trace]. repeat apply conj; auto.
    now apply rebuild_calls_db.
Qed.

(** C1 as stated fails: [audit] cannot be read (the statement is rejected,
    which is not an [OperationalError]), the tasks of [users] and of the
    relationships succeed and produce chunks, and yet the ingestion
    returns the error, calls no rebuild and leaves no index. *)
Lemma ingest_database_one_failure_discards_all :
  let E := Demo.env Demo.lenient_sql true in
  let r := ingest_database E ["audit"; "users"] Demo.connected in
  task_error (table_task E "audit") = Some Demo.undefined_table /\
  task_error (table_task E "users") = None /\
  task_chunks (table_task E "users") <> [] /\
  task_error (relationship_task E) = None /\
  task_chunks (relationship_task E) <> [] /\
  fst r = Ok (Some "Error during database ingestion: relation does not exist") /\
  rebuild_calls (trace (snd r)) = [] /\
  vector_store (assistant (snd r)) = None.
Proof. vm_compute. repeat split; discriminate. Qed.

(** The theorem at work: [orders] cannot be read because the connection
    drops, and the chunks of [users] and of the relationships are
    indexed. *)
Lemma ingest_database_partial_failure_witness :
  pool_ready Demo.connected 7 /\
  exists w' evs,
    ingest_database (Demo.env Demo.lenient_sql true) ["users"; "orders"]
                    Demo.connected = (Ok None, w') /\
    context (assistant w')
    = PyStr.join PyStr.nl
        (map page_content
           (gathered_chunks
              (ingestion_tasks (Demo.env Demo.lenient_sql true)
                               ["users"; "orders"]))) /\
    Forall db_event evs /\
    trace w'
    = (trace Demo.connected ++ evs ++
       [EvFromDocuments
          (gathered_chunks
             (ingestion_tasks (Demo.env Demo.lenient_sql true)
                              ["users"; "orders"]))])%list /\
    (from_documents (Demo.env Demo.lenient_sql true)
       (gathered_chunks
          (ingestion_tasks (Demo.env Demo.lenient_sql true)
                           ["users"; "orders"])) = None ->
     vector_store (assistant w')
     = Some (mkStore
               (gathered_chunks
                  (ingestion_tasks (Demo.env Demo.lenient_sql true)
                                   ["users"; "orders"])))).
Proof.
  assert (Hr : pool_ready Demo.connected 7)
    by (exists Demo.pool1, []; split; reflexivity).
  split; [exact Hr|].
  destruct (ingest_database_partial_failure
              (Demo.env Demo.lenient_sql true) ["users"; "orders"]
              Demo.connected 7 Hr) as [_ [H _]].
  apply H. reflexivity.
Defined.

(** ** Statements sent to the database *)

Lemma query_trace_issued (E : Env) (tables : list string) (c : conn)
      (q : string) (bs : option nat) :
  statement_for tables q -> Forall (issued_for tables) (query_trace E c q bs).
Proof.
  intros Hq. unfold query_trace.
  repeat (apply Forall_cons; [first [exact I | exact Hq]|]).
  apply Forall_app. split.
  - destruct (on_execute (sql E q bs)); [constructor|].
    eapply Forall_impl; [|apply fetch_trace_only_fetchmany].
    intros ev ->. exact I.
  - repeat constructor.
Qed.

Lemma fetch_table_data_issued (E : Env) (tables : list string) (t : string) :
  In t tables -> emits (issued_for tables) (fetch_table_data E t).
Proof.
  intros Ht. unfold fetch_table_data.
  apply emits_bind.
  { apply emits_execute_query. intros c. apply query_trace_issued.
    right. exists t. auto. }
  intros g. apply emits_bind; [apply emits_py_list|].
  intros res. apply emits_bind.
  { destruct res; [apply emits_ret|].
    apply emits_bind; [apply emits_lift|].
    intros lines. apply emits_append_chunk. }
  intros _. apply emits_bind.
  { apply emits_execute_query. intros c. apply query_trace_issued.
    right. exists t. auto. }
  intros g2. apply emits_for_gen. intros b. apply emits_for_each.
  intros r. apply emits_append_chunk.
Qed.

Lemma fetch_relationships_issued (E : Env) (tables : list string) :
  emits (issued_for tables) (fetch_relationships E).
Proof.
  unfold fetch_relationships. apply emits_bind.
  { apply emits_execute_query. intros c. apply query_trace_issued. now left. }
  intros g. apply emits_bind; [apply emits_py_list|].
  intros res. destruct res; [apply emits_ret|].
  apply emits_bind; [apply emits_lift|].
  intros lines. apply emits_append_chunk.
Qed.

Lemma initialize_vector_store_issued (E : Env) (tables : list string)
      (chunks : list Document) :
  emits (issued_for tables) (_initialize_vector_store E chunks).
Proof.
  intros w. rewrite initialize_vector_store_run. simpl.
  exists [EvFromDocuments chunks]. split; [reflexivity | repeat constructor].
Qed.

Lemma ingest_database_issued (E : Env) (tables : list string) :
  emits (issued_for tables) (ingest_database E tables).
Proof.
  unfold ingest_database. apply emits_try_except; [|intros e; apply emits_ret].
  apply emits_bind; [apply emits_set_all_chunks|]. intros _.
  apply emits_bind.
  { apply emits_gather. apply Forall_app. split.
    - apply Forall_forall. intros m Hm. apply in_map_iff in Hm as [t [<- Ht]].
      now apply fetch_table_data_issued.
    - repeat constructor. apply fetch_relationships_issued. }
  intros _. apply emits_bind; [apply emits_get_world|]. intros w.
  apply emits_bind.
  { unfold set_context. apply emits_bind; [apply emits_get_world|].
    intros w0. apply emits_set_self. }
  intros _. apply emits_bind; [apply initialize_vector_store_issued|].
  intros _. apply emits_ret.
Qed.

Lemma insights_loop_issued (E : Env) (tables ts : list string)
      (acc : list string) :
  (forall t, In t ts -> In t tables) ->
  emits (issued_for tables) (insights_loop E ts acc).
Proof.
  revert acc. induction ts as [|t ts IH]; intros acc Hin; simpl.
  - apply emits_ret.
  - apply emits_bind.
    { apply emits_execute_query. intros c. apply query_trace_issued.
      right. exists t. split; [apply Hin; now left | auto]. }
    intros g. apply emits_bind; [apply emits_py_list|].
    intros res. destruct res; apply IH; intros t' Ht'; apply Hin; now right.
Qed.

Lemma generate_insights_issued (E : Env) (tables : list string)
      (query : string) :
  emits (issued_for tables) (generate_insights E tables query).
Proof.
  unfold generate_insights.
  apply emits_try_except; [|intros e; apply emits_ret].
  apply emits_bind; [now apply insights_loop_issued|].
  intros ins. apply emits_ret.
Qed.

Lemma statements_issued (tables : list string) (evs : list event) :
  Forall (issued_for tables) evs ->
  Forall (statement_for tables) (statements evs).
Proof.
  induction 1 as [|ev evs Hev _ IH]; simpl; [constructor|].
  destruct ev; simpl in *; auto.
Qed.

Lemma statement_for_incl (tables known : list string) (q : string) :
  (forall t, In t tables -> In t known) ->
  statement_for tables q -> statement_for known q.
Proof.
  intros Hin [Hq | [t [Ht Hq]]]; [now left | right].
  exists t. auto.
Qed.

(** C3, amended.  Every statement that [ingest_database(tables)] and
    [generate_insights(tables, query)] send to the database is the fixed
    relationship statement or one of the three templates with an element
    of [tables] interpolated as the caller gave it; the core checks
    nothing itself, so the identifiers are known tables when the caller
    passes known tables only. *)
Theorem table_identifiers_come_from_caller (E : Env)
        (tables known : list string) (query : string) (w : World) :
  (forall t, In t tables -> In t known) ->
  exists evs1 evs2,
    trace (snd (ingest_database E tables w)) = (trace w ++ evs1)%list /\
    Forall (statement_for known) (statements evs1) /\
    trace (snd (generate_insights E tables query w)) = (trace w ++ evs2)%list /\
    Forall (statement_for known) (statements evs2).
Proof.
  intros Hin.
  destruct (ingest_database_issued E tables w) as [evs1 [H1 F1]].
  destruct (generate_insights_issued E tables query w) as [evs2 [H2 F2]].
  exists evs1, evs2. repeat apply conj; auto.
  - eapply Forall_impl; [|apply statements_issued; exact F1].
    intros q. now apply statement_for_incl.
  - eapply Forall_impl; [|apply statements_issued; exact F2].
    intros q. now apply statement_for_incl.
Qed.

(** The theorem at work on the catalogue [users], [orders] and the
    selection [users]. *)
Lemma table_identifiers_come_from_caller_witness :
  (forall t, In t ["users"] -> In t ["users"; "orders"]) /\
  exists evs1 evs2,
    trace (snd (ingest_database (Demo.env Demo.pg_sql true) ["users"]
                                Demo.connected))
    = (trace Demo.connected ++ evs1)%list /\
    Forall (statement_for ["users"; "orders"]) (statements evs1) /\
    trace (snd (generate_insights (Demo.env Demo.pg_sql true) ["users"]
                                  "how many users?" Demo.connected))
    = (trace Demo.connected ++ evs2)%list /\
    Forall (statement_for ["users"; "orders"]) (statements evs2).
Proof.
  assert (Hin : forall t, In t ["users"] -> In t ["users"; "orders"]).
  { intros t [<-|[]]. now left. }
  split; [exact Hin|].
  exact (table_identifiers_come_from_caller (Demo.env Demo.pg_sql true)
           ["users"] ["users"; "orders"] "how many users?" Demo.connected Hin).
Defined.

(** C3 as stated fails: the catalogue knows [users] and [orders], the
    caller passes [ghosts], and the row statement and the sample
    statement built from it are sent all the same (the server then
    rejects them); nor is anything escaped, the text of the caller goes
    into the statement as it is. *)
Lemma ingest_database_unvalidated_identifier :
  let E := Demo.env Demo.pg_sql true in
  fst (get_table_names E Demo.connected)
  = Ok [SqlText "users"; SqlText "orders"] /\
  In (data_query "ghosts")
     (statements (trace (snd (ingest_database E ["ghosts"] Demo.connected)))) /\
  In (sample_query "ghosts")
     (statements
        (trace (snd (generate_insights E ["ghosts"] "q" Demo.connected)))) /\
  ~ statement_for ["users"; "orders"] (data_query "ghosts") /\
  ~ statement_for ["users"; "orders"] (sample_query "ghosts") /\
  data_query "users; DROP TABLE orders"
  = "SELECT * FROM users; DROP TABLE orders".
Proof.
  cbv zeta. repeat apply conj.
  - vm_compute. reflexivity.
  - vm_compute. auto.
  - vm_compute. auto.
  - intros [H | [t [[<-|[<-|[]]] [H|[H|H]]]]]; vm_compute in H; discriminate H.
  - intros [H | [t [[<-|[<-|[]]] [H|[H|H]]]]]; vm_compute in H; discriminate H.
  - reflexivity.
Qed.

(** ** Asking *)

Lemma ask_unset (E : Env) (query : string) (w : World) :
  chain (assistant w) = None -> ask E query w = (Ok (PStr guidance), w).
Proof. intros H. unfold ask, bind, get_world. now rewrite H. Qed.

(** [ask] on an assistant whose chain and retriever are set. *)
Lemma ask_set (E : Env) (query : string) (w : World) (ch : Chain)
      (r : Retriever) :
  chain (assistant w) = Some ch -> retriever (assistant w) = Some r ->
  ask E query w
  = match get_relevant_documents E r query with
    | Raise e =>
        (Ok (PStr ("Error during query processing: " ++ exn_msg e)),
         add_trace w [EvRetrieve query])
    | Ok docs =>
        let ctx := ask_context (assistant w) docs in
        (Ok (PStr match chain_invoke E ch ctx query with
                  | Ok response => format_str response
                  | Raise e => "Error during query processing: " ++ exn_msg e
                  end),
         add_trace w [EvRetrieve query; EvInvoke ctx query])
    end.
Proof.
  intros Hc Hr. unfold ask, bind, get_world, try_except. rewrite Hc, Hr.
  cbn [record lift_result assistant ret]. unfold add_trace.
  destruct (get_relevant_documents E r query) as [docs|e]; [|reflexivity].
  cbn [assistant db_pool all_chunks trace]. rewrite <- app_assoc.
  now destruct (chain_invoke E ch (ask_context (assistant w) docs) query).
Qed.

Lemma ask_no_retriever (E : Env) (query : string) (w : World) (ch : Chain) :
  chain (assistant w) = Some ch -> retriever (assistant w) = None ->
  ask E query w
  = (Ok (PStr ("Error during query processing: "
               ++ "'NoneType' object has no attribute 'get_relevant_documents'")),
     w).
Proof.
  intros Hc Hr. unfold ask, bind, get_world, try_except. now rewrite Hc, Hr.
Qed.


(** C7.  [ask] always ends with a string and never with a raised
    exception, and it touches neither [self] nor the pool: an exception
    of the retriever or of the chain comes back as
    ["Error during query processing: "] followed by its message, and a
    response of the chain comes back formatted. *)
Theorem ask_never_raises (E : Env) (query : string) (w : World) :
  exists text w',
    ask E query w = (Ok (PStr text), w') /\
    assistant w' = assistant w /\ db_pool w' = db_pool w /\
    (forall ch r e,
       chain (assistant w) = Some ch -> retriever (assistant w) = Some r ->
       get_relevant_documents E r query = Raise e ->
       text = "Error during query processing: " ++ exn_msg e) /\
    (forall ch r docs e,
       chain (assistant w) = Some ch -> retriever (assistant w) = Some r ->
       get_relevant_documents E r query = Ok docs ->
       chain_invoke E ch (ask_context (assistant w) docs) query = Raise e ->
       text = "Error during query processing: " ++ exn_msg e) /\
    (forall ch r docs response,
       chain (assistant w) = Some ch -> retriever (assistant w) = Some r ->
       get_relevant_documents E r query = Ok docs ->
       chain_invoke E ch (ask_context (assistant w) docs) query = Ok response ->
       text = format_str response).
Proof.
  destruct (chain (assistant w)) as [ch|] eqn:Hc.
  - destruct (retriever (assistant w)) as [r|] eqn:Hr.
    + rewrite (ask_set E query w ch r Hc Hr).
      destruct (get_relevant_documents E r query) as [docs|e] eqn:Hg.
      * cbv zeta. do 2 eexists. split; [reflexivity|].
        repeat apply conj; try reflexivity.
        -- intros ch' r' e' [= <-] [= <-] He. congruence.
        -- intros ch' r' d e' [= <-] [= <-] Hd Hi.
           rewrite Hg in Hd. injection Hd as <-. now rewrite Hi.
        -- intros ch' r' d resp [= <-] [= <-] Hd Hi.
           rewrite Hg in Hd. injection Hd as <-. now rewrite Hi.
      * do 2 eexists. split; [reflexivity|].
        repeat apply conj; try reflexivity.
        -- intros ch' r' e' [= <-] [= <-] He. congruence.
        -- intros ch' r' d e' [= <-] [= <-] Hd. congruence.
        -- intros ch' r' d resp [= <-] [= <-] Hd. congruence.
    + rewrite (ask_no_retriever E query w ch Hc Hr).
      do 2 eexists. split; [reflexivity|].
      repeat apply conj; try reflexivity; intros; discriminate.
  - rewrite (ask_unset E query w Hc).
    do 2 eexists. split; [reflexivity|].
    repeat apply conj; try reflexivity; intros; discriminate.
Qed.

(** When the retriever finds nothing, the context handed to the chain is
    [self.context]. *)
Lemma ask_falls_back (E : Env) (query : string) (w : World) (ch : Chain)
      (r : Retriever) :
  chain (assistant w) = Some ch -> retriever (assistant w) = Some r ->
  get_relevant_documents E r query = Ok [] ->
  trace (snd (ask E query w))
  = (trace w ++ [EvRetrieve query; EvInvoke (context (assistant w)) query])%list.
Proof.
  intros Hc Hr Hg. rewrite (ask_set E query w ch r Hc Hr), Hg. reflexivity.
Qed.

(** ** Clearing *)

(** C9.  A second [clear] right after a first one changes nothing: the
    four attributes stay unset and empty, and [ask] answers with the
    guidance string after the first call as after the second. *)
Theorem clear_idempotent (E : Env) (query : string) (w : World) :
  let w1 := snd (clear w) in
  let w2 := snd (clear w1) in
  clear w1 = (Ok tt, w1) /\ w2 = w1 /\
  vector_store (assistant w1) = None /\ retriever (assistant w1) = None /\
  chain (assistant w1) = None /\ context (assistant w1) = EmptyString /\
  ask E query w1 = (Ok (PStr guidance), w1) /\
  ask E query w2 = (Ok (PStr guidance), w2).
Proof. cbv zeta. repeat apply conj; reflexivity. Qed.

(** ** Document ingestion and the rebuild *)

Lemma ingest_document_run (E : Env) (path : string) (w : World) :
  ingest_document E path w
  = match pdf_load E path with
    | Raise e => (Ok (Some ("Error during document ingestion: " ++ exn_msg e)), w)
    | Ok docs =>
        match split_documents E docs with
        | Raise e =>
            (Ok (Some ("Error during document ingestion: " ++ exn_msg e)), w)
        | Ok chunks =>
            match filter_complex_metadata E chunks with
            | Raise e =>
                (Ok (Some ("Error during document ingestion: " ++ exn_msg e)), w)
            | Ok chunks' =>
                (Ok None,
                 mkWorld (rebuilt E (assistant w) chunks') (db_pool w)
                         (all_chunks w) (trace w ++ [EvFromDocuments chunks']))
            end
        end
    end.
Proof.
  unfold ingest_document, try_except, lift_result. unfold bind at 1.
  destruct (pdf_load E path) as [docs|e]; [|reflexivity].
  unfold bind at 1.
  destruct (split_documents E docs) as [chunks|e]; [|reflexivity].
  unfold bind at 1.
  destruct (filter_complex_metadata E chunks) as [chunks'|e]; [|reflexivity].
  unfold bind at 1. now rewrite initialize_vector_store_run.
Qed.

(** ** What leaves the assistant alone *)

Lemma keeps_ret {A} (a : A) : keeps_self (ret a).
Proof. intros w. reflexivity. Qed.

Lemma keeps_raise {A} (e : exn) : keeps_self (@raise A e).
Proof. intros w. reflexivity. Qed.

Lemma keeps_lift {A} (r : result A) : keeps_self (lift_result r).
Proof. intros w. reflexivity. Qed.

Lemma keeps_append_chunk (d : Document) : keeps_self (append_chunk d).
Proof. intros w. reflexivity. Qed.

Lemma keeps_bind {A B} (m : M A) (f : A -> M B) :
  keeps_self m -> (forall a, keeps_self (f a)) -> keeps_self (bind m f).
Proof.
  intros Hm Hf w. unfold bind. pose proof (Hm w) as H1.
  destruct (m w) as [[a|e] w1]; simpl in H1.
  - now rewrite Hf.
  - exact H1.
Qed.

Lemma keeps_for_each {A} (xs : list A) (body : A -> M unit) :
  (forall x, keeps_self (body x)) -> keeps_self (for_each xs body).
Proof.
  intros Hb. induction xs as [|x xs IH]; simpl.
  - apply keeps_ret.
  - apply keeps_bind; [apply Hb | intros _; exact IH].
Qed.

Lemma keeps_gather (tasks : list (M unit)) :
  Forall keeps_self tasks -> keeps_self (gather tasks).
Proof.
  induction 1 as [|t ts Ht _ IH]; simpl.
  - apply keeps_ret.
  - intros w. pose proof (Ht w) as H1. destruct (t w) as [r w1].
    pose proof (IH w1) as H2. destruct (gather ts w1) as [rs w2].
    simpl in *. congruence.
Qed.

Lemma keeps_py_list (g : gen_result) : keeps_self (py_list g).
Proof.
  unfold py_list. destruct (raised g); [apply keeps_raise | apply keeps_ret].
Qed.

Lemma keeps_for_gen (g : gen_result) (body : batch -> M unit) :
  (forall b, keeps_self (body b)) -> keeps_self (for_gen g body).
Proof.
  intros Hb. unfold for_gen. apply keeps_bind.
  - now apply keeps_for_each.
  - intros _. destruct (raised g); [apply keeps_raise | apply keeps_ret].
Qed.

Lemma keeps_execute_query (E : Env) (q : string) (ps : option (list cell))
      (bs : option nat) :
  keeps_self (execute_query E q ps bs).
Proof.
  intros w. destruct (db_pool w) as [p|] eqn:Hp.
  - destruct (idle p) as [|c rest] eqn:Hi.
    + now rewrite (execute_query_no_conn E q ps bs w p Hp Hi).
    + assert (Hr : pool_ready w c) by (exists p, rest; auto).
      now rewrite (execute_query_ready E q ps bs w c Hr).
  - now rewrite (execute_query_no_pool E q ps bs w Hp).
Qed.

Lemma keeps_fetch_table_data (E : Env) (table : string) :
  keeps_self (fetch_table_data E table).
Proof.
  unfold fetch_table_data.
  apply keeps_bind; [apply keeps_execute_query|]. intros g.
  apply keeps_bind; [apply keeps_py_list|]. intros res.
  apply keeps_bind.
  { destruct res; [apply keeps_ret|].
    apply keeps_bind; [apply keeps_lift|]. intros lines.
    apply keeps_append_chunk. }
  intros _. apply keeps_bind; [apply keeps_execute_query|]. intros g2.
  apply keeps_for_gen. intros b. apply keeps_for_each. intros r.
  apply keeps_append_chunk.
Qed.

Lemma keeps_fetch_relationships (E : Env) :
  keeps_self (fetch_relationships E).
Proof.
  unfold fetch_relationships.
  apply keeps_bind; [apply keeps_execute_query|]. intros g.
  apply keeps_bind; [apply keeps_py_list|]. intros res.
  destruct res; [apply keeps_ret|].
  apply keeps_bind; [apply keeps_lift|]. intros lines.
  apply keeps_append_chunk.
Qed.

Lemma rebuilt_unset (E : Env) (self : Chat) (chunks : list Document) :
  chain self = None ->
  chain (rebuilt E self chunks) = None \/ index_built E (rebuilt E self chunks).
Proof.
  intros Hc. unfold rebuilt. destruct (from_documents E chunks) eqn:He.
  - now left.
  - right. exists chunks. auto.
Qed.

(** A document ingestion on an assistant without chain leaves it without
    chain unless it built an index. *)
Lemma ingest_document_unset (E : Env) (path : string) (w : World) :
  chain (assistant w) = None ->
  let self' := assistant (snd (ingest_document E path w)) in
  chain self' = None \/ index_built E self'.
Proof.
  intros Hc. cbv zeta. rewrite ingest_document_run.
  destruct (pdf_load E path) as [docs|e]; [|now left].
  destruct (split_documents E docs) as [chunks|e]; [|now left].
  destruct (filter_complex_metadata E chunks) as [chunks'|e]; [|now left].
  now apply rebuilt_unset.
Qed.

(** In any state of the pool, [ingest_database] leaves [self] as it was
    or as the rebuild of some batch, with that batch as context, made
    it. *)
Lemma ingest_database_self (E : Env) (tables : list string) (w : World) :
  assistant (snd (ingest_database E tables w)) = assistant w \/
  exists chunks,
    assistant (snd (ingest_database E tables w))
    = rebuilt E (with_context (assistant w)
                   (PyStr.join PyStr.nl (map page_content chunks))) chunks.
Proof.
  assert (Hg : keeps_self
                 (gather (map (fetch_table_data E) tables
                          ++ [fetch_relationships E]))).
  { apply keeps_gather. apply Forall_app. split.
    - apply Forall_forall. intros m Hm. apply in_map_iff in Hm as [t [<- _]].
      apply keeps_fetch_table_data.
    - repeat constructor. apply keeps_fetch_relationships. }
  unfold ingest_database, try_except, bind. cbn [set_all_chunks].
  specialize (Hg (mkWorld (assistant w) (db_pool w) [] (trace w))).
  destruct (gather _ _) as [[u|e] w1]; simpl in Hg.
  - right. exists (all_chunks w1). unfold get_world, set_context, bind.
    cbn [set_self get_world]. rewrite initialize_vector_store_run.
    cbn [ret snd assistant all_chunks]. now rewrite Hg.
  - left. exact Hg.
Qed.

(** The same for a database ingestion, in any state of the pool. *)
Lemma ingest_database_unset (E : Env) (tables : list string) (w : World) :
  chain (assistant w) = None ->
  let self' := assistant (snd (ingest_database E tables w)) in
  chain self' = None \/ index_built E self'.
Proof.
  intros Hc. cbv zeta.
  destruct (ingest_database_self E tables w) as [H | [chunks H]]; rewrite H.
  - now left.
  - now apply rebuilt_unset.
Qed.

(** C2.  A newly constructed assistant and a cleared one have no chain;
    an ingestion of a document or of tables started without chain ends
    without chain unless it built an index; and on any assistant without
    chain [ask] returns the fixed guidance string, raises nothing and
    changes nothing. *)
Theorem ask_before_ingestion (E : Env) (query : string) :
  chain init = None /\
  (forall w, chain (assistant (snd (clear w))) = None) /\
  (forall path w,
     chain (assistant w) = None ->
     let self' := assistant (snd (ingest_document E path w)) in
     chain self' = None \/ index_built E self') /\
  (forall tables w,
     chain (assistant w) = None ->
     let self' := assistant (snd (ingest_database E tables w)) in
     chain self' = None \/ index_built E self') /\
  (forall w, chain (assistant w) = None ->
             ask E query w
             = (Ok (PStr "Please, add a document or connect to a database first."),
                w)).
Proof.
  repeat apply conj.
  - reflexivity.
  - intros w. reflexivity.
  - intros path w. apply ingest_document_unset.
  - intros tables w. apply ingest_database_unset.
  - intros w H. now apply ask_unset.
Qed.

Lemma rebuilt_context (E : Env) (self : Chat) (chunks : list Document) :
  context (rebuilt E self chunks) = context self.
Proof. unfold rebuilt. now destruct (from_documents E chunks). Qed.

(** C5, what the code does.  [ingest_document] never assigns
    [self.context]: after it the fallback context is what it was before,
    not the concatenation of the ingested chunks.  On a new assistant the
    PDF whose only chunk reads "The sky is blue." is indexed, the fallback
    context stays empty, and a question for which the retriever finds
    nothing reaches the chain with the empty context. *)
Theorem ingest_document_leaves_context :
  (forall (E : Env) (path : string) (w : World),
     context (assistant (snd (ingest_document E path w)))
     = context (assistant w)) /\
  (let E := Demo.env Demo.pg_sql true in
   let q := "What color is the sky?" in
   let r := ingest_document E "sky.pdf" Demo.fresh in
   fst r = Ok None /\
   vector_store (assistant (snd r)) = Some (mkStore [Demo.sky]) /\
   context (assistant (snd r)) = EmptyString /\
   PyStr.join PyStr.nl (map page_content [Demo.sky]) = "The sky is blue." /\
   trace (snd (ask E q (snd r)))
   = [EvFromDocuments [Demo.sky]; EvRetrieve q; EvInvoke EmptyString q]).
Proof.
  split.
  - intros E path w. rewrite ingest_document_run.
    destruct (pdf_load E path) as [docs|e]; [|reflexivity].
    destruct (split_documents E docs) as [chunks|e]; [|reflexivity].
    destruct (filter_complex_metadata E chunks) as [chunks'|e]; [|reflexivity].
    apply rebuilt_context.
  - vm_compute. repeat split.
Qed.

(** C6, what the code does.  When the PDF loads and splits and
    [Chroma.from_documents] raises, [_initialize_vector_store] returns
    the message ["Error initializing vector store: ..."], but
    [ingest_document] drops it and returns [None], as on success; [self]
    is left as it was, so a chain built earlier stays usable. *)
Theorem rebuild_failure_returns_none (E : Env) (path : string)
        (docs chunks chunks' : list Document) (e : exn) (w : World) :
  pdf_load E path = Ok docs ->
  split_documents E docs = Ok chunks ->
  filter_complex_metadata E chunks = Ok chunks' ->
  from_documents E chunks' = Some e ->
  fst (_initialize_vector_store E chunks' w)
  = Ok (Some ("Error initializing vector store: " ++ exn_msg e)) /\
  ingest_document E path w
  = (Ok None, add_trace w [EvFromDocuments chunks']).
Proof.
  intros Hl Hs Hf He. split.
  - rewrite initialize_vector_store_run, He. reflexivity.
  - rewrite ingest_document_run, Hl, Hs, Hf. unfold rebuilt, add_trace.
    rewrite He. reflexivity.
Qed.

(** The theorem at work: the embedding backend is down while
    [sky.pdf] is ingested. *)
Lemma rebuild_failure_returns_none_witness :
  fst (_initialize_vector_store (Demo.env Demo.pg_sql false) [Demo.sky]
                                Demo.fresh)
  = Ok (Some "Error initializing vector store: embedding backend unreachable") /\
  ingest_document (Demo.env Demo.pg_sql false) "sky.pdf" Demo.fresh
  = (Ok None, add_trace Demo.fresh [EvFromDocuments [Demo.sky]]).
Proof.
  apply (rebuild_failure_returns_none (Demo.env Demo.pg_sql false) "sky.pdf"
           [Demo.sky] [Demo.sky] [Demo.sky] Demo.backend_down Demo.fresh);
    reflexivity.
Defined.

(** The same on the database path: with no failed task the method
    returns [None] whether the rebuild worked or not; when it did not,
    the store, the retriever and the chain are those of before, while the
    fallback context is already that of the new batch. *)
Lemma ingest_database_rebuild_failure (E : Env) (tables : list string)
      (w : World) (c : conn) (e : exn) :
  pool_ready w c ->
  first_error (ingestion_tasks E tables) = None ->
  from_documents E (gathered_chunks (ingestion_tasks E tables)) = Some e ->
  let r := ingest_database E tables w in
  fst r = Ok None /\
  vector_store (assistant (snd r)) = vector_store (assistant w) /\
  retriever (assistant (snd r)) = retriever (assistant w) /\
  chain (assistant (snd r)) = chain (assistant w) /\
  context (assistant (snd r))
  = PyStr.join PyStr.nl
      (map page_content (gathered_chunks (ingestion_tasks E tables))).
Proof.
  intros Hr Hn He r. subst r.
  destruct (ingest_database_ready E tables w c Hr) as [evs [_ H]].
  cbv zeta in H. rewrite Hn in H. rewrite H. cbn [fst snd assistant].
  unfold rebuilt. rewrite He. repeat split.
Qed.

(** ** The relationship chunk *)

(** On an engine that answers the relationship statement with rows of
    four cells, the task gives one chunk: the header line, then one line
    per row. *)
Lemma relationship_task_of_edges (E : Env) (b : batch) (bs : list batch)
      (lines : list string) :
  run_script (sql E relationship_query None) = mkGen (b :: bs) None ->
  map_result relationship_line (concat (b :: bs)) = Ok lines ->
  relationship_task E = mkTask [relationship_chunk lines] None.
Proof.
  intros Hg Hl. unfold relationship_task. rewrite Hg. cbn [raised yielded].
  now rewrite Hl.
Qed.

Lemma relationship_line_edge (a b c d : string) :
  relationship_line [SqlText a; SqlText b; SqlText c; SqlText d]
  = Ok (a ++ " (" ++ b ++ ") -> " ++ c ++ " (" ++ d ++ ")").
Proof. reflexivity. Qed.

(** C8, what the code does.  The statement of [fetch_relationships]
    selects [ccu.ss]; the view behind [ccu] has no column [ss] and
    PostgreSQL rejects the statement, so on
    the database with [orders.user_id -> users.id] the task raises, no
    relationship chunk is made, and the whole ingestion returns the
    error without indexing anything.  Only an engine that answers the
    statement all the same gets the single chunk with the line
    ["orders (user_id) -> users (id)"], from one statement for all
    tables. *)
Theorem relationship_statement_rejected :
  let E := Demo.env Demo.pg_sql true in
  let r := ingest_database E ["users"; "orders"] Demo.connected in
  Demo.qualified_refs "ccu." relationship_query
  = ["ss"; "column_name"; "constraint_name"] /\
  existsb (String.eqb "ss") Demo.constraint_column_usage = false /\
  relationship_task E = mkTask [] (Some Demo.undefined_column) /\
  fst r = Ok (Some "Error during database ingestion: column ccu.ss does not exist") /\
  rebuild_calls (trace (snd r)) = [] /\
  vector_store (assistant (snd r)) = None /\
  (let E' := Demo.env Demo.lenient_sql true in
   let r' := ingest_database E' ["users"; "orders"] Demo.connected in
   relationship_task E'
   = mkTask [relationship_chunk ["orders (user_id) -> users (id)"]] None /\
   count_occ string_dec (statements (trace (snd r'))) relationship_query = 1 /\
   fst r' = Ok None).
Proof. vm_compute. repeat split. Qed.

(** ** Formatting *)

(** C4, amended.  [_format_response] looks at the first line of the
    stripped response: the response without the whitespace at its two
    ends, up to its first line feed.  If the marker occurs anywhere in
    that line the result is the generic sentence, otherwise it is that
    line, the rest being discarded. *)
Theorem format_response_first_line (response : string) :
  exists lead line rest trail,
    response = lead ++ (line ++ rest) ++ trail /\
    PyStr.all_space lead /\ PyStr.all_space trail /\
    PyStr.starts_space (line ++ rest) = false /\
    PyStr.ends_space (line ++ rest) = false /\
    PyStr.strip response = line ++ rest /\
    PyStr.no_newline line /\
    (rest = EmptyString \/ exists r, rest = String PyStr.LF r) /\
    (PyStr.contains "Sample data from" line = true <->
     exists pre post, line = pre ++ "Sample data from" ++ post) /\
    format_str response
    = (if PyStr.contains "Sample data from" line
       then "I have identified some sample data. Please specify if you need more details."
       else line) /\
    _format_response (PStr response) = PStr (format_str response).
Proof.
  destruct (PyStrFacts.strip_spec response) as [lead [trail [Hr [Hl [Ht [Hs He]]]]]].
  destruct (PyStrFacts.first_line_spec (PyStr.strip response))
    as [rest [Hsp [Hn Hrest]]].
  exists lead, (PyStr.first (PyStr.split_lines (PyStr.strip response))),
         rest, trail.
  rewrite <- Hsp. repeat apply conj; auto.
  - apply PyStrFacts.contains_spec.
  - apply PyStrFacts.contains_spec.
Qed.

(** C4 as stated fails: the first line does not begin with the marker,
    it only contains it, and the result is the generic sentence instead
    of the line. *)
Lemma format_response_marker_inside_line :
  let response := "Note: Sample data from users" in
  let line := PyStr.first (PyStr.split_lines (PyStr.strip response)) in
  line = response /\
  PyStr.startswith sample_marker line = false /\
  format_str response = generic_summary /\
  format_str response <> line.
Proof. vm_compute. repeat split; discriminate. Qed.

(* ===================================================================== *)
(** * Further properties of the code *)
(* ===================================================================== *)

(** ** More on strings *)

Module PyStrMore.
Import PyStr.

Lemma all_space_app (a b : string) :
  all_space (a ++ b) <-> all_space a /\ all_space b.
Proof.
  induction a as [|c a IH]; simpl.
  - tauto.
  - rewrite IH. tauto.
Qed.

Lemma lstrip_all_space (s : string) : all_space s -> lstrip s = EmptyString.
Proof.
  induction s as [|c s IH]; simpl; [reflexivity|].
  intros [Hc Hs]. rewrite Hc. auto.
Qed.

(** [s.strip()] is empty exactly when [s] is whitespace only. *)
Lemma strip_empty_iff (s : string) :
  is_empty (strip s) = true <-> all_space s.
Proof.
  split.
  - intros He.
    destruct (PyStrFacts.strip_spec s) as [a [b [Hs [Ha [Hb _]]]]].
    destruct (strip s); [|discriminate]. rewrite Hs. simpl.
    apply all_space_app. auto.
  - intros Hs. unfold strip. now rewrite (lstrip_all_space s Hs).
Qed.

Lemma join_space_blank (parts : list string) :
  all_space (join " " parts) <-> Forall all_space parts.
Proof.
  induction parts as [|p parts IH].
  - simpl. split; [constructor | auto].
  - destruct parts as [|q parts].
    + simpl. split; [intros H; repeat constructor; exact H
                    | intros H; now inversion H].
    + change (join " " (p :: q :: parts))
        with (p ++ " " ++ join " " (q :: parts)).
      rewrite !all_space_app, IH. split.
      * intros [Hp [_ Hr]]. now constructor.
      * intros H. inversion H; subst. repeat split; auto.
Qed.

Lemma rstrip_nonblank_app (p x : string) :
  is_empty (rstrip x) = false -> rstrip (p ++ x) = p ++ rstrip x.
Proof.
  intros Hx. induction p as [|c p IH]; simpl; [reflexivity|].
  rewrite IH. destruct (p ++ rstrip x) eqn:Hp.
  - destruct p; simpl in Hp; [|discriminate]. rewrite Hp in Hx. discriminate.
  - simpl. now rewrite andb_false_r.
Qed.

Lemma first_line_app (m z : string) :
  no_newline m ->
  first (split_lines (m ++ z)) = m ++ first (split_lines z).
Proof.
  induction m as [|c m IH]; simpl; [reflexivity|].
  intros [Hc Hm]. destruct (Ascii.eqb c LF) eqn:E.
  - apply Ascii.eqb_eq in E. contradiction.
  - specialize (IH Hm). destruct (split_lines (m ++ z)) as [|h t] eqn:Hs.
    + now apply PyStrFacts.split_lines_nonempty in Hs.
    + unfold first in *. simpl in *. now rewrite IH.
Qed.

Lemma startswith_app (p s : string) : startswith p (p ++ s) = true.
Proof. apply PyStrFacts.startswith_spec. now exists s. Qed.

Lemma contains_prefix (p s : string) : contains p (p ++ s) = true.
Proof.
  destruct (p ++ s) eqn:H; simpl; rewrite <- H, startswith_app; reflexivity.
Qed.

End PyStrMore.

(** ** The reply of [_format_response] *)

Lemma first_line_starts (s : string) :
  PyStr.starts_space s = false ->
  PyStr.starts_space (PyStr.first (PyStr.split_lines s)) = false.
Proof.
  destruct s as [|c s]; simpl; [reflexivity|]. intros Hc.
  destruct (Ascii.eqb c PyStr.LF); [reflexivity|].
  destruct (PyStr.split_lines s); exact Hc.
Qed.

(** X1.  Whatever the response, the formatted reply is a single line (it
    holds no line feed) and does not begin with whitespace. *)
Theorem format_response_single_line (response : string) :
  PyStr.no_newline (format_str response) /\
  PyStr.starts_space (format_str response) = false.
Proof.
  unfold format_str.
  destruct (PyStr.contains sample_marker _).
  - split; [vm_compute; repeat split; discriminate | reflexivity].
  - split.
    + destruct (PyStrFacts.first_line_spec (PyStr.strip response))
        as [rest [_ [Hn _]]]. exact Hn.
    + apply first_line_starts.
      destruct (PyStrFacts.strip_spec response) as [a [b [_ [_ [_ [Hs _]]]]]].
      exact Hs.
Qed.

(** ** The context [ask] gives to the chain *)

Lemma ask_context_blank (self : Chat) (docs : list Document) :
  Forall blank_document docs -> ask_context self docs = context self.
Proof.
  intros H. unfold ask_context.
  assert (Hb : PyStr.is_empty
                 (PyStr.strip (PyStr.join " " (map page_content docs))) = true).
  { apply PyStrMore.strip_empty_iff, PyStrMore.join_space_blank.
    apply Forall_map. exact H. }
  now rewrite Hb.
Qed.

Lemma ask_context_found (self : Chat) (docs : list Document) :
  Exists (fun d => ~ blank_document d) docs ->
  ask_context self docs = PyStr.join " " (map page_content docs).
Proof.
  intros H. unfold ask_context.
  destruct (PyStr.is_empty
              (PyStr.strip (PyStr.join " " (map page_content docs)))) eqn:Hb;
    [|reflexivity].
  exfalso. apply PyStrMore.strip_empty_iff, PyStrMore.join_space_blank in Hb.
  apply Exists_exists in H as [d [Hd Hn]].
  apply Hn. rewrite Forall_forall in Hb. unfold blank_document.
  apply Hb. now apply in_map.
Qed.

(** X2.  With chain and retriever set and a retriever that answers, the
    chain is invoked once, after the retrieval: with the fallback context
    [self.context] when every retrieved document is blank (none
    retrieved, or whitespace only), and with the retrieved contents joined
    by single spaces as soon as one of them is not blank.  The fallback
    is never mixed with retrieved text. *)
Theorem ask_context_choice (E : Env) (query : string) (w : World)
        (ch : Chain) (r : Retriever) (docs : list Document) :
  chain (assistant w) = Some ch ->
  retriever (assistant w) = Some r ->
  get_relevant_documents E r query = Ok docs ->
  (Forall blank_document docs ->
   trace (snd (ask E query w))
   = (trace w ++ [EvRetrieve query;
                  EvInvoke (context (assistant w)) query])%list) /\
  (Exists (fun d => ~ blank_document d) docs ->
   trace (snd (ask E query w))
   = (trace w ++ [EvRetrieve query;
                  EvInvoke (PyStr.join " " (map page_content docs)) query])%list).
Proof.
  intros Hc Hr Hg. rewrite (ask_set E query w ch r Hc Hr), Hg. cbv zeta.
  split; intros H; cbn [snd add_trace trace].
  - now rewrite (ask_context_blank _ _ H).
  - now rewrite (ask_context_found _ _ H).
Qed.

(** The theorem at work: the retriever finds the chunk of the PDF and a
    blank one, and the chain gets the two contents joined. *)
Lemma ask_context_choice_witness :
  trace (snd (ask (Sample.env Demo.pg_sql [Demo.sky; mkDocument "  " []])
                  "What color is the sky?" Sample.indexed))
  = [EvRetrieve "What color is the sky?";
     EvInvoke "The sky is blue.   " "What color is the sky?"].
Proof.
  apply (proj2 (ask_context_choice
           (Sample.env Demo.pg_sql [Demo.sky; mkDocument "  " []])
           "What color is the sky?" Sample.indexed
           (mkChain (mkRetriever (mkStore [Demo.sky])
                                 "similarity_score_threshold" 3
                                 (QArith_base.Qmake 1 2))
                    prompt_template "mistral")
           (mkRetriever (mkStore [Demo.sky]) "similarity_score_threshold" 3
                        (QArith_base.Qmake 1 2))
           [Demo.sky; mkDocument "  " []] eq_refl eq_refl eq_refl)).
  apply Exists_cons_hd. unfold blank_document. simpl. intros [H _].
  discriminate H.
Defined.

(** ** What leaves the pool alone *)

Lemma pool_ret {A} (a : A) : keeps_pool (ret a).
Proof. intros w. reflexivity. Qed.

Lemma pool_raise {A} (e : exn) : keeps_pool (@raise A e).
Proof. intros w. reflexivity. Qed.

Lemma pool_lift {A} (r : result A) : keeps_pool (lift_result r).
Proof. intros w. reflexivity. Qed.

Lemma pool_record (ev : event) : keeps_pool (record ev).
Proof. intros w. reflexivity. Qed.





Lemma pool_bind {A B} (m : M A) (f : A -> M B) :
  keeps_pool m -> (forall a, keeps_pool (f a)) -> keeps_pool (bind m f).
Proof.
  intros Hm Hf w. unfold bind. pose proof (Hm w) as H1.
  destruct (m w) as [[a|e] w1]; simpl in H1.
  - now rewrite Hf.
  - exact H1.
Qed.




Lemma pool_py_list (g : gen_result) : keeps_pool (py_list g).
Proof.
  unfold py_list. destruct (raised g); [apply pool_raise | apply pool_ret].
Qed.


Lemma pool_execute_query (E : Env) (q : string) (ps : option (list cell))
      (bs : option nat) :
  keeps_pool (execute_query E q ps bs).
Proof.
  intros w. destruct (db_pool w) as [p|] eqn:Hp.
  - destruct (idle p) as [|c rest] eqn:Hi.
    + now rewrite (execute_query_no_conn E q ps bs w p Hp Hi).
    + assert (Hr : pool_ready w c) by (exists p, rest; auto).
      now rewrite (execute_query_ready E q ps bs w c Hr).
  - now rewrite (execute_query_no_pool E q ps bs w Hp).
Qed.









Lemma pool_get_table_names (E : Env) : keeps_pool (get_table_names E).
Proof.
  unfold get_table_names.
  apply pool_bind; [apply pool_execute_query|]. intros g.
  apply pool_bind; [apply pool_py_list|]. intros res.
  destruct res; [apply pool_ret | apply pool_lift].
Qed.


(** ** The reply of [generate_insights] *)

Lemma str_app_assoc (a b c : string) : (a ++ b) ++ c = a ++ b ++ c.
Proof. induction a as [|x a IH]; simpl; [reflexivity | now rewrite IH]. Qed.

Lemma is_empty_app_right (a b : string) :
  PyStr.is_empty b = false -> PyStr.is_empty (a ++ b) = false.
Proof. destruct a; simpl; auto. Qed.

(** A response that begins like an entry of [insights] is replaced by the
    generic sentence. *)
Lemma format_str_insight (s : string) :
  insight_like s -> format_str s = generic_summary.
Proof.
  intros [t [y ->]]. unfold format_str, PyStr.strip.
  change (PyStr.lstrip ("Sample data from " ++ t ++ ": " ++ y))
    with ("Sample data from " ++ t ++ ": " ++ y).
  assert (H1 : PyStr.is_empty (PyStr.rstrip (": " ++ y)) = false)
    by reflexivity.
  assert (H2 : PyStr.is_empty (PyStr.rstrip (t ++ ": " ++ y)) = false).
  { rewrite (PyStrMore.rstrip_nonblank_app t _ H1).
    now apply is_empty_app_right. }
  rewrite (PyStrMore.rstrip_nonblank_app "Sample data from " _ H2).
  change ("Sample data from " ++ PyStr.rstrip (t ++ ": " ++ y))
    with (sample_marker ++ " " ++ PyStr.rstrip (t ++ ": " ++ y)).
  rewrite PyStrMore.first_line_app
    by (vm_compute; repeat split; discriminate).
  now rewrite PyStrMore.contains_prefix.
Qed.

Lemma join_insights (l : list string) :
  Forall insight_like l -> l <> [] -> insight_like (PyStr.join " " l).
Proof.
  intros H Hn. destruct l as [|a l]; [contradiction|].
  inversion H as [|? ? [t [y Ha]] _]; subst.
  destruct l as [|b l].
  - now exists t, y.
  - change (PyStr.join " " (("Sample data from " ++ t ++ ": " ++ y) :: b :: l))
      with (("Sample data from " ++ t ++ ": " ++ y) ++ " "
            ++ PyStr.join " " (b :: l)).
    exists t, (y ++ " " ++ PyStr.join " " (b :: l)).
    rewrite !str_app_assoc. reflexivity.
Qed.

Lemma insights_loop_like (E : Env) (tables : list string) :
  forall (acc : list string) (w : World) (l : list string) (w' : World),
    Forall insight_like acc ->
    insights_loop E tables acc w = (Ok l, w') ->
    Forall insight_like l.
Proof.
  induction tables as [|t ts IH]; intros acc w l w' Hacc H; simpl in H.
  - injection H as <- _. exact Hacc.
  - unfold bind at 1 in H.
    destruct (execute_query E (sample_query t) None None w) as [[g|e] w1];
      [|discriminate].
    unfold bind at 1, py_list in H.
    destruct (raised g); [discriminate|]. cbn [ret] in H.
    destruct (yielded g) as [|b bs].
    + exact (IH acc w1 l w' Hacc H).
    + refine (IH _ w1 l w' _ H). apply Forall_app. split; [exact Hacc|].
      repeat constructor. now exists t, (py_repr E (b :: bs)).
Qed.

Lemma keeps_insights_loop (E : Env) (tables : list string) (acc : list string) :
  keeps_self (insights_loop E tables acc).
Proof.
  revert acc. induction tables as [|t ts IH]; intros acc; simpl.
  - apply keeps_ret.
  - apply keeps_bind; [apply keeps_execute_query|]. intros g.
    apply keeps_bind; [apply keeps_py_list|]. intros res.
    destruct res; apply IH.
Qed.

Lemma generate_insights_cases (E : Env) (tables : list string)
        (query : string) (w : World) :
  exists text w',
    generate_insights E tables query w = (Ok (PStr text), w') /\
    assistant w' = assistant w /\
    (text = "I have identified some sample data. Please specify if you need more details."
     \/ text = EmptyString
     \/ exists e, text = "Error generating insights: " ++ exn_msg e).
Proof.
  pose proof (keeps_insights_loop E tables [] w) as Hk.
  unfold generate_insights, try_except. unfold bind at 1.
  destruct (insights_loop E tables [] w) as [[l|e] w1] eqn:Hl; simpl in Hk.
  - pose proof (insights_loop_like E tables [] w l w1 (Forall_nil _) Hl) as Hf.
    cbn [ret _format_response]. do 2 eexists. split; [reflexivity|].
    split; [exact Hk|]. destruct l as [|a l].
    + right. left. reflexivity.
    + left. apply format_str_insight. apply join_insights; [exact Hf|].
      discriminate.
  - cbn [ret]. do 2 eexists. split; [reflexivity|]. split; [exact Hk|].
    right. right. now exists e.
Qed.

(** X4.  [generate_insights] never raises, never changes the assistant,
    and never returns a row it fetched: its reply is the generic sentence,
    the empty string (no table gave a sample), or
    ["Error generating insights: "] followed by the message of the
    exception. *)
Theorem generate_insights_never_rows (E : Env) (tables : list string)
        (query : string) (w : World) :
  exists text w',
    generate_insights E tables query w = (Ok (PStr text), w') /\
    assistant w' = assistant w /\
    (text = "I have identified some sample data. Please specify if you need more details."
     \/ text = EmptyString
     \/ exists e, text = "Error generating insights: " ++ exn_msg e).
Proof. apply generate_insights_cases. Qed.

Lemma insights_loop_ok (E : Env) (c : conn) (tables : list string) :
  forall (acc : list string) (w : World),
    pool_ready w c ->
    (forall t, In t tables -> raised (sample_data E t) = None) ->
    exists evs,
      insights_loop E tables acc w
      = (Ok (acc ++ insights_of E tables)%list, grow w [] evs).
Proof.
  induction tables as [|t ts IH]; intros acc w Hr Hok.
  - exists []. simpl. unfold ret, insights_of. simpl.
    now rewrite app_nil_r, grow_nil.
  - assert (Ht : raised (sample_data E t) = None) by (apply Hok; now left).
    assert (Hts : forall t', In t' ts -> raised (sample_data E t') = None)
      by (intros t' H'; apply Hok; now right).
    cbn [insights_loop]. unfold bind at 1.
    rewrite (execute_query_grow E _ None None w c Hr).
    unfold bind at 1, py_list. fold (sample_data E t). rewrite Ht. cbn [ret].
    unfold insights_of. cbn [filter]. unfold has_sample at 1.
    destruct (yielded (sample_data E t)) as [|b bs] eqn:Hy.
    + match goal with
      | |- context [insights_loop E ts ?a (grow w [] ?ev)] =>
          destruct (IH a _ (pool_ready_grow w [] ev c Hr) Hts) as [evs H]
      end.
      rewrite H, grow_grow. eexists. reflexivity.
    + match goal with
      | |- context [insights_loop E ts ?a (grow w [] ?ev)] =>
          destruct (IH a _ (pool_ready_grow w [] ev c Hr) Hts) as [evs H]
      end.
      rewrite H, grow_grow. cbn [map]. unfold insight_text.
      rewrite Hy, <- app_assoc. eexists. reflexivity.
Qed.

Lemma insights_loop_raise (E : Env) (c : conn) (pre post : list string)
      (x : string) (e : exn) :
  forall (acc : list string) (w : World),
    pool_ready w c ->
    (forall t, In t pre -> raised (sample_data E t) = None) ->
    raised (sample_data E x) = Some e ->
    exists w', insights_loop E (pre ++ x :: post) acc w = (Raise e, w').
Proof.
  induction pre as [|t ts IH]; intros acc w Hr Hok Hx.
  - cbn [app insights_loop]. unfold bind at 1.
    rewrite (execute_query_grow E _ None None w c Hr).
    unfold bind at 1, py_list. fold (sample_data E x). rewrite Hx.
    eexists. reflexivity.
  - assert (Ht : raised (sample_data E t) = None) by (apply Hok; now left).
    assert (Hts : forall t', In t' ts -> raised (sample_data E t') = None)
      by (intros t' H'; apply Hok; now right).
    cbn [app insights_loop]. unfold bind at 1.
    rewrite (execute_query_grow E _ None None w c Hr).
    unfold bind at 1, py_list. fold (sample_data E t). rewrite Ht. cbn [ret].
    destruct (yielded (sample_data E t));
      apply IH; auto; apply pool_ready_grow; exact Hr.
Qed.

Lemma insights_of_like (E : Env) (tables : list string) :
  Forall insight_like (insights_of E tables).
Proof.
  unfold insights_of. apply Forall_map, Forall_forall. intros t _.
  now exists t, (py_repr E (yielded (sample_data E t))).
Qed.

Lemma insights_of_nil (E : Env) (tables : list string) :
  existsb (has_sample E) tables = false -> insights_of E tables = [].
Proof.
  unfold insights_of. induction tables as [|t ts IH]; simpl; [reflexivity|].
  intros H. apply orb_false_iff in H as [H1 H2]. rewrite H1. auto.
Qed.

Lemma insights_of_cons (E : Env) (tables : list string) :
  existsb (has_sample E) tables = true -> insights_of E tables <> [].
Proof.
  unfold insights_of. induction tables as [|t ts IH]; simpl; [discriminate|].
  destruct (has_sample E t); simpl; [discriminate | exact IH].
Qed.

(** X5.  On a pool that hands out a connection: when no sample statement
    raises, the reply of [generate_insights] is the generic sentence if at
    least one table of [tables] gave at least one row, and the empty
    string otherwise; when the statement of some table raises and those
    before it did not, the reply is the error message of that exception,
    whatever the earlier tables gave. *)
Theorem generate_insights_reply (E : Env) (tables : list string)
        (query : string) (w : World) (c : conn) :
  pool_ready w c ->
  ((forall t, In t tables -> raised (sample_data E t) = None) ->
   fst (generate_insights E tables query w)
   = Ok (PStr (if existsb (has_sample E) tables
               then "I have identified some sample data. Please specify if you need more details."
               else EmptyString))) /\
  (forall pre x post e,
     tables = (pre ++ x :: post)%list ->
     (forall t, In t pre -> raised (sample_data E t) = None) ->
     raised (sample_data E x) = Some e ->
     fst (generate_insights E tables query w)
     = Ok (PStr ("Error generating insights: " ++ exn_msg e))).
Proof.
  intros Hr. split.
  - intros Hok. destruct (insights_loop_ok E c tables [] w Hr Hok) as [evs H].
    unfold generate_insights, try_except. unfold bind at 1. rewrite H.
    cbn [ret fst app _format_response]. do 2 f_equal.
    destruct (existsb (has_sample E) tables) eqn:Hs.
    + apply format_str_insight. apply join_insights.
      * apply insights_of_like.
      * now apply insights_of_cons.
    + now rewrite (insights_of_nil E tables Hs).
  - intros pre x post e -> Hok Hx.
    destruct (insights_loop_raise E c pre post x e [] w Hr Hok Hx) as [w' H].
    unfold generate_insights, try_except. unfold bind at 1. now rewrite H.
Qed.

(** The theorem at work on the tables of [Demo]: [users] has rows. *)
Lemma generate_insights_reply_witness :
  fst (generate_insights (Demo.env Demo.pg_sql true) ["users"]
                         "how many users?" Demo.connected)
  = Ok (PStr "I have identified some sample data. Please specify if you need more details.").
Proof.
  assert (Hr : pool_ready Demo.connected 7)
    by (exists Demo.pool1, []; split; reflexivity).
  apply (proj1 (generate_insights_reply (Demo.env Demo.pg_sql true) ["users"]
                  "how many users?" Demo.connected 7 Hr)).
  intros t [<-|[]]. reflexivity.
Defined.

(** ** Without a connection *)

Lemma execute_query_none (E : Env) (q : string) (ps : option (list cell))
      (bs : option nat) (w : World) :
  no_connection w -> execute_query E q ps bs w = (Ok (mkGen [] None), w).
Proof.
  intros [Hp | [p [Hp [Hi Ho]]]].
  - now apply execute_query_no_pool.
  - rewrite (execute_query_no_conn E q ps bs w p Hp Hi). now rewrite Ho.
Qed.

Lemma fetch_table_data_none (E : Env) (table : string) (w : World) :
  no_connection w -> fetch_table_data E table w = (Ok tt, w).
Proof.
  intros Hn. unfold fetch_table_data, bind.
  rewrite (execute_query_none E _ None None w Hn). cbn [py_list raised yielded ret].
  rewrite (execute_query_none E _ None (Some 1000) w Hn). reflexivity.
Qed.

Lemma fetch_relationships_none (E : Env) (w : World) :
  no_connection w -> fetch_relationships E w = (Ok tt, w).
Proof.
  intros Hn. unfold fetch_relationships, bind.
  now rewrite (execute_query_none E _ None None w Hn).
Qed.

Lemma gather_none (ms : list (M unit)) (w : World) :
  Forall (fun m => forall w0, no_connection w0 -> m w0 = (Ok tt, w0)) ms ->
  no_connection w -> gather ms w = (Ok tt, w).
Proof.
  intros H Hn. induction H as [|m ms Hm _ IH]; simpl; [reflexivity|].
  now rewrite (Hm w Hn), IH.
Qed.

Lemma insights_loop_none (E : Env) (tables : list string) (acc : list string)
      (w : World) :
  no_connection w -> insights_loop E tables acc w = (Ok acc, w).
Proof.
  intros Hn. induction tables as [|t ts IH]; simpl; [reflexivity|].
  unfold bind. rewrite (execute_query_none E _ None None w Hn).
  cbn [py_list raised yielded ret]. exact IH.
Qed.

Lemma ingest_database_none_run (E : Env) (tables : list string) (w : World) :
  no_connection w ->
  ingest_database E tables w
  = (Ok None,
     mkWorld (rebuilt E (with_context (assistant w) EmptyString) [])
             (db_pool w) [] (trace w ++ [EvFromDocuments []])).
Proof.
  intros Hn.
  assert (Hw0 : no_connection (mkWorld (assistant w) (db_pool w) [] (trace w)))
    by exact Hn.
  assert (Hg : gather (map (fetch_table_data E) tables
                       ++ [fetch_relationships E])
                      (mkWorld (assistant w) (db_pool w) [] (trace w))
               = (Ok tt, mkWorld (assistant w) (db_pool w) [] (trace w))).
  { apply gather_none; [|exact Hw0]. apply Forall_app. split.
    - apply Forall_forall. intros m Hm. apply in_map_iff in Hm as [t [<- _]].
      intros w0. apply fetch_table_data_none.
    - repeat constructor. intros w0. apply fetch_relationships_none. }
  unfold ingest_database, try_except. unfold bind at 1.
  cbn [set_all_chunks]. unfold bind at 1. rewrite Hg.
  unfold bind at 1, get_world. unfold bind at 1, set_context.
  unfold bind at 1, get_world. cbn [set_self assistant db_pool all_chunks
    trace map PyStr.join]. unfold bind at 1.
  rewrite initialize_vector_store_run. reflexivity.
Qed.

(** X6.  Without a usable connection (no pool, or a pool whose [getconn]
    fails with an [OperationalError]) [ingest_database] sends no
    statement and still reports no error: it returns [None], empties the
    fallback context and hands the empty batch to the rebuild, so that a
    rebuild that accepts it replaces the index by an empty one, and one
    that refuses it leaves store, retriever and chain as they were.
    [generate_insights] then returns the empty string. *)
Theorem ingest_database_without_connection (E : Env) (tables : list string)
        (query : string) (w : World) :
  no_connection w ->
  let r := ingest_database E tables w in
  fst r = Ok None /\
  trace (snd r) = (trace w ++ [EvFromDocuments []])%list /\
  context (assistant (snd r)) = EmptyString /\
  (from_documents E [] = None ->
   vector_store (assistant (snd r)) = Some (mkStore [])) /\
  (forall e, from_documents E [] = Some e ->
   vector_store (assistant (snd r)) = vector_store (assistant w) /\
   retriever (assistant (snd r)) = retriever (assistant w) /\
   chain (assistant (snd r)) = chain (assistant w)) /\
  generate_insights E tables query w = (Ok (PStr EmptyString), w).
Proof.
  intros Hn r. subst r. rewrite (ingest_database_none_run E tables w Hn).
  cbn [fst snd assistant trace]. unfold rebuilt.
  repeat apply conj; auto.
  - now destruct (from_documents E []).
  - intros ->. reflexivity.
  - intros e ->. auto.
  - unfold generate_insights, try_except, bind.
    now rewrite (insights_loop_none E tables [] w Hn).
Qed.

(** The theorem at work on a new assistant before any pool exists. *)
Lemma ingest_database_without_connection_witness :
  fst (ingest_database (Demo.env Demo.pg_sql true) ["users"; "orders"]
                       Demo.fresh) = Ok None /\
  trace (snd (ingest_database (Demo.env Demo.pg_sql true) ["users"; "orders"]
                              Demo.fresh)) = [EvFromDocuments []].
Proof.
  assert (Hn : no_connection Demo.fresh) by (left; reflexivity).
  destruct (ingest_database_without_connection
              (Demo.env Demo.pg_sql true) ["users"; "orders"] "q" Demo.fresh Hn)
    as [H1 [H2 _]].
  split; [exact H1 | exact H2].
Defined.

(** ** [get_table_names] *)

Lemma map_result_first (rows : list row) :
  Forall (fun r => r <> []) rows ->
  map_result (fun r => row_get r 0) rows = Ok (map (hd SqlNull) rows).
Proof.
  induction 1 as [|r rows Hr _ IH]; simpl; [reflexivity|].
  destruct r as [|c r]; [contradiction|]. simpl. now rewrite IH.
Qed.

(** X7.  [get_table_names] gives the empty list, without raising and
    without touching anything, when there is no usable connection; and,
    with a connection, when the catalogue statement fails with an
    [OperationalError] or returns no row.  The caller cannot tell these
    cases apart. *)
Theorem get_table_names_empty (E : Env) (w : World) :
  (no_connection w -> get_table_names E w = (Ok [], w)) /\
  (forall c, pool_ready w c ->
     yielded (run_script (sql E table_names_query None)) = [] ->
     raised (run_script (sql E table_names_query None)) = None ->
     fst (get_table_names E w) = Ok []) /\
  (forall c e, pool_ready w c ->
     on_execute (sql E table_names_query None) = Some e ->
     is_operational e = true ->
     fst (get_table_names E w) = Ok []).
Proof.
  repeat apply conj.
  - intros Hn. unfold get_table_names, bind.
    now rewrite (execute_query_none E _ None None w Hn).
  - intros c Hr Hy Hx. unfold get_table_names, bind.
    rewrite (execute_query_grow E _ None None w c Hr).
    unfold py_list. now rewrite Hx, Hy.
  - intros c e Hr He Ho. unfold get_table_names, bind.
    rewrite (execute_query_grow E _ None None w c Hr).
    unfold py_list, run_script, except_operational. rewrite He. simpl.
    now rewrite Ho.
Qed.

(** X8.  With a connection and a catalogue statement that runs through
    with rows of at least one cell, [get_table_names] returns the first
    cell of every row, in the order fetched and however the rows were cut
    into batches. *)
Theorem get_table_names_rows (E : Env) (w : World) (c : conn)
        (batches : list batch) :
  pool_ready w c ->
  run_script (sql E table_names_query None) = mkGen batches None ->
  Forall (fun r => r <> []) (concat batches) ->
  fst (get_table_names E w) = Ok (map (hd SqlNull) (concat batches)).
Proof.
  intros Hr Hg Hne. unfold get_table_names, bind.
  rewrite (execute_query_grow E _ None None w c Hr), Hg.
  cbn [py_list raised yielded ret].
  destruct batches as [|b bs]; [reflexivity|].
  unfold lift_result. cbn [fst]. now apply map_result_first.
Qed.

(** The theorem at work on the catalogue of [Demo], fetched one row at a
    time. *)
Lemma get_table_names_rows_witness :
  fst (get_table_names (Demo.env Demo.pg_sql true) Demo.connected)
  = Ok [SqlText "users"; SqlText "orders"].
Proof.
  assert (Hr : pool_ready Demo.connected 7)
    by (exists Demo.pool1, []; split; reflexivity).
  apply (get_table_names_rows (Demo.env Demo.pg_sql true)
           Demo.connected 7
           [Demo.rows_of [["users"]]; Demo.rows_of [["orders"]]]
           Hr eq_refl).
  repeat constructor; discriminate.
Defined.

(** ** The three attributes of the index *)

Lemma coherent_with_index (self : Chat) (chunks : list Document) :
  coherent (with_index self chunks).
Proof. unfold coherent. simpl. auto. Qed.

Lemma coherent_with_context (self : Chat) (c : string) :
  coherent self -> coherent (with_context self c).
Proof. intros H. exact H. Qed.

Lemma coherent_rebuilt (E : Env) (self : Chat) (chunks : list Document) :
  coherent self -> coherent (rebuilt E self chunks).
Proof.
  intros H. unfold rebuilt. destruct (from_documents E chunks); [exact H|].
  apply coherent_with_index.
Qed.

Lemma ask_keeps_self (E : Env) (query : string) : keeps_self (ask E query).
Proof.
  intros w. destruct (chain (assistant w)) as [ch|] eqn:Hc.
  - destruct (retriever (assistant w)) as [r|] eqn:Hr.
    + rewrite (ask_set E query w ch r Hc Hr).
      now destruct (get_relevant_documents E r query).
    + now rewrite (ask_no_retriever E query w ch Hc Hr).
  - now rewrite (ask_unset E query w Hc).
Qed.

Lemma keeps_try_except {A} (body : M A) (handler : exn -> M A) :
  keeps_self body -> (forall e, keeps_self (handler e)) ->
  keeps_self (try_except body handler).
Proof.
  intros Hm Hf w. unfold try_except. pose proof (Hm w) as H1.
  destruct (body w) as [[a|e] w1]; simpl in H1.
  - exact H1.
  - now rewrite Hf.
Qed.

Lemma generate_insights_keeps_self (E : Env) (tables : list string)
      (query : string) :
  keeps_self (generate_insights E tables query).
Proof.
  unfold generate_insights.
  apply keeps_try_except; [|intros e; apply keeps_ret].
  apply keeps_bind; [apply keeps_insights_loop|]. intros l. apply keeps_ret.
Qed.

(** X9.  The store, the retriever and the chain of the assistant are
    always set together or not at all, and when set the retriever is the
    one of the current store and the chain the one of that retriever:
    this holds of a new assistant and is kept by every method, whatever
    fails.  So when [ask] finds a chain it finds its retriever too. *)
Theorem index_attributes_coherent (E : Env) :
  coherent init /\
  (forall w, coherent (assistant w) ->
     (forall path, coherent (assistant (snd (ingest_document E path w)))) /\
     (forall tables, coherent (assistant (snd (ingest_database E tables w)))) /\
     (forall query, coherent (assistant (snd (ask E query w)))) /\
     (forall tables query,
        coherent (assistant (snd (generate_insights E tables query w)))) /\
     coherent (assistant (snd (clear w))) /\
     (forall ch, chain (assistant w) = Some ch ->
        exists r, retriever (assistant w) = Some r /\ c_retriever ch = r /\
                  vector_store (assistant w) = Some (r_store r))).
Proof.
  split; [exact I|]. intros w Hc. repeat apply conj.
  - intros path. rewrite ingest_document_run.
    destruct (pdf_load E path) as [docs|e]; [|exact Hc].
    destruct (split_documents E docs) as [chunks|e]; [|exact Hc].
    destruct (filter_complex_metadata E chunks) as [chunks'|e]; [|exact Hc].
    now apply coherent_rebuilt.
  - intros tables.
    destruct (ingest_database_self E tables w) as [H | [chunks H]]; rewrite H.
    + exact Hc.
    + now apply coherent_rebuilt, coherent_with_context.
  - intros query. now rewrite ask_keeps_self.
  - intros tables query. now rewrite generate_insights_keeps_self.
  - exact I.
  - intros ch Hch. unfold coherent in Hc. rewrite Hch in Hc.
    destruct (vector_store (assistant w)) as [s|];
      destruct (retriever (assistant w)) as [r|]; try contradiction.
    destruct Hc as [Hs Hr]. exists r. subst. auto.
Qed.

(** ** An ingestion replaces the index *)







(** ** The batch handed to the rebuild *)

Lemma schema_chunk_shape (table : string) (lines : list string) :
  database_chunk (schema_chunk table lines).
Proof.
  split; [reflexivity|]. left. unfold schema_chunk, new_document.
  cbn [page_content]. apply PyStrMore.startswith_app.
Qed.

Lemma row_chunk_shape (table : string) (r : row) :
  database_chunk (row_chunk table r).
Proof.
  split; [reflexivity|]. left. unfold row_chunk, new_document.
  cbn [page_content]. apply PyStrMore.startswith_app.
Qed.

Lemma relationship_chunk_shape (lines : list string) :
  database_chunk (relationship_chunk lines).
Proof.
  split; [reflexivity|]. right. unfold relationship_chunk, new_document.
  cbn [page_content]. apply PyStrMore.startswith_app.
Qed.

Lemma table_task_shape (E : Env) (table : string) :
  Forall database_chunk (task_chunks (table_task E table)).
Proof.
  unfold table_task.
  destruct (raised (run_script (sql E (metadata_query table) None)));
    [constructor|].
  assert (Hrows : forall l, Forall database_chunk (map (row_chunk table) l)).
  { intros l. apply Forall_map, Forall_forall. intros r _.
    apply row_chunk_shape. }
  destruct (yielded (run_script (sql E (metadata_query table) None))).
  - cbn [task_chunks app]. apply Hrows.
  - destruct (map_result column_line _); [|constructor].
    cbn [task_chunks app]. constructor; [apply schema_chunk_shape | apply Hrows].
Qed.

Lemma relationship_task_shape (E : Env) :
  Forall database_chunk (task_chunks (relationship_task E)).
Proof.
  unfold relationship_task.
  destruct (raised (run_script (sql E relationship_query None)));
    [constructor|].
  destruct (yielded (run_script (sql E relationship_query None)));
    [constructor|].
  destruct (map_result relationship_line _); [|constructor].
  repeat constructor; try apply relationship_chunk_shape; reflexivity.
Qed.

Lemma gathered_chunks_shape (E : Env) (tables : list string) :
  Forall database_chunk (gathered_chunks (ingestion_tasks E tables)).
Proof.
  unfold gathered_chunks, ingestion_tasks. rewrite flat_map_app.
  apply Forall_app. split.
  - induction tables as [|t ts IH]; simpl; [constructor|].
    apply Forall_app. split; [apply table_task_shape | exact IH].
  - simpl. rewrite app_nil_r. apply relationship_task_shape.
Qed.

(** When the pool has nothing to hand out and fails otherwise than with
    an [OperationalError], every statement raises at once. *)
Lemma execute_query_refused (E : Env) (q : string) (ps : option (list cell))
      (bs : option nat) (w : World) (p : Pool) :
  db_pool w = Some p -> idle p = [] -> is_operational (on_empty p) = false ->
  execute_query E q ps bs w = (Ok (mkGen [] (Some (on_empty p))), w).
Proof.
  intros Hp Hi Ho. rewrite (execute_query_no_conn E q ps bs w p Hp Hi).
  now rewrite Ho.
Qed.

Lemma gather_refused (e : exn) (ms : list (M unit)) (w : World) :
  Forall (fun m => m w = (Raise e, w)) ms -> ms <> [] ->
  gather ms w = (Raise e, w).
Proof.
  intros H. induction H as [|m ms Hm _ IH]; [contradiction|]. intros _.
  cbn [gather]. rewrite Hm. destruct ms as [|m' ms'].
  - reflexivity.
  - rewrite IH by discriminate. reflexivity.
Qed.

Lemma ingest_database_refused (E : Env) (tables : list string) (w : World)
      (p : Pool) :
  db_pool w = Some p -> idle p = [] -> is_operational (on_empty p) = false ->
  ingest_database E tables w
  = (Ok (Some ("Error during database ingestion: " ++ exn_msg (on_empty p))),
     mkWorld (assistant w) (db_pool w) [] (trace w)).
Proof.
  intros Hp Hi Ho.
  set (w0 := mkWorld (assistant w) (db_pool w) [] (trace w)).
  assert (Hq : forall q bs,
             execute_query E q None bs w0
             = (Ok (mkGen [] (Some (on_empty p))), w0)).
  { intros q bs. now apply execute_query_refused. }
  assert (Hg : gather (map (fetch_table_data E) tables
                       ++ [fetch_relationships E]) w0
               = (Raise (on_empty p), w0)).
  { apply gather_refused.
    - apply Forall_app. split.
      + apply Forall_forall. intros m Hm.
        apply in_map_iff in Hm as [t [<- _]].
        unfold fetch_table_data, bind. now rewrite Hq.
      + repeat constructor. unfold fetch_relationships, bind. now rewrite Hq.
    - destruct (map (fetch_table_data E) tables); discriminate. }
  unfold ingest_database, try_except. unfold bind at 1.
  cbn [set_all_chunks]. fold w0. unfold bind at 1. now rewrite Hg.
Qed.

(** X12.  In every world, one call of [ingest_database] hands at most one
    batch to the vector-store rebuild, and every chunk of that batch has
    empty metadata and a content that begins with ["Table: "] or with
    ["Relationships among tables:"]; in particular no chunk is empty. *)
Theorem ingest_database_batch_shape (E : Env) (tables : list string)
        (w : World) :
  exists evs,
    trace (snd (ingest_database E tables w)) = (trace w ++ evs)%list /\
    length (rebuild_calls evs) <= 1 /\
    (forall chunks, In chunks (rebuild_calls evs) ->
       Forall (fun d => database_chunk d /\ page_content d <> EmptyString)
              chunks).
Proof.
  assert (Hne : forall l, Forall database_chunk l ->
            Forall (fun d => database_chunk d /\ page_content d <> EmptyString) l).
  { intros l. apply Forall_impl. intros d Hd. split; [exact Hd|].
    destruct Hd as [_ [H|H]]; intros Hc; rewrite Hc in H; discriminate. }
  destruct (db_pool w) as [p|] eqn:Hp.
  - destruct (idle p) as [|c rest] eqn:Hi.
    + destruct (is_operational (on_empty p)) eqn:Ho.
      * assert (Hn : no_connection w) by (right; exists p; auto).
        rewrite (ingest_database_none_run E tables w Hn).
        exists [EvFromDocuments []]. cbn. repeat split; auto.
        intros chunks [<-|[]]. constructor.
      * rewrite (ingest_database_refused E tables w p Hp Hi Ho).
        exists []. cbn. rewrite app_nil_r. repeat split; auto.
        intros chunks [].
    + assert (Hr : pool_ready w c) by (exists p, rest; auto).
      destruct (ingest_database_ready E tables w c Hr) as [evs [D H]].
      cbv zeta in H. rewrite H.
      destruct (first_error (ingestion_tasks E tables)).
      * exists evs. cbn [snd trace]. rewrite (rebuild_calls_db evs D).
        repeat split; auto. intros chunks [].
      * exists (evs ++ [EvFromDocuments
                          (gathered_chunks (ingestion_tasks E tables))])%list.
        cbn [snd trace]. rewrite rebuild_calls_app, (rebuild_calls_db evs D).
        cbn. repeat split; auto.
        intros chunks [<-|[]]. apply Hne, gathered_chunks_shape.
  - assert (Hn : no_connection w) by (left; exact Hp).
    rewrite (ingest_database_none_run E tables w Hn).
    exists [EvFromDocuments []]. cbn. repeat split; auto.
    intros chunks [<-|[]]. constructor.
Qed.

(** ** The fetch loop *)

Lemma fetch_trace_count (c : conn) (bs : option nat) (fs : list fetch_result) :
  fetch_trace c bs fs
  = repeat (EvFetchmany c bs) (S (length (yielded (drain fs)))).
Proof.
  induction fs as [|f fs IH]; [reflexivity|].
  destruct f as [[|r rows]|e]; try reflexivity.
  cbn [fetch_trace drain gen_yield yielded length]. rewrite IH. reflexivity.
Qed.

(** X13.  With a connection, [execute_query] calls [fetchmany] exactly
    once more than the number of batches it yields when [execute]
    succeeded (the last call is the one that returned nothing or raised,
    and no call follows it), and not at all when [execute] raised; in
    both cases the cursor is closed and the connection put back right
    after. *)
Theorem execute_query_fetch_count (E : Env) (q : string)
        (ps : option (list cell)) (bs : option nat) (w : World) (c : conn) :
  pool_ready w c ->
  exists g w',
    execute_query E q ps bs w = (Ok g, w') /\
    trace w'
    = (trace w ++ [EvGetconn c; EvCursor c; EvExecute c q]
       ++ repeat (EvFetchmany c bs)
                 (match on_execute (sql E q bs) with
                  | Some _ => 0
                  | None => S (length (yielded g))
                  end)
       ++ [EvClose c; EvPutconn c])%list.
Proof.
  intros Hr. rewrite (execute_query_ready E q ps bs w c Hr).
  do 2 eexists. split; [reflexivity|]. cbn [add_trace trace].
  unfold query_trace, run_script. rewrite except_operational_yielded.
  destruct (on_execute (sql E q bs)); [reflexivity|].
  now rewrite fetch_trace_count.
Qed.

(** The theorem at work: the two rows of [users] come in one batch, so
    [fetchmany] is called twice. *)
Lemma execute_query_fetch_count_witness :
  trace (snd (execute_query (Demo.env Demo.pg_sql true) (data_query "users")
                            None (Some 1000) Demo.connected))
  = [EvGetconn 7; EvCursor 7; EvExecute 7 "SELECT * FROM users";
     EvFetchmany 7 (Some 1000); EvFetchmany 7 (Some 1000);
     EvClose 7; EvPutconn 7].
Proof.
  assert (Hr : pool_ready Demo.connected 7)
    by (exists Demo.pool1, []; split; reflexivity).
  destruct (execute_query_fetch_count (Demo.env Demo.pg_sql true)
              (data_query "users") None (Some 1000) Demo.connected 7 Hr)
    as [g [w' [H1 H2]]].
  rewrite H1. cbn [snd]. rewrite H2.
  vm_compute in H1. injection H1 as <- _. reflexivity.
Defined.

(** ** Stored configurations and the pool *)

Lemma dict_get_set_same {V} (d : dict V) (k : string) (v : V) :
  dict_get (dict_set d k v) k = Some v.
Proof.
  induction d as [|[k0 v0] d IH]; simpl.
  - now rewrite String.eqb_refl.
  - destruct (String.eqb k0 k) eqn:E; simpl; rewrite E; auto.
Qed.

Lemma dict_get_set_other {V} (d : dict V) (k k' : string) (v : V) :
  k <> k' -> dict_get (dict_set d k v) k' = dict_get d k'.
Proof.
  intros Hne. induction d as [|[k0 v0] d IH]; simpl.
  - destruct (String.eqb k k') eqn:E; [|reflexivity].
    apply String.eqb_eq in E. contradiction.
  - destruct (String.eqb k0 k) eqn:E; simpl.
    + apply String.eqb_eq in E. subst k0.
      destruct (String.eqb k k') eqn:E'; [|reflexivity].
      apply String.eqb_eq in E'. contradiction.
    + now rewrite IH.
Qed.

Lemma dict_item_some (d : dict string) (k v : string) :
  dict_get d k = Some v -> dict_item d k = CfgOk v.
Proof. intros H. unfold dict_item. now rewrite H. Qed.

Lemma create_connection_pool_full (connect : connector) (cfg : dict string)
      (pool : option Pool) (name user pw host port : string) :
  dict_get cfg "name" = Some name ->
  dict_get cfg "username" = Some user ->
  dict_get cfg "password" = Some pw ->
  dict_get cfg "host" = Some host ->
  dict_get cfg "port" = Some port ->
  create_connection_pool connect cfg 1 10 pool
  = match connect 1 10 name user pw host port with
    | Ok p => (CfgOk tt, Some p)
    | Raise e => if is_operational e then (CfgOk tt, None)
                 else (CfgRaise (DriverError e), pool)
    end.
Proof.
  intros Hn Hu Hp Hh Ho. unfold create_connection_pool.
  now rewrite (dict_item_some _ _ _ Hn), (dict_item_some _ _ _ Hu),
    (dict_item_some _ _ _ Hp), (dict_item_some _ _ _ Hh),
    (dict_item_some _ _ _ Ho).
Qed.

Lemma add_database_run (connect : connector) (form : dict string)
      (pool : option Pool) (name host port user pw : string) :
  dict_get form "name" = Some name ->
  dict_get form "host" = Some host ->
  dict_get form "port" = Some port ->
  dict_get form "username" = Some user ->
  dict_get form "password" = Some pw ->
  add_database connect form pool
  = match connect 1 10 name user pw host port with
    | Ok p =>
        (CfgOk (name, [("name", name); ("host", host); ("port", port);
                       ("username", user); ("password", pw)]), Some p)
    | Raise e =>
        if is_operational e
        then (CfgOk (name, [("name", name); ("host", host); ("port", port);
                            ("username", user); ("password", pw)]), None)
        else (CfgRaise (DriverError e), pool)
    end.
Proof.
  intros Hn Hh Ho Hu Hp. unfold add_database.
  rewrite (dict_item_some _ _ _ Hn), (dict_item_some _ _ _ Hh),
    (dict_item_some _ _ _ Ho), (dict_item_some _ _ _ Hu),
    (dict_item_some _ _ _ Hp).
  cbv zeta.
  rewrite (create_connection_pool_full connect _ pool name user pw host port)
    by reflexivity.
  destruct (connect 1 10 name user pw host port) as [p|e]; [reflexivity|].
  now destruct (is_operational e).
Qed.

(** X14.  When the form is complete and the server cannot be reached
    ([OperationalError] while the pool is built), [add_database] returns
    the name and the configuration exactly as when the pool was built,
    and the pool that existed before is dropped: from then on
    [get_table_names] gives the empty list and [ingest_database] reports
    no error and indexes nothing. *)
Theorem add_database_unreachable (connect : connector) (E : Env)
        (form : dict string) (tables : list string) (w : World)
        (name host port user pw : string) (e : exn) :
  dict_get form "name" = Some name ->
  dict_get form "host" = Some host ->
  dict_get form "port" = Some port ->
  dict_get form "username" = Some user ->
  dict_get form "password" = Some pw ->
  connect 1 10 name user pw host port = Raise e ->
  is_operational e = true ->
  let r := add_database connect form (db_pool w) in
  let w' := with_pool w (snd r) in
  (forall connect' p,
     connect' 1 10 name user pw host port = Ok p ->
     fst (add_database connect' form (db_pool w)) = fst r) /\
  (exists config, fst r = CfgOk (name, config)) /\
  snd r = None /\
  get_table_names E w' = (Ok [], w') /\
  fst (ingest_database E tables w') = Ok None /\
  rebuild_calls (trace (snd (ingest_database E tables w')))
  = (rebuild_calls (trace w) ++ [[]])%list.
Proof.
  intros Hn Hh Ho Hu Hp Hc He r w'.
  assert (Hr : r = (CfgOk (name, [("name", name); ("host", host);
                                  ("port", port); ("username", user);
                                  ("password", pw)]), None)).
  { subst r. rewrite (add_database_run connect form _ name host port user pw)
      by assumption. now rewrite Hc, He. }
  assert (Hw : no_connection w') by (left; subst w'; rewrite Hr; reflexivity).
  repeat apply conj.
  - intros connect' p Hc'.
    rewrite (add_database_run connect' form _ name host port user pw)
      by assumption. now rewrite Hc', Hr.
  - rewrite Hr. eexists. reflexivity.
  - now rewrite Hr.
  - unfold get_table_names, bind.
    now rewrite (execute_query_none E _ None None w' Hw).
  - now rewrite (ingest_database_none_run E tables w' Hw).
  - rewrite (ingest_database_none_run E tables w' Hw). cbn [snd trace].
    rewrite rebuild_calls_app. subst w'. reflexivity.
Qed.

(** The theorem at work: a database on a host that does not answer is
    added while a pool exists. *)
Lemma add_database_unreachable_witness :
  snd (add_database Sample_connect (Sample_form "nowhere")
                    (db_pool Demo.connected)) = None /\
  fst (get_table_names (Demo.env Demo.pg_sql true)
         (with_pool Demo.connected
            (snd (add_database Sample_connect (Sample_form "nowhere")
                               (db_pool Demo.connected)))))
  = Ok [].
Proof.
  destruct (add_database_unreachable Sample_connect
              (Demo.env Demo.pg_sql true) (Sample_form "nowhere") ["users"]
              Demo.connected "shop" "nowhere" "5432" "ada" "secret"
              (mkExn OperationalError "could not connect to server")
              eq_refl eq_refl eq_refl eq_refl eq_refl eq_refl eq_refl)
    as [_ [_ [H2 [H3 _]]]].
  split; [exact H2|]. now rewrite H3.
Defined.

(** X15.  [edit_database] for a name that is not a key of [databases],
    with a complete form, raises [KeyError('name')]: the configuration
    it builds has no database name, so no connection is attempted, and
    the stored configurations and the current pool are left as they
    were. *)
Theorem edit_database_unknown (connect : connector) (db_name : string)
        (form : dict string) (databases : dict (dict string))
        (pool : option Pool) (host port user pw : string) :
  dict_get databases db_name = None ->
  dict_get form "host" = Some host ->
  dict_get form "port" = Some port ->
  dict_get form "username" = Some user ->
  dict_get form "password" = Some pw ->
  edit_database connect db_name form databases pool
  = (CfgRaise (KeyError "name"), databases, pool).
Proof.
  intros Hd Hh Ho Hu Hp. unfold edit_database.
  rewrite Hd, (dict_item_some _ _ _ Hh), (dict_item_some _ _ _ Ho),
    (dict_item_some _ _ _ Hu), (dict_item_some _ _ _ Hp).
  reflexivity.
Qed.

(** The theorem at work: no configuration is stored yet. *)
Lemma edit_database_unknown_witness :
  edit_database Sample_connect "shop" (Sample_form "db.local") []
                (Some Demo.pool1)
  = (CfgRaise (KeyError "name"), [], Some Demo.pool1).
Proof.
  apply (edit_database_unknown Sample_connect "shop" (Sample_form "db.local")
           [] (Some Demo.pool1) "db.local" "5432" "ada" "secret");
    reflexivity.
Defined.

Lemma dict_update_four (d : dict string) (h p u pw : string) :
  dict_update d [("host", h); ("port", p); ("username", u); ("password", pw)]
  = dict_set (dict_set (dict_set (dict_set d "host" h) "port" p) "username" u)
             "password" pw.
Proof. reflexivity. Qed.

(** X16.  [edit_database] for a stored name, with a complete form,
    changes the stored configuration in place and before any connection
    is tried: whatever the connection attempt gives (a pool, an
    [OperationalError], another exception, or a [KeyError] because the
    stored configuration lacks a key), the entry of [db_name] then holds
    the four values of the form, its other keys are untouched, the other
    entries of [databases] are untouched, and a returned configuration is
    the stored one. *)
Theorem edit_database_in_place (connect : connector) (db_name : string)
        (form : dict string) (databases : dict (dict string))
        (pool : option Pool) (stored : dict string)
        (host port user pw : string) :
  dict_get databases db_name = Some stored ->
  dict_get form "host" = Some host ->
  dict_get form "port" = Some port ->
  dict_get form "username" = Some user ->
  dict_get form "password" = Some pw ->
  exists r databases' pool' config,
    edit_database connect db_name form databases pool = (r, databases', pool') /\
    dict_get databases' db_name = Some config /\
    dict_get config "host" = Some host /\
    dict_get config "port" = Some port /\
    dict_get config "username" = Some user /\
    dict_get config "password" = Some pw /\
    (forall k, k <> "host" -> k <> "port" -> k <> "username" ->
               k <> "password" -> dict_get config k = dict_get stored k) /\
    (forall other, other <> db_name ->
                   dict_get databases' other = dict_get databases other) /\
    (forall c, r = CfgOk c -> c = (db_name, config)).
Proof.
  intros Hd Hh Ho Hu Hp. unfold edit_database.
  rewrite Hd, (dict_item_some _ _ _ Hh), (dict_item_some _ _ _ Ho),
    (dict_item_some _ _ _ Hu), (dict_item_some _ _ _ Hp).
  cbv zeta. rewrite dict_update_four.
  set (config := dict_set (dict_set (dict_set (dict_set stored "host" host)
                                              "port" port)
                                    "username" user) "password" pw).
  assert (Hne : forall a b : string, String.eqb a b = false -> a <> b).
  { intros a b H ->. rewrite String.eqb_refl in H. discriminate. }
  destruct (create_connection_pool connect config 1 10 pool) as [[u|e] pool'].
  - exists (CfgOk (db_name, config)), (dict_set databases db_name config),
           pool', config.
    split; [reflexivity|]. repeat apply conj.
    + apply dict_get_set_same.
    + unfold config. rewrite !dict_get_set_other by (apply Hne; reflexivity).
      apply dict_get_set_same.
    + unfold config. rewrite !dict_get_set_other by (apply Hne; reflexivity).
      apply dict_get_set_same.
    + unfold config. rewrite !dict_get_set_other by (apply Hne; reflexivity).
      apply dict_get_set_same.
    + apply dict_get_set_same.
    + intros k H1 H2 H3 H4. unfold config.
      rewrite !dict_get_set_other by (intros Hk; subst k; contradiction).
      reflexivity.
    + intros other Hk. apply dict_get_set_other.
      intros ->. contradiction.
    + now intros c [= <-].
  - exists (CfgRaise e), (dict_set databases db_name config), pool', config.
    split; [reflexivity|]. repeat apply conj.
    + apply dict_get_set_same.
    + unfold config. rewrite !dict_get_set_other by (apply Hne; reflexivity).
      apply dict_get_set_same.
    + unfold config. rewrite !dict_get_set_other by (apply Hne; reflexivity).
      apply dict_get_set_same.
    + unfold config. rewrite !dict_get_set_other by (apply Hne; reflexivity).
      apply dict_get_set_same.
    + apply dict_get_set_same.
    + intros k H1 H2 H3 H4. unfold config.
      rewrite !dict_get_set_other by (intros Hk; subst k; contradiction).
      reflexivity.
    + intros other Hk. apply dict_get_set_other.
      intros ->. contradiction.
    + intros c H. discriminate H.
Qed.

(** The theorem at work: the stored host of [shop] is replaced while the
    new host cannot be reached. *)
Lemma edit_database_in_place_witness :
  exists r databases' pool' config,
    edit_database Sample_connect "shop" (Sample_form "nowhere")
                  [("shop", Sample_form "db.local")] (Some Demo.pool1)
    = (r, databases', pool') /\
    dict_get databases' "shop" = Some config /\
    dict_get config "host" = Some "nowhere".
Proof.
  destruct (edit_database_in_place Sample_connect "shop"
              (Sample_form "nowhere") [("shop", Sample_form "db.local")]
              (Some Demo.pool1) (Sample_form "db.local")
              "nowhere" "5432" "ada" "secret"
              eq_refl eq_refl eq_refl eq_refl eq_refl)
    as [r [d' [p' [cfg [H1 [H2 [H3 _]]]]]]].
  exists r, d', p', cfg. auto.
Defined.

(** ** The callbacks of the interface *)

Lemma ingest_database_returns (E : Env) (tables : list string) (w : World) :
  exists r w',
    ingest_database E tables w = (Ok r, w') /\
    (r = None \/
     exists e, r = Some ("Error during database ingestion: " ++ exn_msg e)).
Proof.
  unfold ingest_database, try_except. unfold bind at 1. cbn [set_all_chunks].
  unfold bind at 1.
  destruct (gather _ _) as [[u|e] w1].
  - unfold bind at 1, get_world. unfold bind at 1, set_context.
    unfold bind at 1, get_world. cbn [set_self]. unfold bind at 1.
    rewrite initialize_vector_store_run. cbn [ret].
    do 2 eexists. split; [reflexivity | now left].
  - cbn [ret]. do 2 eexists. split; [reflexivity|]. right. now exists e.
Qed.

Lemma ask_returns_text (E : Env) (query : string) (w : World) :
  exists text w', ask E query w = (Ok (PStr text), w').
Proof.
  destruct (chain (assistant w)) as [ch|] eqn:Hc.
  - destruct (retriever (assistant w)) as [r|] eqn:Hr.
    + rewrite (ask_set E query w ch r Hc Hr).
      destruct (get_relevant_documents E r query); do 2 eexists; reflexivity.
    + rewrite (ask_no_retriever E query w ch Hc Hr). do 2 eexists. reflexivity.
  - rewrite (ask_unset E query w Hc). do 2 eexists. reflexivity.
Qed.

Lemma key_eqb_refl (k : option string) : key_eqb k k = true.
Proof. destruct k; simpl; [apply String.eqb_refl | reflexivity]. Qed.

Lemma key_eqb_eq (a b : option string) : key_eqb a b = true -> a = b.
Proof.
  destruct a, b; simpl; try discriminate; [|reflexivity].
  intros H. apply String.eqb_eq in H. now subst.
Qed.

Lemma transcript_of_extend (d : list (option string * transcript))
      (k : option string) (t new : transcript) :
  transcript_of d k = Some t ->
  transcript_of (transcript_extend d k new) k = Some (t ++ new)%list.
Proof.
  induction d as [|[k0 t0] d IH]; simpl; [discriminate|].
  destruct (key_eqb k0 k) eqn:E; simpl; rewrite E.
  - now intros [= ->].
  - exact IH.
Qed.

Lemma transcript_of_extend_other (d : list (option string * transcript))
      (k k' : option string) (new : transcript) :
  key_eqb k k' = false ->
  transcript_of (transcript_extend d k new) k' = transcript_of d k'.
Proof.
  intros Hk. induction d as [|[k0 t0] d IH]; simpl; [reflexivity|].
  destruct (key_eqb k0 k) eqn:E; simpl.
  - apply key_eqb_eq in E. subst k0. now rewrite Hk.
  - now rewrite IH.
Qed.

Lemma transcript_of_app_none (d : list (option string * transcript))
      (k k' : option string) (t : transcript) :
  transcript_of d k' = None ->
  transcript_of (d ++ [(k, t)]) k'
  = if key_eqb k k' then Some t else None.
Proof.
  induction d as [|[k0 t0] d IH]; simpl; [reflexivity|].
  destruct (key_eqb k0 k'); [discriminate | exact IH].
Qed.

Lemma transcript_of_app_some (d : list (option string * transcript))
      (k k' : option string) (t t' : transcript) :
  transcript_of d k' = Some t' ->
  transcript_of (d ++ [(k, t)]) k' = Some t'.
Proof.
  induction d as [|[k0 t0] d IH]; simpl; [discriminate|].
  destruct (key_eqb k0 k'); [auto | exact IH].
Qed.

(** The transcript of [db_name] gains the question and the reply at its
    end, and the transcripts of the other databases stay as they are. *)
Lemma record_exchange_spec (d : list (option string * transcript))
      (db_name : option string) (question reply : string) :
  transcript_of (record_exchange d db_name question reply) db_name
  = Some (match transcript_of d db_name with
          | Some t => t
          | None => []
          end ++ [(question, true); (reply, false)])%list /\
  (forall other, key_eqb db_name other = false ->
     transcript_of (record_exchange d db_name question reply) other
     = transcript_of d other).
Proof.
  unfold record_exchange. destruct (transcript_of d db_name) as [t|] eqn:Ht.
  - split.
    + now apply transcript_of_extend.
    + intros other Hk. now apply transcript_of_extend_other.
  - split.
    + pose proof (transcript_of_app_none d db_name db_name [] Ht) as Hn.
      rewrite key_eqb_refl in Hn.
      exact (transcript_of_extend _ _ _ _ Hn).
    + intros other Hk. rewrite (transcript_of_extend_other _ _ _ _ Hk).
      destruct (transcript_of d other) as [t'|] eqn:Ho.
      * exact (transcript_of_app_some d db_name other [] t' Ho).
      * pose proof (transcript_of_app_none d db_name other [] Ho) as Hn.
        rewrite Hk in Hn. exact Hn.
Qed.

(** X17.  [process_db_input] on a question that is not blank, with
    selected tables that are strings.  When the spinner placeholder and
    the assistant exist, the callback returns normally, re-ingests the
    selected tables, appends the stripped question and one reply to the
    transcript of the selected database, appends the reply to
    [rag_responses] and empties the input.  The reply is the ingestion
    error when [ingest_database] returned one, and then nothing else ran
    (the model is not asked) and the error is also shown; otherwise it is
    the answer of [ask], two line feeds, ["Insights: "] and the reply of
    [generate_insights].  Without the placeholder or the assistant,
    nothing is ingested, asked or recorded, the input is kept and an
    error is shown. *)
Theorem process_db_input_exchange (E : Env) (s : Session) (w : World) :
  PyStr.is_empty (PyStr.strip (db_user_input s)) = false ->
  forallb is_text (selected_tables s) = true ->
  let question := PyStr.strip (db_user_input s) in
  let tables := map py_str (selected_tables s) in
  let ingestion := ingest_database E tables w in
  (db_thinking_spinner s = true -> has_assistant s = true ->
   exists reply s' w',
     process_db_input E s w = (UiDone, s', w') /\
     transcript_of (db_messages s') (selected_db s)
     = Some (match transcript_of (db_messages s) (selected_db s) with
             | Some t => t
             | None => []
             end ++ [(question, true); (reply, false)])%list /\
     rag_responses s' = (rag_responses s ++ [reply])%list /\
     db_user_input s' = EmptyString /\
     ((exists e,
         fst ingestion
         = Ok (Some ("Error during database ingestion: " ++ exn_msg e)) /\
         reply = "Error during database ingestion: " ++ exn_msg e /\
         shown s' = (shown s ++ [ErrorText reply])%list /\
         w' = snd ingestion)
      \/
      (fst ingestion = Ok None /\ shown s' = shown s /\
       exists answer insights w1,
         ask E question (snd ingestion) = (Ok (PStr answer), w1) /\
         generate_insights E tables question w1 = (Ok (PStr insights), w') /\
         reply = answer ++ PyStr.nl ++ PyStr.nl ++ "Insights: " ++ insights))) /\
  (db_thinking_spinner s = false \/ has_assistant s = false ->
   exists e,
     process_db_input E s w
     = (UiDone,
        show_error s (ErrorOf "Error processing database input: " e), w)).
Proof.
  intros Hq Ht question tables ingestion. subst question tables ingestion.
  split.
  - intros Hs Ha. unfold process_db_input. cbv zeta. rewrite Hq, Ht, Hs, Ha.
    cbn [negb]. unfold db_exchange.
    destruct (ingest_database_returns E (map py_str (selected_tables s)) w)
      as [r [w0 [Hi Hr]]].
    rewrite Hi. cbn [fst snd].
    destruct Hr as [-> | [e ->]].
    + cbn [truthy].
      destruct (ask_returns_text E (PyStr.strip (db_user_input s)) w0)
        as [answer [w1 Hask]].
      rewrite Hask.
      destruct (generate_insights_cases E (map py_str (selected_tables s))
                  (PyStr.strip (db_user_input s)) w1)
        as [insights [w2 [Hgen _]]].
      rewrite Hgen. cbn [py_format].
      do 3 eexists. split; [reflexivity|]. cbn [db_messages rag_responses
        db_user_input shown].
      split; [apply record_exchange_spec|].
      split; [reflexivity|]. split; [reflexivity|].
      right. split; [reflexivity|]. split; [reflexivity|].
      exists answer, insights, w1. auto.
    + cbn [truthy PyStr.is_empty append negb].
      do 3 eexists. split; [reflexivity|]. cbn [db_messages rag_responses
        db_user_input shown].
      split; [apply record_exchange_spec|].
      split; [reflexivity|]. split; [reflexivity|].
      left. exists e. auto.
  - intros H. unfold process_db_input. cbv zeta. rewrite Hq, Ht.
    cbn [negb]. destruct (db_thinking_spinner s); cbn [negb].
    + destruct H as [H|H]; [discriminate|]. rewrite H. cbn [negb].
      eexists. reflexivity.
    + eexists. reflexivity.
Qed.

(** The theorem at work on the PostgreSQL database of [Demo]: the
    relationship statement is rejected, so the reply to any question is
    the ingestion error. *)
Lemma process_db_input_exchange_witness :
  exists s' w',
    process_db_input (Demo.env Demo.pg_sql true)
      (mkSession true [] [] (Some "shop") false true EmptyString
                 " are orders linked to users? "
                 [SqlText "users"; SqlText "orders"] [SqlText "users"]
                 false [] true true [])
      Demo.connected
    = (UiDone, s', w') /\
    rag_responses s'
    = ["Error during database ingestion: column ccu.ss does not exist"].
Proof.
  destruct (process_db_input_exchange (Demo.env Demo.pg_sql true)
              (mkSession true [] [] (Some "shop") false true EmptyString
                 " are orders linked to users? "
                 [SqlText "users"; SqlText "orders"] [SqlText "users"]
                 false [] true true [])
              Demo.connected eq_refl eq_refl) as [H _].
  destruct (H eq_refl eq_refl) as [reply [s' [w' [Hp [_ [Hr [_ Hc]]]]]]].
  exists s', w'. split; [exact Hp|]. rewrite Hr.
  assert (H0 : fst (ingest_database (Demo.env Demo.pg_sql true) ["users"]
                                    Demo.connected)
               = Ok (Some "Error during database ingestion: column ccu.ss does not exist"))
    by (vm_compute; reflexivity).
  cbn [map py_str selected_tables] in Hc. rewrite H0 in Hc.
  destruct Hc as [[e [Hi [-> _]]] | [Hi _]].
  - injection Hi as Hi. cbn [app rag_responses]. now rewrite <- Hi.
  - discriminate Hi.
Defined.

(** X18.  [process_input] on a question that is not blank.  When the
    spinner placeholder and the assistant exist, the callback returns
    normally, appends the stripped question and the answer of [ask] to
    [messages], empties the input and shows no error; on an assistant
    that has no chain the answer is the guidance sentence.  Without the
    placeholder or the assistant, the model is not asked, nothing is
    appended, the input is kept and an error is shown. *)
Theorem process_input_exchange (E : Env) (s : Session) (w : World) :
  PyStr.is_empty (PyStr.strip (user_input s)) = false ->
  let question := PyStr.strip (user_input s) in
  (thinking_spinner s = true -> has_assistant s = true ->
   exists answer s' w',
     process_input E s w = (UiDone, s', w') /\
     ask E question w = (Ok (PStr answer), w') /\
     messages s' = (messages s ++ [(question, true); (answer, false)])%list /\
     user_input s' = EmptyString /\ shown s' = shown s /\
     db_messages s' = db_messages s /\ rag_responses s' = rag_responses s /\
     (chain (assistant w) = None ->
      answer = "Please, add a document or connect to a database first.")) /\
  (thinking_spinner s = false \/ has_assistant s = false ->
   exists e,
     process_input E s w
     = (UiDone, show_error s (ErrorOf "Error processing input: " e), w)).
Proof.
  intros Hq question. subst question. split.
  - intros Hs Ha. unfold process_input. cbv zeta. rewrite Hq, Hs, Ha.
    cbn [negb].
    destruct (ask_returns_text E (PyStr.strip (user_input s)) w)
      as [answer [w' Hask]].
    rewrite Hask. cbn [py_format].
    do 3 eexists. split; [reflexivity|]. split; [reflexivity|].
    cbn [messages user_input shown db_messages rag_responses].
    repeat split.
    intros Hc. rewrite (ask_unset E _ w Hc) in Hask.
    now injection Hask as <- _.
  - intros H. unfold process_input. cbv zeta. rewrite Hq.
    destruct (thinking_spinner s); cbn [negb].
    + destruct H as [H|H]; [discriminate|]. rewrite H. cbn [negb].
      eexists. reflexivity.
    + eexists. reflexivity.
Qed.

(** The theorem at work on a new assistant. *)
Lemma process_input_exchange_witness :
  exists s' w',
    process_input (Demo.env Demo.pg_sql true)
      (mkSession true [] [] None true false " What color is the sky? "
                 EmptyString [] [] false [] true true [])
      Demo.fresh
    = (UiDone, s', w') /\
    messages s'
    = [("What color is the sky?", true);
       ("Please, add a document or connect to a database first.", false)].
Proof.
  destruct (process_input_exchange (Demo.env Demo.pg_sql true)
              (mkSession true [] [] None true false " What color is the sky? "
                 EmptyString [] [] false [] true true [])
              Demo.fresh eq_refl) as [H _].
  destruct (H eq_refl eq_refl)
    as [answer [s' [w' [Hp [_ [Hm [_ [_ [_ [_ Hg]]]]]]]]]].
  exists s', w'. split; [exact Hp|]. rewrite Hm, (Hg eq_refl). reflexivity.
Defined.

(** X19.  [reconnect_database(db)] never opens a connection for [db]: it
    lists the tables through the pool that exists, leaves that pool as it
    is, and always ends by a rerun with [db] selected and the database
    chat shown.  When tables come back they replace the list and the
    selection is reset; when none comes back, or [get_table_names]
    raises, an error is shown and the table list and the selection of
    the database shown before are kept. *)
Theorem reconnect_database_tables (E : Env) (db : string) (s : Session)
        (w : World) :
  exists s' w',
    reconnect_database E db s w = (UiRerun, s', w') /\
    w' = snd (get_table_names E w) /\ db_pool w' = db_pool w /\
    selected_db s' = Some db /\ show_db_chat s' = true /\
    show_chat s' = false /\
    match fst (get_table_names E w) with
    | Ok (t :: ts) =>
        db_tables s' = t :: ts /\ selected_tables s' = [] /\
        select_all_tables s' = false /\ shown s' = shown s
    | Ok [] =>
        db_tables s' = db_tables s /\
        selected_tables s' = selected_tables s /\
        select_all_tables s' = select_all_tables s /\
        shown s'
        = (shown s
           ++ [ErrorText "Failed to retrieve tables from the database."])%list
    | Raise e =>
        db_tables s' = db_tables s /\
        selected_tables s' = selected_tables s /\
        select_all_tables s' = select_all_tables s /\
        shown s'
        = (shown s ++ [ErrorOf "Error reconnecting to the database: "
                               (UiException e)])%list
    end.
Proof.
  pose proof (pool_get_table_names E w) as Hp.
  unfold reconnect_database.
  destruct (get_table_names E w) as [[[|t ts]|e] w']; cbn [fst snd] in *;
    do 2 eexists; (split; [reflexivity|]); repeat split; auto.
Qed.

(** ** The statements of one ingestion *)

Lemma statements_app (e1 e2 : list event) :
  statements (e1 ++ e2) = (statements e1 ++ statements e2)%list.
Proof.
  induction e1 as [|ev e1 IH]; simpl; [reflexivity|].
  destruct ev; simpl; now rewrite IH.
Qed.

Lemma statements_fetch_trace (c : conn) (bs : option nat)
      (fs : list fetch_result) :
  statements (fetch_trace c bs fs) = [].
Proof.
  rewrite fetch_trace_count.
  induction (S (length (yielded (drain fs)))); simpl; auto.
Qed.

Lemma statements_query_trace (E : Env) (c : conn) (q : string)
      (bs : option nat) :
  statements (query_trace E c q bs) = [q].
Proof.
  unfold query_trace. cbn [app statements]. rewrite statements_app.
  destruct (on_execute (sql E q bs)); [reflexivity|].
  now rewrite statements_fetch_trace.
Qed.

Lemma fetch_table_data_sends (E : Env) (c : conn) (table : string) :
  sends c (fetch_table_data E table) (table_statements E table).
Proof.
  intros w Hr. unfold fetch_table_data, table_statements.
  pose proof (statements_query_trace E c (metadata_query table) None) as S1.
  pose proof (statements_query_trace E c (data_query table) (Some 1000)) as S2.
  remember (query_trace E c (metadata_query table) None) as q1.
  remember (query_trace E c (data_query table) (Some 1000)) as q2.
  unfold bind at 1. rewrite (execute_query_grow E _ None None w c Hr).
  rewrite <- Heqq1. unfold bind at 1, py_list.
  destruct (raised (run_script (sql E (metadata_query table) None))) as [e|].
  { do 3 eexists. split; [reflexivity | exact S1]. }
  cbn [ret]. unfold bind at 1.
  destruct (yielded (run_script (sql E (metadata_query table) None)))
    as [|b0 bs0].
  - cbn [ret]. unfold bind at 1.
    rewrite (execute_query_grow E _ None (Some 1000) _ c
               (pool_ready_grow w [] q1 c Hr)).
    rewrite <- Heqq2. unfold for_gen, bind at 1. rewrite append_batches.
    rewrite !grow_grow.
    destruct (raised (run_script (sql E (data_query table) (Some 1000))));
      (do 3 eexists; split; [reflexivity|]);
      rewrite app_nil_r, statements_app, S1, S2; reflexivity.
  - unfold bind at 1, lift_result.
    destruct (map_result column_line (concat (b0 :: bs0))) as [lines|e].
    + rewrite append_chunk_grow. unfold bind at 1. rewrite grow_grow.
      rewrite (execute_query_grow E _ None (Some 1000) _ c
                 (pool_ready_grow w _ _ c Hr)).
      rewrite <- Heqq2. unfold for_gen, bind at 1. rewrite append_batches.
      rewrite !grow_grow.
      destruct (raised (run_script (sql E (data_query table) (Some 1000))));
        (do 3 eexists; split; [reflexivity|]);
        rewrite !app_nil_r, statements_app, S1, S2; reflexivity.
    + do 3 eexists. split; [reflexivity | exact S1].
Qed.

Lemma fetch_relationships_sends (E : Env) (c : conn) :
  sends c (fetch_relationships E) [relationship_query].
Proof.
  intros w Hr. unfold fetch_relationships.
  pose proof (statements_query_trace E c relationship_query None) as S1.
  remember (query_trace E c relationship_query None) as q.
  unfold bind at 1. rewrite (execute_query_grow E _ None None w c Hr).
  rewrite <- Heqq. unfold bind at 1, py_list.
  destruct (raised (run_script (sql E relationship_query None))) as [e|].
  { do 3 eexists. split; [reflexivity | exact S1]. }
  cbn [ret].
  destruct (yielded (run_script (sql E relationship_query None))) as [|b0 bs0].
  { do 3 eexists. split; [reflexivity | exact S1]. }
  unfold bind at 1, lift_result.
  destruct (map_result relationship_line (concat (b0 :: bs0))) as [lines|e].
  - rewrite append_chunk_grow, grow_grow.
    do 3 eexists. split; [reflexivity|]. now rewrite app_nil_r.
  - do 3 eexists. split; [reflexivity | exact S1].
Qed.

Lemma gather_sends (c : conn) (ms : list (M unit))
      (stss : list (list string)) :
  Forall2 (sends c) ms stss -> sends c (gather ms) (concat stss).
Proof.
  induction 1 as [|m sts ms stss Hm _ IH]; intros w Hr.
  - exists (Ok tt), [], []. simpl. unfold ret. now rewrite grow_nil.
  - destruct (Hm w Hr) as [r1 [d1 [e1 [H1 S1]]]].
    destruct (IH (grow w d1 e1) (pool_ready_grow w d1 e1 c Hr))
      as [r2 [d2 [e2 [H2 S2]]]].
    cbn [gather]. rewrite H1, H2, grow_grow.
    do 3 eexists. split; [reflexivity|].
    now rewrite statements_app, S1, S2.
Qed.

Lemma metadata_not_relationship (t : string) :
  metadata_query t <> relationship_query.
Proof.
  intros H.
  assert (Hp : PyStr.startswith
                 (PyStr.nl ++ "                SELECT c") (metadata_query t)
               = true) by reflexivity.
  rewrite H in Hp. vm_compute in Hp. discriminate Hp.
Qed.

Lemma data_not_relationship (t : string) :
  data_query t <> relationship_query.
Proof.
  intros H.
  assert (Hp : PyStr.startswith "S" (data_query t) = true) by reflexivity.
  rewrite H in Hp. vm_compute in Hp. discriminate Hp.
Qed.

Lemma table_statements_other (E : Env) (tables : list string) :
  count_occ string_dec (flat_map (table_statements E) tables)
            relationship_query = 0.
Proof.
  apply count_occ_not_In. intros Hin. apply in_flat_map in Hin as [t [_ Ht]].
  unfold table_statements in Ht.
  assert (Hc : metadata_query t = relationship_query
               \/ data_query t = relationship_query).
  { destruct (raised _); [|destruct (yielded _); [|destruct (map_result _ _)]];
      simpl in Ht; tauto. }
  destruct Hc as [Hc|Hc].
  - now apply metadata_not_relationship in Hc.
  - now apply data_not_relationship in Hc.
Qed.

(** X20.  On a pool that hands out a connection, one [ingest_database]
    sends, for each table in the order given, its column statement and
    then its row statement (the latter is not sent when the former ended
    with an exception or a column row could not be rendered), and after
    all the tables the relationship statement, exactly once, however many
    tables there are and whichever task failed. *)
Theorem ingest_database_statements (E : Env) (tables : list string)
        (w : World) (c : conn) :
  pool_ready w c ->
  exists evs,
    trace (snd (ingest_database E tables w)) = (trace w ++ evs)%list /\
    statements evs
    = (flat_map (table_statements E) tables ++ [relationship_query])%list /\
    count_occ string_dec (statements evs) relationship_query = 1.
Proof.
  intros Hr.
  assert (Hg : sends c (gather (map (fetch_table_data E) tables
                                ++ [fetch_relationships E]))
                     (concat (map (table_statements E) tables
                              ++ [[relationship_query]]))).
  { apply gather_sends. apply Forall2_app.
    - induction tables as [|t ts IH]; simpl; constructor.
      + apply fetch_table_data_sends.
      + exact IH.
    - constructor; [apply fetch_relationships_sends | constructor]. }
  destruct (Hg (mkWorld (assistant w) (db_pool w) [] (trace w)) Hr)
    as [r [ds [evs [T S]]]].
  rewrite concat_app, <- flat_map_concat_map in S. cbn [concat app] in S.
  assert (Hcount : count_occ string_dec
            (flat_map (table_statements E) tables ++ [relationship_query])
            relationship_query = 1).
  { rewrite count_occ_app, table_statements_other. simpl.
    destruct (string_dec relationship_query relationship_query);
      [reflexivity | contradiction]. }
  unfold ingest_database, try_except. unfold bind at 1. cbn [set_all_chunks].
  unfold bind at 1. rewrite T. destruct r as [u|e].
  - unfold bind at 1, get_world. unfold bind at 1, set_context.
    unfold bind at 1, get_world. cbn [set_self]. unfold bind at 1.
    rewrite initialize_vector_store_run. cbn [ret snd trace grow all_chunks].
    eexists. rewrite <- app_assoc. split; [reflexivity|].
    rewrite statements_app, S. cbn [statements]. rewrite app_nil_r. auto.
  - cbn [ret snd grow trace]. exists evs. rewrite S. auto.
Qed.

(** The theorem at work on PostgreSQL: five statements for two tables. *)
Lemma ingest_database_statements_witness :
  exists evs,
    trace (snd (ingest_database (Demo.env Demo.pg_sql true)
                  ["users"; "orders"] Demo.connected))
    = (trace Demo.connected ++ evs)%list /\
    statements evs
    = [metadata_query "users"; data_query "users";
       metadata_query "orders"; data_query "orders"; relationship_query].
Proof.
  assert (Hr : pool_ready Demo.connected 7)
    by (exists Demo.pool1, []; split; reflexivity).
  destruct (ingest_database_statements (Demo.env Demo.pg_sql true)
              ["users"; "orders"] Demo.connected 7 Hr) as [evs [H1 [H2 _]]].
  exists evs. split; [exact H1|]. rewrite H2. reflexivity.
Defined.

(** ** Failures of a document ingestion *)

(** X21.  [ingest_document] never raises.  Either the loader, the
    splitter or the metadata filter raised, and then the method returns
    ["Error during document ingestion: "] followed by the message and has
    touched nothing (no rebuild was tried, the index of before stays);
    or all three returned, and then the method returns [None] after
    exactly one rebuild attempt, on the filtered chunks. *)
Theorem ingest_document_outcomes (E : Env) (path : string) (w : World) :
  let r := ingest_document E path w in
  (exists e,
     (pdf_load E path = Raise e \/
      exists docs,
        pdf_load E path = Ok docs /\
        (split_documents E docs = Raise e \/
         exists chunks,
           split_documents E docs = Ok chunks /\
           filter_complex_metadata E chunks = Raise e)) /\
     r = (Ok (Some ("Error during document ingestion: " ++ exn_msg e)), w))
  \/
  (exists docs chunks chunks',
     pdf_load E path = Ok docs /\
     split_documents E docs = Ok chunks /\
     filter_complex_metadata E chunks = Ok chunks' /\
     fst r = Ok None /\
     trace (snd r) = (trace w ++ [EvFromDocuments chunks'])%list /\
     assistant (snd r) = rebuilt E (assistant w) chunks').
Proof.
  cbv zeta. rewrite ingest_document_run.
  destruct (pdf_load E path) as [docs|e] eqn:Hl.
  - destruct (split_documents E docs) as [chunks|e] eqn:Hs.
    + destruct (filter_complex_metadata E chunks) as [chunks'|e] eqn:Hf.
      * right. exists docs, chunks, chunks'. repeat split; auto.
      * left. exists e. split; [|reflexivity]. right. exists docs.
        split; [reflexivity|]. right. exists chunks. split; auto.
    + left. exists e. split; [|reflexivity]. right. exists docs. split; auto.
  - left. exists e. split; auto.
Qed.

(** ** Editing a stored configuration *)

(** X22.  [edit_database] for a stored configuration that has a database
    name, with a complete form, connects to the database named in the
    stored configuration (not to the key it is stored under) with the
    user, password, host and port of the form.  When the pool is built
    it becomes the current pool; when building it fails with an
    [OperationalError] the call returns as on success and there is no
    pool any more; another exception is raised to the caller and the pool
    of before stays.  In the three cases the stored configuration has
    already been changed. *)
Theorem edit_database_connects (connect : connector) (db_name : string)
        (form : dict string) (databases : dict (dict string))
        (pool : option Pool) (stored : dict string)
        (dbname host port user pw : string) :
  dict_get databases db_name = Some stored ->
  dict_get stored "name" = Some dbname ->
  dict_get form "host" = Some host ->
  dict_get form "port" = Some port ->
  dict_get form "username" = Some user ->
  dict_get form "password" = Some pw ->
  let config :=
    dict_update stored [("host", host); ("port", port); ("username", user);
                        ("password", pw)] in
  let databases' := dict_set databases db_name config in
  edit_database connect db_name form databases pool
  = match connect 1 10 dbname user pw host port with
    | Ok p => (CfgOk (db_name, config), databases', Some p)
    | Raise e =>
        if is_operational e
        then (CfgOk (db_name, config), databases', None)
        else (CfgRaise (DriverError e), databases', pool)
    end.
Proof.
  intros Hd Hn Hh Ho Hu Hp config databases'. unfold edit_database.
  rewrite Hd, (dict_item_some _ _ _ Hh), (dict_item_some _ _ _ Ho),
    (dict_item_some _ _ _ Hu), (dict_item_some _ _ _ Hp).
  cbv zeta. fold config. fold databases'.
  assert (Hne : forall a b : string, String.eqb a b = false -> a <> b).
  { intros a b H ->. rewrite String.eqb_refl in H. discriminate. }
  rewrite (create_connection_pool_full connect config pool
             dbname user pw host port).
  - destruct (connect 1 10 dbname user pw host port) as [p|e]; [reflexivity|].
    now destruct (is_operational e).
  - unfold config. rewrite dict_update_four.
    rewrite !dict_get_set_other by (apply Hne; reflexivity). exact Hn.
  - unfold config. rewrite dict_update_four.
    rewrite !dict_get_set_other by (apply Hne; reflexivity).
    apply dict_get_set_same.
  - unfold config. rewrite dict_update_four. apply dict_get_set_same.
  - unfold config. rewrite dict_update_four.
    rewrite !dict_get_set_other by (apply Hne; reflexivity).
    apply dict_get_set_same.
  - unfold config. rewrite dict_update_four.
    rewrite !dict_get_set_other by (apply Hne; reflexivity).
    apply dict_get_set_same.
Qed.

(** The theorem at work: the configuration stored under [shop] by
    [add_database] is pointed to a host that does not answer. *)
Lemma edit_database_connects_witness :
  edit_database Sample_connect "shop" (Sample_form "nowhere")
                [("shop", Sample_form "db.local")] (Some Demo.pool1)
  = (CfgOk ("shop", Sample_form "nowhere"),
     [("shop", Sample_form "nowhere")], None).
Proof.
  apply (edit_database_connects Sample_connect "shop" (Sample_form "nowhere")
           [("shop", Sample_form "db.local")] (Some Demo.pool1)
           (Sample_form "db.local") "shop" "nowhere" "5432" "ada" "secret");
    reflexivity.
Defined.
